(** * Dynamic asset allocation: a shallow embedding of
      [backend/python/dynamic_allocation.py]

    The development follows the class [DynamicAllocationService]:
    the optimizer wrappers, the ensemble blend, the regime tilts, the
    constraint projector and the orchestrator
    [calculate_dynamic_allocation].

    Modelling conventions.
    - Python floats are exact rationals ([Q]); results that the source
      states "within 1e-6" are therefore obtained exactly.  The one
      non-finite value that the pipeline can manufacture by itself, the
      [nan] of a [0/0] normalisation in numpy, is kept as [NaN] in the
      optimizer stage (type [npfloat]).
    - A Python [dict] is an insertion-ordered association list with
      distinct keys: the order of [current_weights] fixes the order of
      [symbols], which the stable [sorted] of the projector observes.
    - [try]/[except] is a small error monad ([result]).
    - numpy/scipy calls whose value is not a rational function of the
      inputs ([minimize], [np.linalg.inv], [np.linalg.eigh], [np.sqrt])
      are fields of a [Backend] record, together with the shape contract
      the source relies on. *)

From Stdlib Require Import QArith Qabs Lqa Lia PeanoNat List String Ascii Bool Permutation.
Import ListNotations.
Local Open Scope string_scope.
Local Open Scope Q_scope.

(** ** Floats and comparisons *)

Definition Qgtb (x y : Q) : bool := negb (Qle_bool x y).
Definition Qltb (x y : Q) : bool := negb (Qle_bool y x).

(** Python's builtin [sum]: a left fold starting from [0]. *)
Definition sum (l : list Q) : Q := fold_left Qplus l 0.

(** Python's [max(0, x)] on a finite float. *)
Definition max0 (x : Q) : Q := if Qgtb x 0 then x else 0.

(** ** Exceptions *)

Inductive exn : Type :=
| AttributeError | KeyError | UnboundLocalError | LinAlgError | ValueError.

Inductive result (A : Type) : Type :=
| Ok (a : A)
| Raise (e : exn).
Arguments Ok {A} a.
Arguments Raise {A} e.

Definition bind {A B : Type} (m : result A) (k : A -> result B) : result B :=
  match m with
  | Ok a => k a
  | Raise e => Raise e
  end.

Notation "x <- m ;; k" := (bind m (fun x => k))
  (at level 61, m at next level, right associativity).

(** [try: body  except Exception: handler]. *)
Definition try_except {A : Type} (body : result A) (handler : exn -> A) : A :=
  match body with
  | Ok a => a
  | Raise e => handler e
  end.

(** ** Insertion-ordered dictionaries *)

Module Dict.
Section Dict.
Context {V : Type}.

Definition t : Type := list (string * V).

Definition keys (d : t) : list string := map fst d.
Definition values (d : t) : list V := map snd d.

(** [d[k]] *)
Fixpoint getitem (d : t) (k : string) : result V :=
  match d with
  | [] => Raise KeyError
  | (k', v) :: d' => if String.eqb k k' then Ok v else getitem d' k
  end.

(** [d.get(k, default)] *)
Definition get (d : t) (k : string) (default : V) : V :=
  try_except (getitem d k) (fun _ => default).

(** [k in d] *)
Definition contains (d : t) (k : string) : bool :=
  existsb (String.eqb k) (keys d).

(** [d[k] = v]: an existing key keeps its position. *)
Fixpoint setitem (d : t) (k : string) (v : V) : t :=
  match d with
  | [] => [(k, v)]
  | (k', v') :: d' =>
      if String.eqb k k' then (k', v) :: d' else (k', v') :: setitem d' k v
  end.

(** [dict(zip(ks, vs))] *)
Definition of_zip (ks : list string) (vs : list V) : t :=
  fold_left (fun d kv => setitem d (fst kv) (snd kv)) (combine ks vs) [].

(** [{k: f(k, v) for k, v in d.items()}] *)
Definition map_items {W : Type} (f : string -> V -> W) (d : t) : list (string * W) :=
  map (fun kv => (fst kv, f (fst kv) (snd kv))) d.
End Dict.
Arguments t V : clear implicits.
End Dict.

Abbreviation dict := Dict.t.

(** Keys of a Python dict are pairwise distinct. *)
Fixpoint distinct (l : list string) : bool :=
  match l with
  | [] => true
  | k :: l' => negb (existsb (String.eqb k) l') && distinct l'
  end.

(** ** Configuration ([__init__]) *)

Record constraints : Type := {
  min_weight : Q;
  max_weight : Q;
  max_turnover : Q;
  min_diversification : nat;
  cash_buffer : Q
}.

Definition allocation_constraints : constraints := {|
  min_weight := 0.0;
  max_weight := 0.4;
  max_turnover := 0.2;
  min_diversification := 3;
  cash_buffer := 0.05
|}.

Definition regime_risk_adjustments : dict Q :=
  [("Bull", 1.1); ("Bear", 0.6); ("Volatile", 0.7); ("Stable", 1.0)].

Definition target_volatility : Q := 0.15.
Definition rebalancing_threshold : Q := 0.05.

(** ** Constraint projector ([apply_allocation_constraints]) *)

(** [for symbol in symbols: w = d[symbol]; if ...: d[symbol] = ...].
    The loop body reads the entry of [symbol] and may overwrite it. *)
Fixpoint for_symbols (body : string -> Q -> option Q)
    (symbols : list string) (d : dict Q) : result (dict Q) :=
  match symbols with
  | [] => Ok d
  | s :: rest =>
      w <- Dict.getitem d s ;;
      for_symbols body rest
        (match body s w with
         | Some v => Dict.setitem d s v
         | None => d
         end)
  end.

(** Lines 611-614: cap at [max_weight]. *)
Definition cap_max_weight (symbols : list string) (cw : dict Q) : result (dict Q) :=
  for_symbols
    (fun _ w => if Qgtb w (max_weight allocation_constraints)
                then Some (max_weight allocation_constraints) else None)
    symbols cw.

(** Lines 616-619: weights under [min_weight] become [0.0]. *)
Definition floor_min_weight (symbols : list string) (cw : dict Q) : result (dict Q) :=
  for_symbols
    (fun _ w => if Qltb w (min_weight allocation_constraints) then Some 0.0 else None)
    symbols cw.

(** Line 622: [sum(1 for w in d.values() if w > 0.01)]. *)
Definition non_zero_positions (cw : dict Q) : nat :=
  List.length (filter (fun w => Qgtb w 0.01) (Dict.values cw)).

(** [sorted(symbols, key=lambda s: d[s], reverse=True)]: the keys are
    computed first, the sort is stable, and [reverse=True] keeps the
    original order among equal keys. *)
Fixpoint insert_desc (x : string * Q) (l : list (string * Q)) : list (string * Q) :=
  match l with
  | [] => [x]
  | y :: l' => if Qltb (snd x) (snd y) then y :: insert_desc x l' else x :: l
  end.

Definition sort_desc (l : list (string * Q)) : list (string * Q) :=
  fold_right insert_desc [] l.

Fixpoint decorate (symbols : list string) (d : dict Q) : result (list (string * Q)) :=
  match symbols with
  | [] => Ok []
  | s :: rest =>
      w <- Dict.getitem d s ;;
      tl <- decorate rest d ;;
      Ok ((s, w) :: tl)
  end.

Definition sorted_by_weight_desc (symbols : list string) (d : dict Q)
  : result (list string) :=
  keyed <- decorate symbols d ;;
  Ok (map fst (sort_desc keyed)).

(** Lines 621-630. *)
Definition ensure_min_diversification (symbols : list string) (cw : dict Q)
  : result (dict Q) :=
  if Nat.ltb (non_zero_positions cw) (min_diversification allocation_constraints)
  then
    top_symbols <- sorted_by_weight_desc symbols cw ;;
    let min_positions := min_diversification allocation_constraints in
    for_symbols (fun _ w => if Qltb w 0.05 then Some 0.05 else None)
      (firstn min_positions top_symbols) cw
  else Ok cw.

(** Lines 633-634. *)
Fixpoint turnover_terms (symbols : list string) (cw current_weights : dict Q)
  : result (list Q) :=
  match symbols with
  | [] => Ok []
  | s :: rest =>
      w <- Dict.getitem cw s ;;
      tl <- turnover_terms rest cw current_weights ;;
      Ok (Qabs (w - Dict.get current_weights s 0) :: tl)
  end.

Definition total_turnover (symbols : list string) (cw current_weights : dict Q)
  : result Q :=
  terms <- turnover_terms symbols cw current_weights ;;
  Ok (sum terms).

(** Lines 632-644. *)
Definition limit_turnover (symbols : list string) (cw current_weights : dict Q)
  : result (dict Q) :=
  turnover <- total_turnover symbols cw current_weights ;;
  if Qgtb turnover (max_turnover allocation_constraints) then
    let turnover_scale := max_turnover allocation_constraints / turnover in
    for_symbols
      (fun s new_w =>
         let current_w := Dict.get current_weights s 0 in
         let change := (new_w - current_w) * turnover_scale in
         Some (current_w + change))
      symbols cw
  else Ok cw.

(** Lines 646-650; also the last step of [apply_regime_tilts]. *)
Definition renormalize (d : dict Q) : dict Q :=
  let total_weight := sum (Dict.values d) in
  if Qgtb total_weight 0
  then Dict.map_items (fun _ weight => weight / total_weight) d
  else d.

(** Steps (a)-(c): bounds and diversification. *)
Definition bounded_weights (weights : dict Q) (symbols : list string)
  : result (dict Q) :=
  cw <- cap_max_weight symbols weights ;;
  cw <- floor_min_weight symbols cw ;;
  ensure_min_diversification symbols cw.

(** Steps (a)-(d): the weights before the final renormalisation. *)
Definition turnover_limited_weights (weights current_weights : dict Q)
    (symbols : list string) : result (dict Q) :=
  cw <- bounded_weights weights symbols ;;
  limit_turnover symbols cw current_weights.

Definition apply_allocation_constraints (weights current_weights : dict Q)
    (symbols : list string) : dict Q :=
  try_except
    (cw <- turnover_limited_weights weights current_weights symbols ;;
     Ok (renormalize cw))
    (fun _ => weights).

(** ** numpy arrays of floats *)

Inductive npfloat : Type :=
| Fin (q : Q)
| NaN.

Abbreviation ndarray := (list npfloat).
Abbreviation matrix := (list (list npfloat)).

Definition fadd (a b : npfloat) : npfloat :=
  match a, b with
  | Fin p, Fin q => Fin (p + q)
  | _, _ => NaN
  end.

Definition fscale (c : Q) (a : npfloat) : npfloat :=
  match a with
  | Fin q => Fin (c * q)
  | NaN => NaN
  end.

(** [np.maximum(a, 0)] propagates [nan]. *)
Definition fmaximum0 (a : npfloat) : npfloat :=
  match a with
  | Fin q => Fin (max0 q)
  | NaN => NaN
  end.

(** numpy division warns instead of raising.  Both divisions of the
    source divide non-negative entries by their own sum, so a zero
    divisor only meets zero entries: [0/0 = nan]. *)
Definition fdiv (a b : npfloat) : npfloat :=
  match a, b with
  | Fin p, Fin q => if Qeq_bool q 0 then NaN else Fin (p / q)
  | _, _ => NaN
  end.

Definition np_sum (a : ndarray) : npfloat := fold_left fadd a (Fin 0).
Definition np_scale (c : Q) (a : ndarray) : ndarray := map (fscale c) a.
Definition np_maximum0 (a : ndarray) : ndarray := map fmaximum0 a.
Definition np_div (a : ndarray) (b : npfloat) : ndarray := map (fun v => fdiv v b) a.

(** [a + b] on one-dimensional arrays: entry by entry on equal lengths;
    an array of length one is broadcast over the other one (an empty
    one included); every other pair of shapes raises. *)
Fixpoint add_entries (a b : ndarray) : ndarray :=
  match a, b with
  | v :: a', w :: b' => fadd v w :: add_entries a' b'
  | _, _ => []
  end.

Definition np_add (a b : ndarray) : result ndarray :=
  if Nat.eqb (List.length a) (List.length b) then Ok (add_entries a b)
  else
    match a, b with
    | [v], _ => Ok (map (fadd v) b)
    | _, [w] => Ok (map (fun v => fadd v w) a)
    | _, _ => Raise ValueError
    end.

(** [np.ones(n) / n] *)
Definition equal_weights (n : nat) : ndarray :=
  repeat (Fin (1 / inject_Z (Z.of_nat n))) n.

(** ** The scipy/numpy backend *)

(** The three objectives handed to [minimize]; they contain [np.sqrt]
    and are kept symbolic. *)
Inductive objective : Type :=
| MeanVarianceObjective (mu : ndarray) (sigma : matrix) (risk_target : Q)
| RiskBudgetObjective (sigma : matrix)
| VarianceObjective (sigma : matrix).

(** A call [minimize(fun, x0, method='SLSQP', bounds=bounds,
    constraints=[sum(w) - 1 == 0])]. *)
Record problem : Type := {
  objective_of : objective;
  x0 : ndarray;
  bounds : list (Q * Q)
}.

Module OptimizeResult.
Record t : Type := { success : bool; x : ndarray }.
End OptimizeResult.

(** [ml_predictions['predictions']]: horizon -> symbol -> expected return. *)
Definition ml_predictions_t : Type := dict (dict (option Q)).

Record Backend : Type := {
  (** [extract_expected_returns]: one entry per symbol on both of its paths. *)
  extract_expected_returns : ml_predictions_t -> list string -> dict npfloat;
  extract_expected_returns_keys :
    forall p symbols, Dict.keys (extract_expected_returns p symbols) = symbols;
  (** [estimate_covariance_matrix]: an N x N array on both of its paths. *)
  estimate_covariance_matrix : list string -> ml_predictions_t -> matrix;
  estimate_covariance_matrix_shape :
    forall symbols p,
      List.length (estimate_covariance_matrix symbols p) = List.length symbols;
  (** [scipy.optimize.minimize]: [result.x] has the shape of [x0]. *)
  minimize : problem -> result OptimizeResult.t;
  minimize_shape :
    forall p r, minimize p = Ok r ->
      List.length (OptimizeResult.x r) = List.length (x0 p);
  (** Lines 442-463 of [black_litterman_optimization]: the linear algebra
      up to [inv(risk_aversion * sigma) @ bl_mu]. *)
  black_litterman_weights : ndarray -> matrix -> ndarray -> result ndarray;
  black_litterman_weights_shape :
    forall mu sigma current_w w, black_litterman_weights mu sigma current_w = Ok w ->
      List.length w = List.length current_w
}.

(** ** Optimizer suite *)

Section Optimizers.
Variable B : Backend.

Definition weight_bounds (n : nat) : list (Q * Q) :=
  repeat (min_weight allocation_constraints, max_weight allocation_constraints) n.

Definition mean_variance_problem (mu : ndarray) (sigma : matrix) (risk_target : Q)
  : problem :=
  let n_assets := List.length mu in
  {| objective_of := MeanVarianceObjective mu sigma risk_target;
     x0 := equal_weights n_assets;
     bounds := weight_bounds n_assets |}.

Definition mean_variance_optimization (mu : ndarray) (sigma : matrix)
    (risk_target : Q) : ndarray :=
  try_except
    (let n_assets := List.length mu in
     res <- minimize B (mean_variance_problem mu sigma risk_target) ;;
     Ok (if OptimizeResult.success res
         then OptimizeResult.x res
         else equal_weights n_assets))
    (fun _ => equal_weights (List.length mu)).

Definition risk_parity_problem (sigma : matrix) : problem :=
  let n_assets := List.length sigma in
  {| objective_of := RiskBudgetObjective sigma;
     x0 := equal_weights n_assets;
     bounds := repeat (0.01, max_weight allocation_constraints) n_assets |}.

Definition risk_parity_optimization (sigma : matrix) : ndarray :=
  try_except
    (let n_assets := List.length sigma in
     res <- minimize B (risk_parity_problem sigma) ;;
     Ok (if OptimizeResult.success res
         then OptimizeResult.x res
         else equal_weights n_assets))
    (fun _ => equal_weights (List.length sigma)).

Definition black_litterman_optimization (mu : ndarray) (sigma : matrix)
    (current_weights : ndarray) : ndarray :=
  try_except
    (bl_weights <- black_litterman_weights B mu sigma current_weights ;;
     let bl_weights := np_maximum0 bl_weights in
     Ok (np_div bl_weights (np_sum bl_weights)))
    (fun _ => current_weights).

Definition minimum_variance_problem (sigma : matrix) : problem :=
  let n_assets := List.length sigma in
  {| objective_of := VarianceObjective sigma;
     x0 := equal_weights n_assets;
     bounds := weight_bounds n_assets |}.

Definition minimum_variance_optimization (sigma : matrix) : ndarray :=
  try_except
    (let n_assets := List.length sigma in
     res <- minimize B (minimum_variance_problem sigma) ;;
     Ok (if OptimizeResult.success res
         then OptimizeResult.x res
         else equal_weights n_assets))
    (fun _ => equal_weights (List.length sigma)).

Definition method_weights : dict Q :=
  [("mean_variance", 0.3); ("risk_parity", 0.3);
   ("black_litterman", 0.2); ("minimum_variance", 0.2)].

Definition ensemble_optimization_methods
    (mv_weights rp_weights bl_weights min_var_weights : ndarray)
    (symbols : list string) : ndarray :=
  try_except
    (e1 <- np_add (np_scale (Dict.get method_weights "mean_variance" 0) mv_weights)
                  (np_scale (Dict.get method_weights "risk_parity" 0) rp_weights) ;;
     e2 <- np_add e1
                  (np_scale (Dict.get method_weights "black_litterman" 0) bl_weights) ;;
     ensemble <- np_add e2
                  (np_scale (Dict.get method_weights "minimum_variance" 0)
                     min_var_weights) ;;
     let ensemble := np_maximum0 ensemble in
     Ok (np_div ensemble (np_sum ensemble)))
    (fun _ => equal_weights (List.length symbols)).

(** [[d[s] for s in symbols]] *)
Fixpoint lookup_all {V : Type} (d : dict V) (symbols : list string)
  : result (list V) :=
  match symbols with
  | [] => Ok []
  | s :: rest =>
      v <- Dict.getitem d s ;;
      tl <- lookup_all d rest ;;
      Ok (v :: tl)
  end.

Record optimization_results : Type := {
  ensemble_weights : dict npfloat;   (* key 'optimal_weights' *)
  method : string
}.

Definition optimize_portfolio_allocation (symbols : list string)
    (expected_returns : dict npfloat) (covariance_matrix : matrix)
    (current_weights : dict Q) (risk_target : Q) : optimization_results :=
  try_except
    (mu <- lookup_all expected_returns symbols ;;
     let sigma := covariance_matrix in
     let current_w := map (fun s => Fin (Dict.get current_weights s 0)) symbols in
     let mv_weights := mean_variance_optimization mu sigma risk_target in
     let rp_weights := risk_parity_optimization sigma in
     let bl_weights := black_litterman_optimization mu sigma current_w in
     let min_var_weights := minimum_variance_optimization sigma in
     let ensemble :=
       ensemble_optimization_methods
         mv_weights rp_weights bl_weights min_var_weights symbols in
     Ok {| ensemble_weights := Dict.of_zip symbols ensemble;
           method := "ensemble" |})
    (fun _ =>
       {| ensemble_weights :=
            Dict.of_zip symbols (equal_weights (List.length symbols));
          method := "equal_weight_fallback" |}).
End Optimizers.

(** ** Regime tilts ([apply_regime_tilts]) *)

(** [str.upper()] on ASCII tickers. *)
Definition upper_ascii (c : ascii) : ascii :=
  let n := nat_of_ascii c in
  if Nat.leb 97 n && Nat.leb n 122 then ascii_of_nat (n - 32) else c.

Fixpoint upper (s : string) : string :=
  match s with
  | EmptyString => EmptyString
  | String c s' => String (upper_ascii c) (upper s')
  end.

(** [needle in hay] *)
Fixpoint substring_of (needle hay : string) : bool :=
  String.prefix needle hay ||
  match hay with
  | EmptyString => false
  | String _ hay' => substring_of needle hay'
  end.

(** [any(p in s for p in patterns)] *)
Definition any_in (patterns : list string) (s : string) : bool :=
  existsb (fun p => substring_of p s) patterns.

Definition regime_tilts : dict (dict Q) :=
  [("Bull", [("growth_bias", 0.1); ("reduce_bonds", -0.05);
             ("increase_momentum", 0.05)]);
   ("Bear", [("defensive_bias", 0.15); ("reduce_growth", -0.1);
             ("increase_bonds", 0.1); ("add_gold", 0.05)]);
   ("Volatile", [("reduce_concentration", 0.1); ("add_volatility_hedge", 0.05);
                 ("reduce_leverage", -0.05)]);
   ("Stable", [("balanced_approach", 0.0)])].

Definition growth_tickers : list string := ["QQQ"; "TQQQ"; "ARKK"].
Definition defensive_tickers : list string := ["TLT"; "GLD"; "VTI"].
Definition bond_tickers : list string := ["TLT"; "BND"; "AGG"].

(** Lines 574-588: the adjustment accumulated for one symbol. *)
Definition tilt_adjustment (tilts : dict Q) (symbol_upper : string)
    (regime_confidence : Q) : Q :=
  let adjustment := 0 in
  let adjustment :=
    if Dict.contains tilts "growth_bias" && any_in growth_tickers symbol_upper
    then adjustment + Dict.get tilts "growth_bias" 0 * regime_confidence
    else adjustment in
  let adjustment :=
    if Dict.contains tilts "defensive_bias" && any_in defensive_tickers symbol_upper
    then adjustment + Dict.get tilts "defensive_bias" 0 * regime_confidence
    else adjustment in
  let adjustment :=
    if Dict.contains tilts "reduce_bonds" && any_in bond_tickers symbol_upper
    then adjustment + Dict.get tilts "reduce_bonds" 0 * regime_confidence
    else if Dict.contains tilts "increase_bonds" && any_in bond_tickers symbol_upper
    then adjustment + Dict.get tilts "increase_bonds" 0 * regime_confidence
    else adjustment in
  adjustment.

(** The adjustment of a symbol under a regime. *)
Definition regime_adjustment (market_regime symbol : string) (regime_confidence : Q) : Q :=
  tilt_adjustment (Dict.get regime_tilts market_regime []) (upper symbol)
    regime_confidence.

(** Python's [max(0, w)]: [nan > 0] is false, so [nan] becomes [0]. *)
Definition py_max0 (w : npfloat) : Q :=
  match w with
  | Fin q => max0 q
  | NaN => 0
  end.

(** Line 591, for every item: the weights before renormalisation. *)
Definition tilted_before_renormalize (optimal_weights : dict npfloat)
    (market_regime : string) (regime_confidence : Q) : dict Q :=
  let tilts := Dict.get regime_tilts market_regime [] in
  Dict.map_items
    (fun symbol weight =>
       py_max0 (fadd weight
                  (Fin (tilt_adjustment tilts (upper symbol) regime_confidence))))
    optimal_weights.

Definition apply_regime_tilts (optimal_weights : dict npfloat)
    (market_regime : string) (regime_confidence : Q) : dict Q :=
  renormalize (tilted_before_renormalize optimal_weights market_regime regime_confidence).

(** ** Orchestrator ([calculate_dynamic_allocation]) *)

(** Lines 286-303; its handler is not reached on numbers. *)
Definition py_min (a b : Q) : Q := if Qltb b a then b else a.
Definition py_max (a b : Q) : Q := if Qgtb b a then b else a.

Definition calculate_adjusted_risk_target (market_regime : string)
    (regime_confidence : Q) : Q :=
  let base_risk := target_volatility in
  let regime_adjustment := Dict.get regime_risk_adjustments market_regime 1.0 in
  let confidence_adjustment := 1.0 + (regime_confidence - 0.5) * 0.4 in
  let adjusted_risk := base_risk * regime_adjustment * confidence_adjustment in
  let min_risk := base_risk * 0.5 in
  let max_risk := base_risk * 1.5 in
  py_max min_risk (py_min max_risk adjusted_risk).

(** Values a caller can pass where a weight map is expected. *)
Inductive pyvalue : Type :=
| PyNone
| PyNumber (q : Q)
| PyString (s : string)
| PyList (len : nat)
| PyDict (d : dict Q).

(** [not v] is false exactly on these. *)
Definition truthy (v : pyvalue) : bool :=
  match v with
  | PyNone => false
  | PyNumber q => negb (Qeq_bool q 0)
  | PyString s => negb (String.eqb s "")
  | PyList len => negb (Nat.eqb len 0)
  | PyDict d => match d with [] => false | _ :: _ => true end
  end.

(** [list(v.keys())] *)
Definition keys_of (v : pyvalue) : result (list string) :=
  match v with
  | PyDict d => Ok (Dict.keys d)
  | _ => Raise AttributeError
  end.

Definition as_dict (v : pyvalue) : dict Q :=
  match v with
  | PyDict d => d
  | _ => []
  end.

(** The request dictionary; [None] is an absent key. *)
Record request : Type := {
  current_weights : option pyvalue;
  market_regime : option string;
  regime_confidence : option Q;
  ml_predictions : option ml_predictions_t;
  risk_adjustment : option Q
}.

(** What [json.loads] can hand to [calculate_dynamic_allocation]. *)
Inductive input_data : Type :=
| JsonNull
| JsonNumber (q : Q)
| JsonString (s : string)
| JsonArray (len : nat)
| JsonObject (r : request).

(** The keys of the response that are rational data.  The metric keys
    ([expected_return], [expected_risk], [sharpe_ratio], [risk_metrics],
    ...) are floats computed with [np.sqrt] and [norm.ppf] by functions
    that catch their own exceptions; they are left out. *)
Record response : Type := {
  success : option bool;
  optimal_weights : option pyvalue;
  error : option string;
  optimization_method : option string;
  fallback_mode : option bool
}.

Definition generate_fallback_allocation (current_weights : pyvalue)
    (market_regime : string) : response :=
  {| success := Some false;
     optimal_weights := Some current_weights;
     error := Some "Dynamic allocation optimization failed - using current weights";
     optimization_method := None;
     fallback_mode := Some true |}.

(** Local variables of [calculate_dynamic_allocation] that its handler reads. *)
Inductive locals : Type :=
| Unbound
| Bound (current_weights : pyvalue) (market_regime : string).

Definition or_default {A : Type} (o : option A) (default : A) : A :=
  match o with
  | Some a => a
  | None => default
  end.

Section Orchestrator.
Variable B : Backend.

(** Lines 70-95: the weights of the successful path. *)
Definition regime_adjusted_weights (cw : dict Q) (market_regime : string)
    (regime_confidence : Q) (ml_predictions : ml_predictions_t) : dict Q :=
  let symbols := Dict.keys cw in
  let expected_returns := extract_expected_returns B ml_predictions symbols in
  let covariance_matrix := estimate_covariance_matrix B symbols ml_predictions in
  let adjusted_risk_target :=
    calculate_adjusted_risk_target market_regime regime_confidence in
  let optimization_results :=
    optimize_portfolio_allocation B symbols expected_returns covariance_matrix
      cw adjusted_risk_target in
  apply_regime_tilts (ensemble_weights optimization_results)
    market_regime regime_confidence.

Definition final_weights (cw : dict Q) (market_regime : string)
    (regime_confidence : Q) (ml_predictions : ml_predictions_t) : dict Q :=
  apply_allocation_constraints
    (regime_adjusted_weights cw market_regime regime_confidence ml_predictions)
    cw (Dict.keys cw).

(** The [try] block, with the local variables bound when it ends. *)
Definition allocation_body (input : input_data) : locals * result response :=
  match input with
  | JsonObject r =>
      let current_weights := or_default (current_weights r) (PyDict []) in
      let market_regime := or_default (market_regime r) "Stable" in
      let regime_confidence := or_default (regime_confidence r) 0.7 in
      let ml_predictions := or_default (ml_predictions r) [] in
      (Bound current_weights market_regime,
       if negb (truthy current_weights)
       then Ok {| success := None;
                  optimal_weights := None;
                  error := Some "No current weights provided";
                  optimization_method := None;
                  fallback_mode := None |}
       else
         symbols <- keys_of current_weights ;;
         let cw := as_dict current_weights in
         let optimization_results :=
           optimize_portfolio_allocation B symbols
             (extract_expected_returns B ml_predictions symbols)
             (estimate_covariance_matrix B symbols ml_predictions)
             cw (calculate_adjusted_risk_target market_regime regime_confidence) in
         Ok {| success := Some true;
               optimal_weights :=
                 Some (PyDict (final_weights cw market_regime regime_confidence
                                 ml_predictions));
               error := None;
               optimization_method := Some (method optimization_results);
               fallback_mode := None |})
  | _ =>
      (* [input_data.get] raises before any local is assigned *)
      (Unbound, Raise AttributeError)
  end.

(** The handler returns [generate_fallback_allocation(current_weights,
    market_regime)]; reading an unassigned local raises. *)
Definition calculate_dynamic_allocation (input : input_data) : result response :=
  match allocation_body input with
  | (_, Ok r) => Ok r
  | (Bound current_weights market_regime, Raise _) =>
      Ok (generate_fallback_allocation current_weights market_regime)
  | (Unbound, Raise _) => Raise UnboundLocalError
  end.
End Orchestrator.

(** ** Vocabulary of the statements *)

(** The value a loop body leaves in the entry of [k]. *)
Definition apply_body (body : string -> Q -> option Q) (k : string) (v : Q) : Q :=
  match body k v with
  | Some v' => v'
  | None => v
  end.

(** The dictionary after the body ran once on every symbol of [l]. *)
Definition update_in (body : string -> Q -> option Q) (l : list string)
    (d : dict Q) : dict Q :=
  Dict.map_items
    (fun k v => if existsb (String.eqb k) l then apply_body body k v else v) d.

(** One term of the sum of lines 633-634. *)
Definition turnover_term (current_weights : dict Q) (kv : string * Q) : Q :=
  Qabs (snd kv - Dict.get current_weights (fst kv) 0).

(** The body of the loop of lines 640-644. *)
Definition scaled_change (current_weights : dict Q) (turnover_scale : Q)
    (s : string) (new_w : Q) : option Q :=
  let current_w := Dict.get current_weights s 0 in
  let change := (new_w - current_w) * turnover_scale in
  Some (current_w + change).

Definition all_values (P : Q -> Prop) (d : dict Q) : Prop :=
  Forall P (Dict.values d).

Definition within_bounds (v : Q) : Prop :=
  min_weight allocation_constraints <= v <= max_weight allocation_constraints.

(** A weight map without negative weights. *)
Definition nonnegative (cw : dict Q) : bool :=
  forallb (fun v => Qle_bool 0 v) (Dict.values cw).

(** [minimize] raised, or returned with [result.success] false. *)
Definition solve_failed (o : result OptimizeResult.t) : bool :=
  match o with
  | Ok res => negb (OptimizeResult.success res)
  | Raise _ => true
  end.

Definition within (b : Q * Q) (v : npfloat) : bool :=
  match v with
  | Fin q => Qle_bool (fst b) q && Qle_bool q (snd b)
  | NaN => false
  end.

Fixpoint all_within (bs : list (Q * Q)) (v : ndarray) : bool :=
  match bs, v with
  | [], [] => true
  | b :: bs', q :: v' => within b q && all_within bs' v'
  | _, _ => false
  end.

(** A finite float that is at least [lo]. *)
Definition finite_at_least (lo : Q) (v : npfloat) : Prop :=
  exists q, v = Fin q /\ lo <= q.

(** SLSQP keeps its iterates inside [bounds]: a converged [result.x]
    satisfies them. *)
Definition respects_bounds (B : Backend) : Prop :=
  forall p res,
    minimize B p = Ok res -> OptimizeResult.success res = true ->
    all_within (bounds p) (OptimizeResult.x res) = true.

(** Equal keys in equal order, equal values as rationals. *)
Definition entry_equiv (a b : string * Q) : Prop :=
  fst a = fst b /\ snd a == snd b.

Definition dict_equiv (d d' : dict Q) : Prop := Forall2 entry_equiv d d'.

Fixpoint dict_equivb (d d' : dict Q) : bool :=
  match d, d' with
  | [], [] => true
  | (k, v) :: d1, (k', v') :: d1' =>
      String.eqb k k' && Qeq_bool v v' && dict_equivb d1 d1'
  | _, _ => false
  end.

Definition result_equiv {A : Type} (R : A -> A -> Prop) (r r' : result A) : Prop :=
  match r, r' with
  | Ok a, Ok a' => R a a'
  | Raise _, Raise _ => True
  | _, _ => False
  end.

Definition body_equiv (body body' : string -> Q -> option Q) : Prop :=
  forall s v v', v == v' ->
    match body s v, body' s v' with
    | Some a, Some a' => a == a'
    | None, None => True
    | _, _ => False
    end.

(** ** Two concrete backends *)

(** Default estimates of the source: 8% expected return for a ticker
    of no listed class, and the fallback covariance [np.eye(n) * 0.18**2]. *)
Definition default_expected_returns (_ : ml_predictions_t) (symbols : list string)
  : dict npfloat :=
  map (fun s => (s, Fin 0.08)) symbols.

Definition diagonal_row (n i : nat) : list npfloat :=
  map (fun j => if Nat.eqb i j then Fin (0.18 * 0.18) else Fin 0) (seq 0 n).

Definition diagonal_covariance (symbols : list string) (_ : ml_predictions_t) : matrix :=
  map (diagonal_row (List.length symbols)) (seq 0 (List.length symbols)).

(** A solver that never converges and a singular matrix inversion. *)
Definition stalled_minimize (p : problem) : result OptimizeResult.t :=
  Ok {| OptimizeResult.success := false; OptimizeResult.x := x0 p |}.

Definition singular_black_litterman (_ : ndarray) (_ : matrix) (_ : ndarray)
  : result ndarray :=
  Raise LinAlgError.

Definition stalled_backend : Backend := {|
  extract_expected_returns := default_expected_returns;
  extract_expected_returns_keys :=
    ltac:(intros p symbols; unfold default_expected_returns, Dict.keys;
          rewrite map_map; apply map_id);
  estimate_covariance_matrix := diagonal_covariance;
  estimate_covariance_matrix_shape :=
    ltac:(intros symbols p; unfold diagonal_covariance;
          now rewrite length_map, length_seq);
  minimize := stalled_minimize;
  minimize_shape :=
    ltac:(intros p r H; injection H as <-; reflexivity);
  black_litterman_weights := singular_black_litterman;
  black_litterman_weights_shape :=
    ltac:(intros mu sigma current_w w H; discriminate H)
|}.

(** A solver that accepts its starting point when that point is within
    the bounds (the equal-weight start is the optimum of the
    minimum-variance and risk-parity problems, and a stationary point of
    the mean-variance problem, when the assets are exchangeable), and
    lines 448-463 on two kinds of covariance: on a matrix of zeros
    [np.linalg.inv(tau * sigma)] raises [LinAlgError] (singular matrix);
    on the diagonal covariance [0.18**2 * I] the lines compute
    [w = current_w / 2 + mu / (2 * 3.0 * 0.18**2)]. *)
Definition stationary_minimize (p : problem) : result OptimizeResult.t :=
  Ok {| OptimizeResult.success := all_within (bounds p) (x0 p);
        OptimizeResult.x := x0 p |}.

Fixpoint diagonal_black_litterman_weights (mu current_w : ndarray) : ndarray :=
  match current_w with
  | [] => []
  | c :: current_w' =>
      fadd (fscale 0.5 c) (fscale (1 / (2 * 3.0 * (0.18 * 0.18))) (hd NaN mu))
      :: diagonal_black_litterman_weights (tl mu) current_w'
  end.

Definition is_zero (v : npfloat) : bool :=
  match v with
  | Fin q => Qeq_bool q 0
  | NaN => false
  end.

(** An N x N array of zeros, N >= 1. *)
Definition zero_matrix (sigma : matrix) : bool :=
  match sigma with
  | [] => false
  | _ :: _ => forallb (forallb is_zero) sigma
  end.

Definition diagonal_black_litterman (mu : ndarray) (sigma : matrix)
    (current_w : ndarray) : result ndarray :=
  if zero_matrix sigma then Raise LinAlgError
  else Ok (diagonal_black_litterman_weights mu current_w).

Definition stationary_backend : Backend := {|
  extract_expected_returns := default_expected_returns;
  extract_expected_returns_keys :=
    ltac:(intros p symbols; unfold default_expected_returns, Dict.keys;
          rewrite map_map; apply map_id);
  estimate_covariance_matrix := diagonal_covariance;
  estimate_covariance_matrix_shape :=
    ltac:(intros symbols p; unfold diagonal_covariance;
          now rewrite length_map, length_seq);
  minimize := stationary_minimize;
  minimize_shape :=
    ltac:(intros p r H; injection H as <-; reflexivity);
  black_litterman_weights := diagonal_black_litterman;
  black_litterman_weights_shape :=
    ltac:(intros mu sigma current_w w H; unfold diagonal_black_litterman in H;
          destruct (zero_matrix sigma); [discriminate H|];
          injection H as <-;
          revert mu; induction current_w as [|c l IH]; intros mu; simpl;
          [reflexivity|now rewrite IH])
|}.

(** Portfolios used as concrete inputs below. *)
Definition request_for (cw : dict Q) (regime : string) (confidence : Q) : request :=
  {| current_weights := Some (PyDict cw);
     market_regime := Some regime;
     regime_confidence := Some confidence;
     ml_predictions := None;
     risk_adjustment := None |}.

Definition stocks_and_bonds : dict Q := [("SPY", 0.6); ("TLT", 0.4)].

Definition three_funds : dict Q := [("SPY", 0.15); ("TLT", 0.4); ("QQQ", 0.45)].

Definition equity_heavy : dict Q := [("SPY", 0.8); ("TLT", 0.1); ("GLD", 0.1)].

Definition concentrated : dict Q :=
  [("NVDA", 1); ("AMZN", 0); ("META", 0); ("TSLA", 0); ("JPM", 0); ("JNJ", 0);
   ("WMT", 0); ("XOM", 0); ("KO", 0); ("DIS", 0); ("PG", 0); ("HD", 0)].

(** What the optimizer stage and the tilts of a Stable regime hand to the
    projector for [concentrated] when no solver converges: the blend
    [0.8 / 12 + 0.2 * current], in lowest terms. *)
Definition concentrated_tilted : dict Q :=
  [("NVDA", 4 # 15); ("AMZN", 1 # 15); ("META", 1 # 15); ("TSLA", 1 # 15);
   ("JPM", 1 # 15); ("JNJ", 1 # 15); ("WMT", 1 # 15); ("XOM", 1 # 15);
   ("KO", 1 # 15); ("DIS", 1 # 15); ("PG", 1 # 15); ("HD", 1 # 15)].

(** ** Estimator ([get_default_expected_return], [extract_expected_returns],
       [estimate_asset_correlation], [estimate_covariance_matrix]) *)

(** Lines 177-191. *)
Definition get_default_expected_return (symbol : string) : Q :=
  if any_in ["TLT"; "BND"; "AGG"; "IEF"] (upper symbol) then 0.03
  else if any_in ["QQQ"; "TQQQ"; "SOXL"; "ARKK"] (upper symbol) then 0.12
  else if any_in ["VTV"; "IVE"; "VXUS"] (upper symbol) then 0.09
  else if any_in ["GLD"; "SLV"; "USO"; "DBC"] (upper symbol) then 0.05
  else 0.08.

Definition equity_symbols : list string :=
  ["SPY"; "QQQ"; "IWM"; "VTI"; "AAPL"; "MSFT"; "GOOGL"].
Definition bond_symbols : list string := ["TLT"; "BND"; "AGG"; "IEF"; "SHY"].
Definition commodity_symbols : list string := ["GLD"; "SLV"; "USO"; "DBC"].
Definition international_symbols : list string := ["EFA"; "EEM"; "VEA"; "VWO"].

(** Lines 244-284. *)
Definition estimate_asset_correlation (symbol1 symbol2 : string) : Q :=
  let s1_equity := any_in equity_symbols (upper symbol1) in
  let s2_equity := any_in equity_symbols (upper symbol2) in
  let s1_bond := any_in bond_symbols (upper symbol1) in
  let s2_bond := any_in bond_symbols (upper symbol2) in
  let s1_commodity := any_in commodity_symbols (upper symbol1) in
  let s2_commodity := any_in commodity_symbols (upper symbol2) in
  let s1_intl := any_in international_symbols (upper symbol1) in
  let s2_intl := any_in international_symbols (upper symbol2) in
  if s1_equity && s2_equity then
    if s1_intl || s2_intl then 0.7 else 0.85
  else if s1_bond && s2_bond then 0.8
  else if s1_commodity && s2_commodity then 0.6
  else if (s1_equity && s2_bond) || (s1_bond && s2_equity) then -0.2
  else if (s1_equity && s2_commodity) || (s1_commodity && s2_equity) then 0.3
  else if (s1_bond && s2_commodity) || (s1_commodity && s2_bond) then 0.1
  else 0.5.

(** Lines 204-213: the volatility given to one symbol. *)
Definition default_volatility (symbol : string) : Q :=
  if any_in ["TLT"; "BND"; "AGG"] (upper symbol) then 0.05
  else if any_in ["QQQ"; "TQQQ"; "ARKK"] (upper symbol) then 0.25
  else if any_in ["GLD"; "USO"] (upper symbol) then 0.20
  else 0.18.

(** Lines 216-225: [np.eye(n)] with the entries [(i, j)] and [(j, i)],
    [i < j], both set to the correlation of [(symbols[i], symbols[j])]. *)
Definition correlation_entry (symbols : list string) (i j : nat) : Q :=
  if Nat.eqb i j then 1
  else if Nat.ltb i j
       then estimate_asset_correlation (nth i symbols EmptyString) (nth j symbols EmptyString)
       else estimate_asset_correlation (nth j symbols EmptyString) (nth i symbols EmptyString).

(** Lines 228-229: [np.outer(vol, vol) * correlation_matrix], the
    covariance before the eigenvalues are floored. *)
Definition covariance_entry (symbols : list string) (i j : nat) : Q :=
  default_volatility (nth i symbols EmptyString) * default_volatility (nth j symbols EmptyString)
  * correlation_entry symbols i j.

Definition covariance_before_flooring (symbols : list string) : list (list Q) :=
  let n_assets := List.length symbols in
  map (fun i => map (covariance_entry symbols i) (seq 0 n_assets)) (seq 0 n_assets).

(** [horizon.replace('d', '')] *)
Fixpoint remove_d (horizon : string) : string :=
  match horizon with
  | EmptyString => EmptyString
  | String c rest =>
      if Ascii.eqb c "d"%char then remove_d rest else String c (remove_d rest)
  end.

Module Estimator.
Section Estimator.
(** Python's [int] on a string; [None] when it raises [ValueError]. *)
Variable py_int : string -> option Z.

(** Lines 153-160 for one horizon; [None] is an exception ([int] raising,
    or the division by a horizon of zero days). *)
Definition annual_return (horizon : string) (pred_data : option Q) : option Q :=
  let expected_return := or_default pred_data 0.08 in
  if substring_of "d" horizon then
    match py_int (remove_d horizon) with
    | Some days =>
        if Z.eqb days 0 then None
        else Some (expected_return * (252 / inject_Z days))
    | None => None
    end
  else Some expected_return.

(** Lines 147-162: the annualised returns of one symbol over the horizons. *)
Fixpoint symbol_returns (predictions : ml_predictions_t) (symbol : string)
  : option (list Q) :=
  match predictions with
  | [] => Some []
  | (horizon, horizon_predictions) :: rest =>
      if Dict.contains horizon_predictions symbol then
        match annual_return horizon (Dict.get horizon_predictions symbol None) with
        | Some r =>
            match symbol_returns rest symbol with
            | Some tl => Some (r :: tl)
            | None => None
            end
        | None => None
        end
      else symbol_returns rest symbol
  end.

(** [np.mean] of a non-empty list. *)
Definition mean (l : list Q) : Q := sum l / inject_Z (Z.of_nat (List.length l)).

(** Lines 146-169: the loop over [symbols]. *)
Fixpoint fill_expected_returns (predictions : ml_predictions_t)
    (symbols : list string) (expected_returns : dict Q) : option (dict Q) :=
  match symbols with
  | [] => Some expected_returns
  | symbol :: rest =>
      match symbol_returns predictions symbol with
      | Some [] =>
          fill_expected_returns predictions rest
            (Dict.setitem expected_returns symbol
               (get_default_expected_return symbol))
      | Some returns =>
          fill_expected_returns predictions rest
            (Dict.setitem expected_returns symbol (mean returns))
      | None => None
      end
  end.

(** Lines 136-175. *)
Definition extract_expected_returns (predictions : ml_predictions_t)
    (symbols : list string) : dict Q :=
  match fill_expected_returns predictions symbols [] with
  | Some expected_returns => expected_returns
  | None => Dict.of_zip symbols (map (fun _ => 0.08) symbols)
  end.
End Estimator.
End Estimator.

(** [int] restricted to non-empty strings of ASCII digits (the horizons
    the service is sent: "5d", "21d", ...); every other string is taken
    to raise. *)
Definition digit_value (c : ascii) : option Z :=
  let n := nat_of_ascii c in
  if Nat.leb 48 n && Nat.leb n 57 then Some (Z.of_nat (n - 48)) else None.

Fixpoint digits_value (s : string) (acc : Z) : option Z :=
  match s with
  | EmptyString => Some acc
  | String c rest =>
      match digit_value c with
      | Some v => digits_value rest (10 * acc + v)
      | None => None
      end
  end.

Definition int_of_digits (s : string) : option Z :=
  match s with
  | EmptyString => None
  | _ => digits_value s 0
  end.

(** ** Reporting ([calculate_allocation_changes], [check_rebalancing_needed],
       concentration of [calculate_risk_metrics]) *)

Inductive action : Type := BUY | SELL | HOLD.

Record allocation_change : Type := {
  current_weight : Q;
  new_weight : Q;
  absolute_change : Q;
  relative_change : Q;
  action_of : action
}.

(** Lines 702-712 for one symbol. *)
Definition change_of (current new : Q) : allocation_change :=
  let change := new - current in
  {| current_weight := current;
     new_weight := new;
     absolute_change := change;
     relative_change := if Qgtb current 0 then change / current else 0;
     action_of := if Qgtb change 0.01 then BUY
                  else if Qltb change (-0.01) then SELL else HOLD |}.

(** [set(list(a.keys()) + list(b.keys()))], listed by first occurrence. *)
Fixpoint dedup (l : list string) : list string :=
  match l with
  | [] => []
  | k :: rest => if existsb (String.eqb k) rest then dedup rest else k :: dedup rest
  end.

Definition all_symbols (current_weights new_weights : dict Q) : list string :=
  dedup (Dict.keys current_weights ++ Dict.keys new_weights)%list.

(** Lines 694-714. *)
Definition calculate_allocation_changes (current_weights new_weights : dict Q)
  : dict allocation_change :=
  map (fun symbol =>
         (symbol, change_of (Dict.get current_weights symbol 0)
                            (Dict.get new_weights symbol 0)))
      (all_symbols current_weights new_weights).

Record rebalancing : Type := {
  rebalancing_needed : bool;
  total_drift : Q;
  drift_threshold : Q;
  drift_percentage : Q
}.

(** Lines 762-777; the handler is not reached on numbers. *)
Definition check_rebalancing_needed (current_weights new_weights : dict Q)
  : rebalancing :=
  let total_drift :=
    sum (map (fun symbol =>
                Qabs (Dict.get new_weights symbol 0
                      - Dict.get current_weights symbol 0))
             (all_symbols current_weights new_weights)) in
  let threshold := rebalancing_threshold in
  {| rebalancing_needed := Qgtb total_drift threshold;
     total_drift := total_drift;
     drift_threshold := threshold;
     drift_percentage := total_drift * 100 |}.

(** Lines 740-741 of [calculate_risk_metrics]: [np.sum(w ** 2)] and its
    inverse. *)
Definition herfindahl_index (weights : dict Q) : Q :=
  sum (map (fun w => w * w) (Dict.values weights)).

Definition effective_assets (weights : dict Q) : Q :=
  if Qgtb (herfindahl_index weights) 0
  then 1 / herfindahl_index weights
  else inject_Z (Z.of_nat (List.length (Dict.keys weights))).

(** ** Vocabulary of the further properties *)

(** A finite float that is not negative. *)
Definition finite_nonneg (v : npfloat) : Prop := exists q, v = Fin q /\ 0 <= q.

(** The finite entries of an array, [NaN] counted as [0]. *)
Definition float_value (v : npfloat) : Q :=
  match v with
  | Fin q => q
  | NaN => 0
  end.


(** What [np.maximum(a, 0)] followed by [a / np.sum(a)] can return:
    every entry [nan], or finite weights that are not negative and sum
    to 1. *)
Definition normalised_or_nan (a : ndarray) : Prop :=
  Forall (fun v => v = NaN) a \/
  (Forall finite_nonneg a /\ sum (map float_value a) == 1).

(** ** Expected return of [calculate_portfolio_metrics] *)

(** [np.dot(w, mu)] on arrays of one length. *)
Fixpoint dot (w mu : list Q) : Q :=
  match w, mu with
  | x :: w', m :: mu' => x * m + dot w' mu'
  | _, _ => 0
  end.

(** Lines 663-668: the arrays [w] and [mu] and their product; a symbol
    without expected return raises [KeyError]. *)
Definition portfolio_return (weights expected_returns : dict Q) : result Q :=
  let symbols := Dict.keys weights in
  w <- lookup_all weights symbols ;;
  mu <- lookup_all expected_returns symbols ;;
  Ok (dot w mu).
(** * Properties *)

(** ** Comparisons and sums *)

Lemma Qgtb_true x y : Qgtb x y = true <-> y < x.
Proof.
  unfold Qgtb. rewrite negb_true_iff.
  split; intros H.
  - apply Qnot_le_lt. intros Hle. apply Qle_bool_iff in Hle. congruence.
  - destruct (Qle_bool x y) eqn:E; [|reflexivity].
    apply Qle_bool_iff in E. exfalso. apply (Qlt_not_le _ _ H E).
Qed.

Lemma Qgtb_false x y : Qgtb x y = false <-> x <= y.
Proof.
  unfold Qgtb. rewrite negb_false_iff. apply Qle_bool_iff.
Qed.

Lemma Qltb_true x y : Qltb x y = true <-> x < y.
Proof. apply Qgtb_true. Qed.

Lemma Qltb_false x y : Qltb x y = false <-> y <= x.
Proof. apply Qgtb_false. Qed.

Lemma fold_left_Qplus_acc l a : fold_left Qplus l a == a + fold_left Qplus l 0.
Proof.
  revert a. induction l as [|x l IH]; intros a; simpl.
  - lra.
  - rewrite (IH (a + x)), (IH (0 + x)). lra.
Qed.

Lemma sum_nil : sum [] == 0.
Proof. reflexivity. Qed.

Lemma sum_cons x l : sum (x :: l) == x + sum l.
Proof.
  unfold sum; simpl. rewrite fold_left_Qplus_acc. lra.
Qed.

Lemma sum_nonneg l : Forall (fun x => 0 <= x) l -> 0 <= sum l.
Proof.
  induction 1 as [|x l Hx _ IH].
  - rewrite sum_nil. lra.
  - rewrite sum_cons. lra.
Qed.

Lemma sum_pos l :
  Forall (fun x => 0 <= x) l -> Exists (fun x => 0 < x) l -> 0 < sum l.
Proof.
  intros Hall Hex. induction Hall as [|x l Hx Hall IH].
  - inversion Hex.
  - rewrite sum_cons. pose proof (sum_nonneg l Hall) as Hs.
    inversion Hex as [? ? Hpos|? ? Hlater]; subst.
    + lra.
    + specialize (IH Hlater). lra.
Qed.

Lemma sum_map_div l c : sum (map (fun x => x / c) l) == sum l / c.
Proof.
  induction l as [|x l IH]; cbn [map].
  - rewrite sum_nil. unfold Qdiv. lra.
  - rewrite !sum_cons, IH. unfold Qdiv. lra.
Qed.

Lemma sum_map_scale_abs (l : list Q) (c : Q) :
  0 <= c -> sum (map (fun x => Qabs (x * c)) l) == sum (map Qabs l) * c.
Proof.
  intros Hc. induction l as [|x l IH]; cbn [map].
  - rewrite sum_nil. lra.
  - rewrite !sum_cons, IH, Qabs_Qmult, (Qabs_pos c Hc). lra.
Qed.

Lemma sum_ext (f g : string * Q -> Q) (d : dict Q) :
  (forall kv, In kv d -> f kv == g kv) -> sum (map f d) == sum (map g d).
Proof.
  induction d as [|kv d IH]; intros H; cbn [map].
  - reflexivity.
  - rewrite !sum_cons, (H kv (or_introl eq_refl)), IH; [reflexivity|].
    intros kv' Hin. apply H. now right.
Qed.

(** ** Dictionaries with distinct keys *)

Lemma existsb_eqb_In k l : existsb (String.eqb k) l = true <-> In k l.
Proof.
  rewrite existsb_exists. split.
  - intros [x [Hin Heq]]. apply String.eqb_eq in Heq. now subst.
  - intros Hin. exists k. split; [assumption|apply String.eqb_refl].
Qed.

Lemma existsb_eqb_not_In k l : existsb (String.eqb k) l = false <-> ~ In k l.
Proof.
  rewrite <- existsb_eqb_In. destruct (existsb (String.eqb k) l); intuition congruence.
Qed.

Lemma distinct_NoDup l : distinct l = true <-> NoDup l.
Proof.
  induction l as [|k l IH]; simpl.
  - split; [constructor|reflexivity].
  - rewrite andb_true_iff, negb_true_iff, existsb_eqb_not_In, IH.
    split.
    + intros [Hn Hd]. now constructor.
    + intros H. inversion H; subst. now split.
Qed.

Lemma keys_map_items {V W : Type} (f : string -> V -> W) (d : dict V) :
  Dict.keys (Dict.map_items f d) = Dict.keys d.
Proof.
  unfold Dict.keys, Dict.map_items. rewrite map_map. reflexivity.
Qed.

Lemma In_keys {V : Type} (d : dict V) k v : In (k, v) d -> In k (Dict.keys d).
Proof.
  intros H. unfold Dict.keys. change k with (fst (k, v)). now apply in_map.
Qed.

Lemma getitem_In {V : Type} (d : dict V) k v :
  NoDup (Dict.keys d) -> In (k, v) d -> Dict.getitem d k = Ok v.
Proof.
  induction d as [|[k' v'] d IH]; intros Hnd Hin; simpl in *.
  - contradiction.
  - inversion Hnd as [|? ? Hnotin Hnd']; subst.
    destruct Hin as [Heq|Hin].
    + injection Heq as -> ->. now rewrite String.eqb_refl.
    + destruct (String.eqb_spec k k') as [->|Hne].
      * exfalso. apply Hnotin. exact (In_keys d k' v Hin).
      * now apply IH.
Qed.

Lemma getitem_Ok_In {V : Type} (d : dict V) k v :
  Dict.getitem d k = Ok v -> In (k, v) d.
Proof.
  induction d as [|[k' v'] d IH]; simpl; intros H.
  - discriminate.
  - destruct (String.eqb_spec k k') as [->|Hne].
    + injection H as ->. now left.
    + right. now apply IH.
Qed.

Lemma getitem_keys {V : Type} (d : dict V) k :
  In k (Dict.keys d) -> exists v, Dict.getitem d k = Ok v.
Proof.
  induction d as [|[k' v'] d IH]; simpl; intros H.
  - contradiction.
  - destruct (String.eqb_spec k k') as [->|Hne].
    + now exists v'.
    + destruct H as [H|H]; [congruence|]. now apply IH.
Qed.

Lemma get_In (d : dict Q) k v default :
  NoDup (Dict.keys d) -> In (k, v) d -> Dict.get d k default = v.
Proof.
  intros Hnd Hin. unfold Dict.get. now rewrite (getitem_In d k v Hnd Hin).
Qed.

(** ** The loops of the projector as pointwise updates *)

Lemma keys_update_in body l d : Dict.keys (update_in body l d) = Dict.keys d.
Proof. apply keys_map_items. Qed.

Lemma update_in_outside body l d :
  (forall k, In k (Dict.keys d) -> ~ In k l) -> update_in body l d = d.
Proof.
  unfold update_in, Dict.map_items.
  induction d as [|[k v] d IH]; intros H; simpl.
  - reflexivity.
  - assert (Hk : existsb (String.eqb k) l = false).
    { apply existsb_eqb_not_In. apply H. now left. }
    rewrite Hk. f_equal. apply IH. intros k' Hin. apply H. now right.
Qed.

Lemma update_in_nil body d : update_in body [] d = d.
Proof. apply update_in_outside. intros k _ []. Qed.

Lemma update_in_all body l d :
  incl (Dict.keys d) l ->
  update_in body l d = Dict.map_items (apply_body body) d.
Proof.
  unfold update_in, Dict.map_items.
  induction d as [|[k v] d IH]; intros H; simpl.
  - reflexivity.
  - assert (Hk : existsb (String.eqb k) l = true).
    { apply existsb_eqb_In. apply H. now left. }
    rewrite Hk. f_equal. apply IH. intros k' Hin. apply H. now right.
Qed.

Lemma update_in_entry body l k v d :
  update_in body l ((k, v) :: d)
  = (k, if existsb (String.eqb k) l then apply_body body k v else v)
      :: update_in body l d.
Proof. reflexivity. Qed.

Lemma setitem_update body d s w :
  NoDup (Dict.keys d) -> Dict.getitem d s = Ok w ->
  match body s w with
  | Some v => Dict.setitem d s v
  | None => d
  end = update_in body [s] d.
Proof.
  induction d as [|[k v] d IH]; intros Hnd Hget.
  - discriminate.
  - inversion Hnd as [|? ? Hnotin Hnd']; subst.
    rewrite update_in_entry. simpl in Hget |- *.
    destruct (String.eqb_spec s k) as [->|Hne].
    + injection Hget as ->. rewrite String.eqb_refl; simpl.
      rewrite update_in_outside.
      * unfold apply_body. destruct (body k w); reflexivity.
      * intros k' Hin [Heq|[]]. subst. contradiction.
    + assert (Hks : String.eqb k s = false).
      { apply String.eqb_neq. congruence. }
      rewrite Hks; simpl.
      rewrite <- (IH Hnd' Hget).
      destruct (body s w); reflexivity.
Qed.

Lemma update_in_cons body s rest d :
  ~ In s rest ->
  update_in body rest (update_in body [s] d) = update_in body (s :: rest) d.
Proof.
  intros Hnotin. unfold update_in, Dict.map_items. rewrite map_map.
  apply map_ext. intros [k v]; simpl.
  destruct (String.eqb_spec k s) as [->|Hne]; simpl.
  - assert (Hk : existsb (String.eqb s) rest = false)
      by now apply existsb_eqb_not_In.
    now rewrite Hk.
  - reflexivity.
Qed.

Lemma for_symbols_update body l d :
  NoDup l -> NoDup (Dict.keys d) -> incl l (Dict.keys d) ->
  for_symbols body l d = Ok (update_in body l d).
Proof.
  revert d. induction l as [|s rest IH]; intros d Hl Hd Hincl; simpl.
  - now rewrite update_in_nil.
  - inversion Hl as [|? ? Hnotin Hrest]; subst.
    destruct (getitem_keys d s) as [w Hw].
    { apply Hincl. now left. }
    rewrite Hw; simpl.
    rewrite (setitem_update body d s w Hd Hw).
    rewrite IH.
    + now rewrite update_in_cons.
    + assumption.
    + now rewrite keys_update_in.
    + rewrite keys_update_in. intros k Hk. apply Hincl. now right.
Qed.

Lemma for_symbols_keys body d :
  NoDup (Dict.keys d) ->
  for_symbols body (Dict.keys d) d = Ok (Dict.map_items (apply_body body) d).
Proof.
  intros Hd. rewrite for_symbols_update.
  - now rewrite update_in_all by apply incl_refl.
  - assumption.
  - assumption.
  - apply incl_refl.
Qed.

(** Reading every key of a dictionary in order. *)
Lemma decorate_entries (d d0 : dict Q) :
  (forall kv, In kv d0 -> Dict.getitem d (fst kv) = Ok (snd kv)) ->
  decorate (Dict.keys d0) d = Ok d0.
Proof.
  induction d0 as [|[k v] d0 IH]; intros H; simpl.
  - reflexivity.
  - pose proof (H (k, v) (or_introl eq_refl)) as Hk. simpl in Hk.
    rewrite Hk; simpl.
    rewrite IH; [reflexivity|]. intros kv Hin. apply H. now right.
Qed.

Lemma decorate_keys (d : dict Q) :
  NoDup (Dict.keys d) -> decorate (Dict.keys d) d = Ok d.
Proof.
  intros Hd. apply decorate_entries. intros [k v] Hin. now apply getitem_In.
Qed.

Lemma turnover_terms_entries (d d0 current_weights : dict Q) :
  (forall kv, In kv d0 -> Dict.getitem d (fst kv) = Ok (snd kv)) ->
  turnover_terms (Dict.keys d0) d current_weights
  = Ok (map (turnover_term current_weights) d0).
Proof.
  induction d0 as [|[k v] d0 IH]; intros H; simpl.
  - reflexivity.
  - pose proof (H (k, v) (or_introl eq_refl)) as Hk. simpl in Hk.
    rewrite Hk; simpl.
    rewrite IH; [reflexivity|]. intros kv Hin. apply H. now right.
Qed.

Lemma total_turnover_keys (d current_weights : dict Q) :
  NoDup (Dict.keys d) ->
  total_turnover (Dict.keys d) d current_weights
  = Ok (sum (map (turnover_term current_weights) d)).
Proof.
  intros Hd. unfold total_turnover.
  rewrite (turnover_terms_entries d d current_weights); [reflexivity|].
  intros [k v] Hin. now apply getitem_In.
Qed.

(** ** The stable descending sort *)

Lemma insert_desc_perm x l : Permutation (insert_desc x l) (x :: l).
Proof.
  induction l as [|y l IH]; simpl.
  - apply Permutation_refl.
  - destruct (Qltb (snd x) (snd y)).
    + apply perm_trans with (y :: x :: l).
      * now apply perm_skip.
      * apply perm_swap.
    + apply Permutation_refl.
Qed.

Lemma sort_desc_perm l : Permutation (sort_desc l) l.
Proof.
  induction l as [|x l IH]; simpl.
  - apply Permutation_refl.
  - apply perm_trans with (x :: sort_desc l).
    + apply insert_desc_perm.
    + now apply perm_skip.
Qed.

Lemma firstn_incl {A : Type} n (l : list A) : incl (firstn n l) l.
Proof.
  revert l. induction n as [|n IH]; intros [|x l]; simpl; intros y Hy;
    try contradiction.
  destruct Hy as [->|Hy]; [now left|right; now apply IH].
Qed.

Lemma firstn_NoDup {A : Type} n (l : list A) : NoDup l -> NoDup (firstn n l).
Proof.
  revert l. induction n as [|n IH]; intros [|x l] H; simpl; try constructor.
  - inversion H; subst. intros Hin. apply firstn_incl in Hin. contradiction.
  - inversion H; subst. now apply IH.
Qed.

Lemma sorted_by_weight_desc_keys (d : dict Q) :
  NoDup (Dict.keys d) ->
  exists top,
    sorted_by_weight_desc (Dict.keys d) d = Ok top /\
    Permutation top (Dict.keys d).
Proof.
  intros Hd. unfold sorted_by_weight_desc. rewrite (decorate_keys d Hd); simpl.
  eexists. split; [reflexivity|].
  unfold Dict.keys. apply Permutation_map. apply sort_desc_perm.
Qed.

(** ** Stage by stage: what the projector establishes *)

Lemma values_map_items (f : string -> Q -> Q) (d : dict Q) :
  Dict.values (Dict.map_items f d) = map (fun kv => f (fst kv) (snd kv)) d.
Proof.
  unfold Dict.values, Dict.map_items. now rewrite map_map.
Qed.

Lemma all_values_map_items (P P' : Q -> Prop) f d :
  all_values P d -> (forall k v, P v -> P' (f k v)) ->
  all_values P' (Dict.map_items f d).
Proof.
  unfold all_values. rewrite values_map_items. unfold Dict.values.
  intros H Hf. induction d as [|[k v] d IH]; simpl in *.
  - constructor.
  - inversion H; subst. constructor; [now apply Hf|now apply IH].
Qed.

Lemma all_values_update_in (P : Q -> Prop) body l d :
  all_values P d -> (forall k v, P v -> P (apply_body body k v)) ->
  all_values P (update_in body l d).
Proof.
  intros H Hf. apply (all_values_map_items P P); [assumption|].
  intros k v Hv. destruct (existsb (String.eqb k) l); [now apply Hf|assumption].
Qed.

Lemma In_update_in body l d k v :
  In (k, v) d -> In k l -> In (k, apply_body body k v) (update_in body l d).
Proof.
  intros Hin Hl. unfold update_in, Dict.map_items.
  apply in_map_iff. exists (k, v). split; [|assumption]. simpl.
  apply existsb_eqb_In in Hl. now rewrite Hl.
Qed.

Lemma for_symbols_all body l d :
  NoDup (Dict.keys d) -> l = Dict.keys d ->
  for_symbols body l d = Ok (Dict.map_items (apply_body body) d).
Proof.
  intros Hd ->. now apply for_symbols_keys.
Qed.

(** Steps (a) and (b). *)
Lemma cap_floor_spec (w : dict Q) (symbols : list string) :
  NoDup symbols -> Dict.keys w = symbols ->
  exists f,
    (cw <- cap_max_weight symbols w ;; floor_min_weight symbols cw) = Ok f /\
    Dict.keys f = symbols /\ all_values within_bounds f.
Proof.
  intros Hnd Hk. unfold cap_max_weight, floor_min_weight.
  rewrite (for_symbols_all _ symbols w) by (now rewrite ?Hk); simpl.
  rewrite for_symbols_all.
  - eexists. split; [reflexivity|]. split.
    + now rewrite !keys_map_items.
    + apply (all_values_map_items (fun v => v <= 0.4)).
      * apply (all_values_map_items (fun _ => True)).
        { unfold all_values. apply Forall_forall. trivial. }
        intros k v _. unfold apply_body; simpl.
        destruct (Qgtb v 0.4) eqn:E; [lra|]. now apply Qgtb_false in E.
      * intros k v Hv. unfold apply_body, within_bounds; simpl.
        destruct (Qltb v 0.0) eqn:E.
        { lra. }
        apply Qltb_false in E. lra.
  - now rewrite keys_map_items, Hk.
  - now rewrite keys_map_items.
Qed.

Lemma non_zero_positions_entries (d : dict Q) :
  non_zero_positions d
  = List.length (Dict.keys (filter (fun kv => Qgtb (snd kv) 0.01) d)).
Proof.
  unfold non_zero_positions, Dict.values, Dict.keys.
  now rewrite filter_map_swap, !length_map.
Qed.

Lemma non_zero_positions_lower (l : list string) (d : dict Q) :
  NoDup l ->
  (forall k, In k l -> exists v, In (k, v) d /\ 0.01 < v) ->
  (List.length l <= non_zero_positions d)%nat.
Proof.
  intros Hnd H. rewrite non_zero_positions_entries.
  apply NoDup_incl_length; [assumption|].
  intros k Hk. destruct (H k Hk) as [v [Hin Hv]].
  apply (In_keys _ k v). apply filter_In. split; [assumption|].
  simpl. now apply Qgtb_true.
Qed.

Lemma non_zero_positions_Exists (d : dict Q) :
  (0 < non_zero_positions d)%nat -> Exists (fun v => 0.01 < v) (Dict.values d).
Proof.
  unfold non_zero_positions. intros H.
  destruct (filter (fun w => Qgtb w 0.01) (Dict.values d)) as [|v l] eqn:E.
  - simpl in H. lia.
  - assert (Hin : In v (filter (fun w => Qgtb w 0.01) (Dict.values d))).
    { rewrite E. now left. }
    apply filter_In in Hin. destruct Hin as [Hin Hv].
    apply Exists_exists. exists v. split; [assumption|now apply Qgtb_true].
Qed.

(** Step (c). *)
Lemma ensure_min_diversification_spec (f : dict Q) (symbols : list string) :
  NoDup symbols -> Dict.keys f = symbols -> all_values within_bounds f ->
  exists b,
    ensure_min_diversification symbols f = Ok b /\
    Dict.keys b = symbols /\ all_values within_bounds b /\
    (Nat.min (min_diversification allocation_constraints) (List.length symbols)
     <= non_zero_positions b)%nat.
Proof.
  intros Hnd Hk Hb. subst symbols. unfold ensure_min_diversification.
  destruct (Nat.ltb_spec (non_zero_positions f)
              (min_diversification allocation_constraints)) as [Hlt|Hge].
  - destruct (sorted_by_weight_desc_keys f Hnd) as [top [Htop Hperm]].
    rewrite Htop; cbn [bind].
    set (chosen := firstn (min_diversification allocation_constraints) top).
    assert (Hchosen_nd : NoDup chosen).
    { apply firstn_NoDup. apply (Permutation_NoDup (Permutation_sym Hperm) Hnd). }
    assert (Hchosen_in : incl chosen (Dict.keys f)).
    { intros k Hin. apply (Permutation_in _ Hperm). now apply firstn_incl in Hin. }
    rewrite for_symbols_update by assumption.
    eexists. split; [reflexivity|]. split; [apply keys_update_in|]. split.
    + apply all_values_update_in; [assumption|].
      intros k v Hv. unfold apply_body, within_bounds in *; simpl in *.
      destruct (Qltb v 0.05); lra.
    + assert (Hlen : List.length chosen
                     = Nat.min (min_diversification allocation_constraints)
                         (List.length (Dict.keys f))).
      { unfold chosen. rewrite length_firstn.
        now rewrite (Permutation_length Hperm). }
      rewrite <- Hlen. apply non_zero_positions_lower; [assumption|].
      intros k Hin.
      assert (Hkf : In k (Dict.keys f)) by now apply Hchosen_in.
      destruct (getitem_keys f k Hkf) as [v Hv].
      apply getitem_Ok_In in Hv.
      exists (apply_body (fun _ w => if Qltb w 0.05 then Some 0.05 else None) k v).
      split; [now apply In_update_in|].
      unfold apply_body. destruct (Qltb v 0.05) eqn:E; [lra|].
      apply Qltb_false in E. lra.
  - eexists. split; [reflexivity|]. split; [reflexivity|]. split; [assumption|].
    lia.
Qed.

Lemma bounded_weights_spec (w : dict Q) (symbols : list string) :
  NoDup symbols -> Dict.keys w = symbols ->
  exists b,
    bounded_weights w symbols = Ok b /\
    Dict.keys b = symbols /\ all_values within_bounds b /\
    (Nat.min (min_diversification allocation_constraints) (List.length symbols)
     <= non_zero_positions b)%nat.
Proof.
  intros Hnd Hk. unfold bounded_weights.
  destruct (cap_floor_spec w symbols Hnd Hk) as [f [Hf [Hkf Hbf]]].
  destruct (ensure_min_diversification_spec f symbols Hnd Hkf Hbf)
    as [b [Hb Hrest]].
  exists b. split; [|assumption].
  destruct (cap_max_weight symbols w) as [cw|e]; simpl in *; [|discriminate].
  now rewrite Hf.
Qed.

Lemma get_nonneg (current_weights : dict Q) :
  all_values (fun v => 0 <= v) current_weights ->
  forall k, 0 <= Dict.get current_weights k 0.
Proof.
  intros H k. unfold Dict.get.
  destruct (Dict.getitem current_weights k) as [v|e] eqn:E; simpl.
  - apply getitem_Ok_In in E.
    unfold all_values in H. rewrite Forall_forall in H. apply H.
    unfold Dict.values. change v with (snd (k, v)). now apply in_map.
  - lra.
Qed.

Lemma blend_nonneg c v s :
  0 <= c -> 0 <= v -> 0 <= s -> s <= 1 -> 0 <= c + (v - c) * s.
Proof.
  intros Hc Hv Hs Hs1.
  assert (E : c + (v - c) * s == c * (1 - s) + v * s) by ring.
  rewrite E.
  pose proof (Qmult_le_0_compat c (1 - s) Hc ltac:(lra)).
  pose proof (Qmult_le_0_compat v s Hv Hs). lra.
Qed.

Lemma blend_pos c v s :
  0 <= c -> 0 < v -> 0 < s -> s <= 1 -> 0 < c + (v - c) * s.
Proof.
  intros Hc Hv Hs Hs1.
  assert (E : c + (v - c) * s == c * (1 - s) + v * s) by ring.
  rewrite E.
  pose proof (Qmult_le_0_compat c (1 - s) Hc ltac:(lra)).
  pose proof (Qmult_lt_0_compat v s Hv Hs). lra.
Qed.

Lemma scale_in_unit (turnover : Q) :
  max_turnover allocation_constraints < turnover ->
  0 < max_turnover allocation_constraints / turnover /\
  max_turnover allocation_constraints / turnover <= 1.
Proof.
  simpl. intros H. split.
  - apply Qlt_shift_div_l; lra.
  - apply Qle_shift_div_r; lra.
Qed.

Lemma sum_map_abs_scale {A : Type} (f : A -> Q) (l : list A) (c : Q) :
  0 <= c ->
  sum (map (fun a => Qabs (f a * c)) l) == sum (map (fun a => Qabs (f a)) l) * c.
Proof.
  intros Hc. induction l as [|x l IH]; cbn [map].
  - rewrite sum_nil. lra.
  - rewrite !sum_cons, IH, Qabs_Qmult, (Qabs_pos c Hc). lra.
Qed.

Lemma sum_map_ext {A : Type} (f g : A -> Q) (l : list A) :
  (forall a, In a l -> f a == g a) -> sum (map f l) == sum (map g l).
Proof.
  induction l as [|a l IH]; intros H; cbn [map].
  - reflexivity.
  - rewrite !sum_cons, (H a (or_introl eq_refl)), IH; [reflexivity|].
    intros a' Hin. apply H. now right.
Qed.

(** Step (d). *)
Lemma limit_turnover_spec (b current_weights : dict Q) (symbols : list string) :
  NoDup symbols -> Dict.keys b = symbols ->
  all_values (fun v => 0 <= v) b ->
  (forall k, 0 <= Dict.get current_weights k 0) ->
  exists t,
    limit_turnover symbols b current_weights = Ok t /\
    Dict.keys t = symbols /\
    all_values (fun v => 0 <= v) t /\
    (Exists (fun v => 0 < v) (Dict.values b) ->
     Exists (fun v => 0 < v) (Dict.values t)) /\
    sum (map (turnover_term current_weights) t)
    <= max_turnover allocation_constraints.
Proof.
  intros Hnd Hk Hb Hcur. subst symbols. unfold limit_turnover.
  rewrite total_turnover_keys by assumption. cbn [bind].
  set (turnover := sum (map (turnover_term current_weights) b)).
  destruct (Qgtb turnover (max_turnover allocation_constraints)) eqn:E.
  - apply Qgtb_true in E.
    destruct (scale_in_unit turnover E) as [Hs0 Hs1].
    set (turnover_scale := max_turnover allocation_constraints / turnover) in *.
    change (for_symbols (scaled_change current_weights turnover_scale)
              (Dict.keys b) b) with
      (for_symbols (scaled_change current_weights turnover_scale) (Dict.keys b) b).
    rewrite (for_symbols_all (scaled_change current_weights turnover_scale))
      by (assumption || reflexivity).
    eexists. split; [reflexivity|]. split; [apply keys_map_items|]. split.
    + apply (all_values_map_items (fun v => 0 <= v)); [assumption|].
      intros k v Hv. unfold apply_body, scaled_change.
      apply blend_nonneg; try lra. apply Hcur.
    + split.
      * intros Hex. rewrite values_map_items.
        apply Exists_exists in Hex. destruct Hex as [v [Hin Hv]].
        unfold Dict.values in Hin. apply in_map_iff in Hin.
        destruct Hin as [[k v'] [Heq Hin]]. simpl in Heq. subst v'.
        apply Exists_exists.
        exists (apply_body (scaled_change current_weights turnover_scale) k v).
        split.
        { apply in_map_iff. exists (k, v). split; [reflexivity|assumption]. }
        unfold apply_body, scaled_change. apply blend_pos; try lra. apply Hcur.
      * unfold Dict.map_items. rewrite map_map.
        rewrite (sum_map_ext _
                   (fun kv => Qabs ((snd kv - Dict.get current_weights (fst kv) 0)
                                    * turnover_scale))).
        2:{ intros [k v] _. unfold turnover_term, apply_body, scaled_change.
            cbn [fst snd]. apply Qabs_wd. ring. }
        rewrite (sum_map_abs_scale
                   (fun kv => snd kv - Dict.get current_weights (fst kv) 0))
          by lra.
        fold (turnover_term current_weights).
        fold turnover.
        assert (Hne : ~ turnover == 0).
        { simpl in E. lra. }
        assert (Heq : turnover * turnover_scale
                      == max_turnover allocation_constraints).
        { unfold turnover_scale. field. exact Hne. }
        rewrite Heq. apply Qle_refl.
  - apply Qgtb_false in E.
    eexists. split; [reflexivity|]. split; [reflexivity|]. split; [assumption|].
    split; [trivial|exact E].
Qed.

Lemma keys_renormalize (d : dict Q) : Dict.keys (renormalize d) = Dict.keys d.
Proof.
  unfold renormalize. destruct (Qgtb (sum (Dict.values d)) 0).
  - apply keys_map_items.
  - reflexivity.
Qed.

(** Step (e). *)
Lemma renormalize_spec (t : dict Q) :
  all_values (fun v => 0 <= v) t -> 0 < sum (Dict.values t) ->
  sum (Dict.values (renormalize t)) == 1 /\
  all_values (fun v => 0 <= v) (renormalize t).
Proof.
  intros Hall Hpos. unfold renormalize.
  assert (E : Qgtb (sum (Dict.values t)) 0 = true) by now apply Qgtb_true.
  rewrite E. split.
  - rewrite values_map_items. unfold Dict.values in *.
    rewrite <- (map_map snd (fun w => w / sum (map snd t))).
    rewrite sum_map_div. field. lra.
  - apply (all_values_map_items (fun v => 0 <= v)); [assumption|].
    intros k v Hv. apply Qle_shift_div_l; lra.
Qed.

Lemma sum_values_pos (d : dict Q) :
  all_values (fun v => 0 <= v) d -> Exists (fun v => 0 < v) (Dict.values d) ->
  0 < sum (Dict.values d).
Proof. intros H1 H2. now apply sum_pos. Qed.

(** The whole projector on a weight map over [symbols]. *)
Lemma projector_spec (w current_weights : dict Q) (symbols : list string) :
  NoDup symbols -> Dict.keys w = symbols ->
  all_values (fun v => 0 <= v) current_weights ->
  exists b t,
    bounded_weights w symbols = Ok b /\
    turnover_limited_weights w current_weights symbols = Ok t /\
    apply_allocation_constraints w current_weights symbols = renormalize t /\
    Dict.keys b = symbols /\ Dict.keys t = symbols /\
    all_values within_bounds b /\
    (Nat.min (min_diversification allocation_constraints) (List.length symbols)
     <= non_zero_positions b)%nat /\
    all_values (fun v => 0 <= v) t /\
    (symbols <> [] -> 0 < sum (Dict.values t)) /\
    total_turnover symbols t current_weights
    = Ok (sum (map (turnover_term current_weights) t)) /\
    sum (map (turnover_term current_weights) t)
    <= max_turnover allocation_constraints.
Proof.
  intros Hnd Hk Hcur.
  destruct (bounded_weights_spec w symbols Hnd Hk) as [b [Hb [Hkb [Hbb Hcount]]]].
  assert (Hb0 : all_values (fun v => 0 <= v) b).
  { unfold all_values in *. eapply Forall_impl; [|exact Hbb].
    intros v [Hv _]. cbn [min_weight allocation_constraints] in Hv. lra. }
  destruct (limit_turnover_spec b current_weights symbols Hnd Hkb Hb0
              (get_nonneg current_weights Hcur))
    as [t [Ht [Hkt [Ht0 [Hex Hturn]]]]].
  exists b, t.
  assert (Htl : turnover_limited_weights w current_weights symbols = Ok t).
  { unfold turnover_limited_weights. rewrite Hb. exact Ht. }
  refine (conj Hb (conj Htl (conj _ (conj Hkb (conj Hkt (conj Hbb
            (conj Hcount (conj Ht0 (conj _ (conj _ Hturn)))))))))).
  - unfold apply_allocation_constraints. now rewrite Htl.
  - intros Hne. apply sum_values_pos; [assumption|]. apply Hex.
    assert (Hpos : (0 < non_zero_positions b)%nat).
    { destruct symbols as [|s l]; [congruence|]. simpl in Hcount. lia. }
    apply non_zero_positions_Exists in Hpos.
    revert Hpos. apply Exists_impl. intros v Hv. lra.
  - subst symbols. rewrite <- Hkt. apply total_turnover_keys. now rewrite Hkt.
Qed.

(** ** The weight map that reaches the projector *)

Lemma setitem_fresh {V : Type} (d : dict V) k v :
  ~ In k (Dict.keys d) -> Dict.setitem d k v = (d ++ [(k, v)])%list.
Proof.
  induction d as [|[k' v'] d IH]; intros H; simpl in *.
  - reflexivity.
  - destruct (String.eqb_spec k k') as [->|Hne].
    + exfalso. apply H. now left.
    + f_equal. apply IH. intros Hin. apply H. now right.
Qed.

Lemma of_zip_fold {V : Type} (ks : list string) (vs : list V) (acc : dict V) :
  NoDup ks -> (forall k, In k ks -> ~ In k (Dict.keys acc)) ->
  fold_left (fun d kv => Dict.setitem d (fst kv) (snd kv)) (combine ks vs) acc
  = (acc ++ combine ks vs)%list.
Proof.
  revert vs acc. induction ks as [|k ks IH]; intros vs acc Hnd Hfresh; simpl.
  - now rewrite app_nil_r.
  - destruct vs as [|v vs]; simpl.
    + now rewrite app_nil_r.
    + inversion Hnd as [|? ? Hnotin Hnd']; subst.
      rewrite setitem_fresh by (apply Hfresh; now left).
      rewrite IH.
      * now rewrite <- app_assoc.
      * assumption.
      * intros k' Hin Hacc. unfold Dict.keys in Hacc.
        rewrite map_app in Hacc. apply in_app_or in Hacc.
        destruct Hacc as [Hacc|[Heq|[]]].
        { apply (Hfresh k'); [now right|exact Hacc]. }
        simpl in Heq. subst. contradiction.
Qed.

Lemma keys_combine {V : Type} (ks : list string) (vs : list V) :
  List.length vs = List.length ks -> Dict.keys (combine ks vs) = ks.
Proof.
  revert vs. induction ks as [|k ks IH]; intros [|v vs] H; simpl in *;
    try reflexivity; try discriminate.
  f_equal. apply IH. now injection H.
Qed.

Lemma keys_of_zip {V : Type} (ks : list string) (vs : list V) :
  NoDup ks -> List.length vs = List.length ks ->
  Dict.keys (Dict.of_zip ks vs) = ks.
Proof.
  intros Hnd Hlen. unfold Dict.of_zip.
  rewrite of_zip_fold; [|assumption|intros k _ []].
  simpl. now apply keys_combine.
Qed.

Lemma length_equal_weights n : List.length (equal_weights n) = n.
Proof. apply repeat_length. Qed.

Lemma length_add_entries a b :
  List.length a = List.length b ->
  List.length (add_entries a b) = List.length a.
Proof.
  revert b. induction a as [|v a IH]; intros [|w b] H; simpl in *;
    try reflexivity; try discriminate.
  f_equal. apply IH. now injection H.
Qed.

Lemma np_add_length a b r :
  List.length a = List.length b ->
  np_add a b = Ok r -> List.length r = List.length a.
Proof.
  intros Hlen H. unfold np_add in H.
  apply Nat.eqb_eq in Hlen as E. rewrite E in H.
  injection H as <-. now apply length_add_entries.
Qed.

Lemma length_mean_variance_optimization B mu sigma risk_target :
  List.length (mean_variance_optimization B mu sigma risk_target)
  = List.length mu.
Proof.
  unfold mean_variance_optimization.
  destruct (minimize B (mean_variance_problem mu sigma risk_target))
    as [res|e] eqn:E; simpl.
  - destruct (OptimizeResult.success res).
    + rewrite (minimize_shape B _ _ E). simpl. apply length_equal_weights.
    + apply length_equal_weights.
  - apply length_equal_weights.
Qed.

Lemma length_risk_parity_optimization B sigma :
  List.length (risk_parity_optimization B sigma) = List.length sigma.
Proof.
  unfold risk_parity_optimization.
  destruct (minimize B (risk_parity_problem sigma)) as [res|e] eqn:E; simpl.
  - destruct (OptimizeResult.success res).
    + rewrite (minimize_shape B _ _ E). simpl. apply length_equal_weights.
    + apply length_equal_weights.
  - apply length_equal_weights.
Qed.

Lemma length_minimum_variance_optimization B sigma :
  List.length (minimum_variance_optimization B sigma) = List.length sigma.
Proof.
  unfold minimum_variance_optimization.
  destruct (minimize B (minimum_variance_problem sigma)) as [res|e] eqn:E; simpl.
  - destruct (OptimizeResult.success res).
    + rewrite (minimize_shape B _ _ E). simpl. apply length_equal_weights.
    + apply length_equal_weights.
  - apply length_equal_weights.
Qed.

Lemma length_black_litterman_optimization B mu sigma current_w :
  List.length (black_litterman_optimization B mu sigma current_w)
  = List.length current_w.
Proof.
  unfold black_litterman_optimization.
  destruct (black_litterman_weights B mu sigma current_w) as [w|e] eqn:E;
    cbn [bind try_except]; [|reflexivity].
  unfold np_div, np_maximum0. rewrite !length_map.
  exact (black_litterman_weights_shape B _ _ _ _ E).
Qed.

(** Candidates of the length of [symbols] are blended entry by entry. *)
Lemma length_ensemble_optimization_methods mv rp bl mn symbols :
  List.length mv = List.length symbols ->
  List.length rp = List.length symbols ->
  List.length bl = List.length symbols ->
  List.length mn = List.length symbols ->
  List.length (ensemble_optimization_methods mv rp bl mn symbols)
  = List.length symbols.
Proof.
  intros Hmv Hrp Hbl Hmn. unfold ensemble_optimization_methods.
  destruct (np_add _ _) as [e1|x] eqn:E1; cbn [bind try_except];
    [|apply length_equal_weights].
  apply np_add_length in E1; [|unfold np_scale; rewrite !length_map; congruence].
  unfold np_scale in E1. rewrite length_map in E1.
  destruct (np_add e1 _) as [e2|x] eqn:E2; cbn [bind try_except];
    [|apply length_equal_weights].
  apply np_add_length in E2; [|unfold np_scale; rewrite !length_map; congruence].
  destruct (np_add e2 _) as [e3|x] eqn:E3; cbn [bind try_except];
    [|apply length_equal_weights].
  apply np_add_length in E3; [|unfold np_scale; rewrite !length_map; congruence].
  unfold np_div, np_maximum0. rewrite !length_map. congruence.
Qed.

Lemma length_lookup_all {V : Type} (d : dict V) symbols l :
  lookup_all d symbols = Ok l -> List.length l = List.length symbols.
Proof.
  revert l. induction symbols as [|s rest IH]; intros l H; simpl in H.
  - now injection H as <-.
  - destruct (Dict.getitem d s) as [v|e]; simpl in H; [|discriminate].
    destruct (lookup_all d rest) as [tl|e]; simpl in H; [|discriminate].
    injection H as <-. simpl. f_equal. now apply IH.
Qed.

Lemma keys_optimize_portfolio_allocation B symbols expected_returns
    covariance_matrix current_weights risk_target :
  NoDup symbols ->
  List.length covariance_matrix = List.length symbols ->
  Dict.keys (ensemble_weights
               (optimize_portfolio_allocation B symbols expected_returns
                  covariance_matrix current_weights risk_target))
  = symbols.
Proof.
  intros Hnd Hshape. unfold optimize_portfolio_allocation.
  destruct (lookup_all expected_returns symbols) as [mu|e] eqn:E;
    cbn [bind try_except ensemble_weights].
  - apply keys_of_zip; [assumption|].
    apply length_ensemble_optimization_methods.
    + rewrite length_mean_variance_optimization.
      now apply length_lookup_all with (d := expected_returns).
    + now rewrite length_risk_parity_optimization.
    + now rewrite length_black_litterman_optimization, length_map.
    + now rewrite length_minimum_variance_optimization.
  - apply keys_of_zip; [assumption|apply length_equal_weights].
Qed.

Lemma keys_apply_regime_tilts optimal_weights market_regime regime_confidence :
  Dict.keys (apply_regime_tilts optimal_weights market_regime regime_confidence)
  = Dict.keys optimal_weights.
Proof.
  unfold apply_regime_tilts, tilted_before_renormalize.
  now rewrite keys_renormalize, keys_map_items.
Qed.

Lemma keys_regime_adjusted_weights B cw market_regime regime_confidence preds :
  NoDup (Dict.keys cw) ->
  Dict.keys (regime_adjusted_weights B cw market_regime regime_confidence preds)
  = Dict.keys cw.
Proof.
  intros Hnd. unfold regime_adjusted_weights.
  rewrite keys_apply_regime_tilts.
  apply keys_optimize_portfolio_allocation; [assumption|].
  apply estimate_covariance_matrix_shape.
Qed.

(** ** The orchestrator on a non-empty weight map *)

Lemma nonnegative_all_values cw :
  nonnegative cw = true -> all_values (fun v => 0 <= v) cw.
Proof.
  unfold nonnegative, all_values. rewrite forallb_forall, Forall_forall.
  intros H v Hin. apply Qle_bool_iff. now apply H.
Qed.

Lemma calculate_on_weights B r cw :
  current_weights r = Some (PyDict cw) -> cw <> [] ->
  exists m,
    calculate_dynamic_allocation B (JsonObject r)
    = Ok {| success := Some true;
            optimal_weights :=
              Some (PyDict (final_weights B cw
                              (or_default (market_regime r) "Stable")
                              (or_default (regime_confidence r) 0.7)
                              (or_default (ml_predictions r) [])));
            error := None;
            optimization_method := Some m;
            fallback_mode := None |}.
Proof.
  intros Hcw Hne. unfold calculate_dynamic_allocation, allocation_body.
  rewrite Hcw. cbn [or_default].
  destruct cw as [|kv cw]; [congruence|].
  cbn [truthy negb keys_of bind as_dict]. eexists. reflexivity.
Qed.

Lemma final_weights_spec B cw market_regime regime_confidence preds :
  distinct (Dict.keys cw) = true -> nonnegative cw = true ->
  exists b t,
    bounded_weights
      (regime_adjusted_weights B cw market_regime regime_confidence preds)
      (Dict.keys cw) = Ok b /\
    turnover_limited_weights
      (regime_adjusted_weights B cw market_regime regime_confidence preds)
      cw (Dict.keys cw) = Ok t /\
    final_weights B cw market_regime regime_confidence preds = renormalize t /\
    Dict.keys b = Dict.keys cw /\ Dict.keys t = Dict.keys cw /\
    all_values within_bounds b /\
    (Nat.min (min_diversification allocation_constraints)
       (List.length (Dict.keys cw)) <= non_zero_positions b)%nat /\
    all_values (fun v => 0 <= v) t /\
    (Dict.keys cw <> [] -> 0 < sum (Dict.values t)) /\
    total_turnover (Dict.keys cw) t cw
    = Ok (sum (map (turnover_term cw) t)) /\
    sum (map (turnover_term cw) t) <= max_turnover allocation_constraints.
Proof.
  intros Hd Hn. apply distinct_NoDup in Hd.
  apply projector_spec.
  - assumption.
  - now apply keys_regime_adjusted_weights.
  - now apply nonnegative_all_values.
Qed.

(** ** The projector respects equality of rationals

    The arithmetic of [Q] does not normalise fractions, so two weight
    maps that are equal as rationals are different terms.  The projector
    cannot tell them apart. *)

Lemma Qgtb_equiv x x' y y' : x == x' -> y == y' -> Qgtb x y = Qgtb x' y'.
Proof. intros Hx Hy. unfold Qgtb. now rewrite Hx, Hy. Qed.

Lemma Qltb_equiv x x' y y' : x == x' -> y == y' -> Qltb x y = Qltb x' y'.
Proof. intros Hx Hy. unfold Qltb. now rewrite Hx, Hy. Qed.

Lemma dict_equivb_sound d d' : dict_equivb d d' = true -> dict_equiv d d'.
Proof.
  revert d'. induction d as [|[k v] d IH]; intros [|[k' v'] d'] H; simpl in H;
    try discriminate.
  - constructor.
  - apply andb_true_iff in H. destruct H as [H Hrest].
    apply andb_true_iff in H. destruct H as [Hk Hv].
    constructor.
    + split; simpl; [now apply String.eqb_eq|now apply Qeq_bool_iff].
    + now apply IH.
Qed.

Lemma dict_equiv_refl d : dict_equiv d d.
Proof.
  induction d as [|kv d IH]; constructor; [|assumption].
  split; reflexivity.
Qed.

Lemma dict_equiv_keys d d' : dict_equiv d d' -> Dict.keys d = Dict.keys d'.
Proof.
  induction 1 as [|a b d d' [Hk _] _ IH]; simpl; [reflexivity|].
  now rewrite Hk, IH.
Qed.

Lemma dict_equiv_values d d' :
  dict_equiv d d' -> Forall2 Qeq (Dict.values d) (Dict.values d').
Proof.
  induction 1 as [|a b d d' [_ Hv] _ IH]; simpl; constructor; assumption.
Qed.

Lemma sum_equiv l l' : Forall2 Qeq l l' -> sum l == sum l'.
Proof.
  induction 1 as [|x y l l' Hxy _ IH].
  - reflexivity.
  - now rewrite !sum_cons, Hxy, IH.
Qed.

Lemma getitem_equiv d d' k :
  dict_equiv d d' -> result_equiv Qeq (Dict.getitem d k) (Dict.getitem d' k).
Proof.
  induction 1 as [|[a v] [a' v'] d d' [Hk Hv] _ IH]; simpl in *.
  - exact I.
  - subst a'. destruct (String.eqb k a); [exact Hv|exact IH].
Qed.

Lemma setitem_equiv d d' k v v' :
  dict_equiv d d' -> v == v' ->
  dict_equiv (Dict.setitem d k v) (Dict.setitem d' k v').
Proof.
  intros H Hv. induction H as [|[a w] [a' w'] d d' [Hk Hw] Hrest IH];
    simpl in *.
  - constructor; [split; [reflexivity|exact Hv]|constructor].
  - subst a'. destruct (String.eqb k a).
    + constructor; [split; [reflexivity|exact Hv]|exact Hrest].
    + constructor; [split; [reflexivity|exact Hw]|exact IH].
Qed.

Lemma bind_equiv {A C : Type} (R : A -> A -> Prop) (R' : C -> C -> Prop)
    (m m' : result A) (k k' : A -> result C) :
  result_equiv R m m' ->
  (forall a a', R a a' -> result_equiv R' (k a) (k' a')) ->
  result_equiv R' (bind m k) (bind m' k').
Proof.
  destruct m as [a|e], m' as [a'|e']; simpl; intros H Hk;
    try contradiction; [now apply Hk|exact I].
Qed.

Lemma for_symbols_equiv body body' l d d' :
  body_equiv body body' -> dict_equiv d d' ->
  result_equiv dict_equiv (for_symbols body l d) (for_symbols body' l d').
Proof.
  intros Hbody. revert d d'. induction l as [|s rest IH]; intros d d' Hd; simpl.
  - exact Hd.
  - apply (bind_equiv Qeq); [now apply getitem_equiv|].
    intros w w' Hw. apply IH.
    specialize (Hbody s w w' Hw).
    destruct (body s w) as [v|], (body' s w') as [v'|]; try contradiction.
    + now apply setitem_equiv.
    + exact Hd.
Qed.

Lemma non_zero_positions_equiv d d' :
  dict_equiv d d' -> non_zero_positions d = non_zero_positions d'.
Proof.
  intros H. unfold non_zero_positions. apply dict_equiv_values in H.
  induction H as [|v v' l l' Hv _ IH]; simpl; [reflexivity|].
  rewrite (Qgtb_equiv v v' 0.01 0.01 Hv (Qeq_refl _)).
  destruct (Qgtb v' 0.01); simpl; now rewrite IH.
Qed.

Lemma decorate_equiv l d d' :
  dict_equiv d d' -> result_equiv dict_equiv (decorate l d) (decorate l d').
Proof.
  intros Hd. induction l as [|s rest IH]; simpl.
  - constructor.
  - apply (bind_equiv Qeq); [now apply getitem_equiv|].
    intros w w' Hw. apply (bind_equiv dict_equiv); [exact IH|].
    intros tl tl' Htl. simpl. constructor; [split; [reflexivity|exact Hw]|exact Htl].
Qed.

Lemma insert_desc_equiv x x' l l' :
  entry_equiv x x' -> dict_equiv l l' ->
  dict_equiv (insert_desc x l) (insert_desc x' l').
Proof.
  intros Hx H. induction H as [|y y' l l' Hy Hrest IH]; simpl.
  - constructor; [exact Hx|constructor].
  - rewrite (Qltb_equiv (snd x) (snd x') (snd y) (snd y') (proj2 Hx) (proj2 Hy)).
    destruct (Qltb (snd x') (snd y')).
    + constructor; assumption.
    + constructor; [exact Hx|]. constructor; assumption.
Qed.

Lemma sort_desc_equiv l l' :
  dict_equiv l l' -> dict_equiv (sort_desc l) (sort_desc l').
Proof.
  induction 1 as [|x x' l l' Hx _ IH]; simpl.
  - constructor.
  - now apply insert_desc_equiv.
Qed.

Lemma sorted_by_weight_desc_equiv l d d' :
  dict_equiv d d' ->
  result_equiv eq (sorted_by_weight_desc l d) (sorted_by_weight_desc l d').
Proof.
  intros Hd. unfold sorted_by_weight_desc.
  apply (bind_equiv dict_equiv); [now apply decorate_equiv|].
  intros keyed keyed' Hk. simpl.
  apply (dict_equiv_keys _ _ (sort_desc_equiv _ _ Hk)).
Qed.

Lemma ensure_min_diversification_equiv l d d' :
  dict_equiv d d' ->
  result_equiv dict_equiv
    (ensure_min_diversification l d) (ensure_min_diversification l d').
Proof.
  intros Hd. unfold ensure_min_diversification.
  rewrite (non_zero_positions_equiv d d' Hd).
  destruct (Nat.ltb _ _); [|exact Hd].
  apply (bind_equiv eq); [now apply sorted_by_weight_desc_equiv|].
  intros top top' <-. apply for_symbols_equiv; [|exact Hd].
  intros s v v' Hv. rewrite (Qltb_equiv v v' 0.05 0.05 Hv (Qeq_refl _)).
  destruct (Qltb v' 0.05); [reflexivity|exact I].
Qed.

Lemma turnover_terms_equiv l d d' current_weights :
  dict_equiv d d' ->
  result_equiv (Forall2 Qeq)
    (turnover_terms l d current_weights) (turnover_terms l d' current_weights).
Proof.
  intros Hd. induction l as [|s rest IH]; cbn [turnover_terms].
  - constructor.
  - apply (bind_equiv Qeq); [now apply getitem_equiv|].
    intros w w' Hw. apply (bind_equiv (Forall2 Qeq)); [exact IH|].
    intros tl tl' Htl. cbn [result_equiv]. constructor; [|exact Htl].
    apply Qabs_wd. now rewrite Hw.
Qed.

Lemma limit_turnover_equiv l d d' current_weights :
  dict_equiv d d' ->
  result_equiv dict_equiv
    (limit_turnover l d current_weights) (limit_turnover l d' current_weights).
Proof.
  intros Hd. unfold limit_turnover, total_turnover.
  pose proof (turnover_terms_equiv l d d' current_weights Hd) as Ht.
  destruct (turnover_terms l d current_weights) as [terms|e],
           (turnover_terms l d' current_weights) as [terms'|e'];
    simpl in Ht; try contradiction; cbn [bind]; [|exact I].
  pose proof (sum_equiv _ _ Ht) as Hs.
  rewrite (Qgtb_equiv _ _ _ _ Hs (Qeq_refl (max_turnover allocation_constraints))).
  destruct (Qgtb (sum terms') _); [|exact Hd].
  apply for_symbols_equiv; [|exact Hd].
  intros s v v' Hv. now rewrite Hv, Hs.
Qed.

Lemma map_items_div_equiv d d' c c' :
  dict_equiv d d' -> c == c' ->
  dict_equiv (Dict.map_items (fun _ weight => weight / c) d)
             (Dict.map_items (fun _ weight => weight / c') d').
Proof.
  intros Hd Hc. unfold Dict.map_items.
  induction Hd as [|a b d d' [Hk Hv] _ IH]; cbn [map]; constructor.
  - split; cbn [fst snd]; [exact Hk|]. now rewrite Hv, Hc.
  - exact IH.
Qed.

Lemma renormalize_equiv d d' :
  dict_equiv d d' -> dict_equiv (renormalize d) (renormalize d').
Proof.
  intros Hd. unfold renormalize.
  pose proof (sum_equiv _ _ (dict_equiv_values _ _ Hd)) as Hs.
  rewrite (Qgtb_equiv _ _ 0 0 Hs (Qeq_refl _)).
  destruct (Qgtb (sum (Dict.values d')) 0); [|exact Hd].
  now apply map_items_div_equiv.
Qed.

Lemma apply_allocation_constraints_equiv w w' current_weights symbols :
  dict_equiv w w' ->
  dict_equiv (apply_allocation_constraints w current_weights symbols)
             (apply_allocation_constraints w' current_weights symbols).
Proof.
  intros Hw.
  assert (H : result_equiv dict_equiv
                (cw <- turnover_limited_weights w current_weights symbols ;;
                 Ok (renormalize cw))
                (cw <- turnover_limited_weights w' current_weights symbols ;;
                 Ok (renormalize cw))).
  { apply (bind_equiv dict_equiv).
    - unfold turnover_limited_weights, bounded_weights.
      apply (bind_equiv dict_equiv).
      + apply (bind_equiv dict_equiv).
        * apply for_symbols_equiv; [|exact Hw].
          intros s v v' Hv.
          rewrite (Qgtb_equiv v v' _ _ Hv
                     (Qeq_refl (max_weight allocation_constraints))).
          destruct (Qgtb v' _); [reflexivity|exact I].
        * intros c c' Hc. apply (bind_equiv dict_equiv).
          { apply for_symbols_equiv; [|exact Hc].
            intros s v v' Hv.
            rewrite (Qltb_equiv v v' _ _ Hv
                       (Qeq_refl (min_weight allocation_constraints))).
            destruct (Qltb v' _); [reflexivity|exact I]. }
          intros f f' Hf. now apply ensure_min_diversification_equiv.
      + intros b b' Hb. now apply limit_turnover_equiv.
    - intros t t' Ht. simpl. now apply renormalize_equiv. }
  unfold apply_allocation_constraints.
  destruct (cw <- turnover_limited_weights w current_weights symbols ;;
            Ok (renormalize cw)) as [r|e],
           (cw <- turnover_limited_weights w' current_weights symbols ;;
            Ok (renormalize cw)) as [r'|e'];
    simpl in H |- *; try contradiction; assumption.
Qed.

(** * The claims *)

(** ** C1: the returned weights sum to one *)

(** C1. For every non-empty [current_weights] map (a dictionary whose
    weights are not negative) and any regime, confidence and prediction
    input, [calculate_dynamic_allocation] returns a response with
    [success = True] whose [optimal_weights] sum to 1 -- exactly in
    rational arithmetic, hence within the tolerance 1e-6. *)
Theorem C1_optimal_weights_sum_to_one (B : Backend) (r : request) (cw : dict Q) :
  current_weights r = Some (PyDict cw) -> cw <> [] ->
  distinct (Dict.keys cw) = true -> nonnegative cw = true ->
  exists resp w,
    calculate_dynamic_allocation B (JsonObject r) = Ok resp /\
    success resp = Some true /\
    optimal_weights resp = Some (PyDict w) /\
    sum (Dict.values w) == 1 /\
    Qabs (sum (Dict.values w) - 1) <= 1e-6.
Proof.
  intros Hr Hne Hd Hn.
  destruct (calculate_on_weights B r cw Hr Hne) as [m Hm].
  destruct (final_weights_spec B cw
              (or_default (market_regime r) "Stable")
              (or_default (regime_confidence r) 0.7)
              (or_default (ml_predictions r) []) Hd Hn)
    as (b & t & _ & _ & Hfinal & _ & _ & _ & _ & Ht0 & Hpos & _).
  assert (Hkeys : Dict.keys cw <> []).
  { destruct cw; [congruence|discriminate]. }
  destruct (renormalize_spec t Ht0 (Hpos Hkeys)) as [Hsum _].
  eexists. eexists. split; [exact Hm|]. cbn [success optimal_weights].
  split; [reflexivity|]. split; [reflexivity|].
  rewrite Hfinal. split; [exact Hsum|].
  rewrite Hsum. apply Qle_bool_iff. reflexivity.
Qed.

Lemma C1_witness :
  exists resp w,
    calculate_dynamic_allocation stalled_backend
      (JsonObject (request_for stocks_and_bonds "Bear" 0.8)) = Ok resp /\
    success resp = Some true /\
    optimal_weights resp = Some (PyDict w) /\
    sum (Dict.values w) == 1 /\
    Qabs (sum (Dict.values w) - 1) <= 1e-6.
Proof.
  apply (C1_optimal_weights_sum_to_one stalled_backend
           (request_for stocks_and_bonds "Bear" 0.8) stocks_and_bonds).
  - reflexivity.
  - discriminate.
  - reflexivity.
  - reflexivity.
Defined.

(** ** C9: a single-symbol portfolio *)

(** C9. For a portfolio of exactly one symbol, with any weight that is
    not negative, and for every regime and confidence, the successful
    result gives that symbol the weight 1. *)
Theorem C9_single_symbol_gets_full_weight (B : Backend) (r : request)
    (s : string) (v : Q) :
  current_weights r = Some (PyDict [(s, v)]) -> 0 <= v ->
  exists resp w,
    calculate_dynamic_allocation B (JsonObject r) = Ok resp /\
    success resp = Some true /\
    optimal_weights resp = Some (PyDict [(s, w)]) /\
    w == 1.
Proof.
  intros Hr Hv.
  destruct (calculate_on_weights B r [(s, v)] Hr ltac:(discriminate)) as [m Hm].
  assert (Hn : nonnegative [(s, v)] = true).
  { unfold nonnegative; cbn [Dict.values map snd forallb].
    apply Qle_bool_iff in Hv. now rewrite Hv. }
  destruct (final_weights_spec B [(s, v)]
              (or_default (market_regime r) "Stable")
              (or_default (regime_confidence r) 0.7)
              (or_default (ml_predictions r) []) eq_refl Hn)
    as (b & t & _ & _ & Hfinal & _ & Hkt & _ & _ & Ht0 & Hpos & _).
  destruct t as [|[k x] [|kv t]]; try discriminate Hkt.
  cbn [Dict.keys map fst] in Hkt. injection Hkt as ->.
  specialize (Hpos ltac:(discriminate)).
  assert (Hx : sum (Dict.values [(s, x)]) == x).
  { cbn [Dict.values map snd]. rewrite sum_cons, sum_nil. lra. }
  unfold renormalize in Hfinal.
  assert (E : Qgtb (sum (Dict.values [(s, x)])) 0 = true) by now apply Qgtb_true.
  rewrite E in Hfinal. cbn [Dict.map_items map fst snd] in Hfinal.
  eexists. eexists. split; [exact Hm|]. cbn [success optimal_weights].
  split; [reflexivity|]. rewrite Hfinal. split; [reflexivity|].
  rewrite Hx. rewrite Hx in Hpos. field. lra.
Qed.

Lemma C9_witness :
  exists resp w,
    calculate_dynamic_allocation stationary_backend
      (JsonObject (request_for [("SPY", 0.5)] "Volatile" 0.9)) = Ok resp /\
    success resp = Some true /\
    optimal_weights resp = Some (PyDict [("SPY", w)]) /\
    w == 1.
Proof.
  apply (C9_single_symbol_gets_full_weight stationary_backend
           (request_for [("SPY", 0.5)] "Volatile" 0.9) "SPY" 0.5).
  - reflexivity.
  - lra.
Defined.

(** ** C3: the turnover cap *)

Lemma renormalize_unit (t : dict Q) :
  sum (Dict.values t) == 1 -> dict_equiv (renormalize t) t.
Proof.
  intros Hs. unfold renormalize.
  assert (E : Qgtb (sum (Dict.values t)) 0 = true).
  { apply Qgtb_true. rewrite Hs. lra. }
  rewrite E. unfold Dict.map_items.
  generalize (sum (Dict.values t)) Hs. clear Hs E. intros total Htotal.
  induction t as [|[k v] t IH]; cbn [map]; constructor.
  - split; cbn [fst snd]; [reflexivity|]. rewrite Htotal. field.
  - exact IH.
Qed.

Lemma total_turnover_equiv l d d' current_weights :
  dict_equiv d d' ->
  result_equiv Qeq
    (total_turnover l d current_weights) (total_turnover l d' current_weights).
Proof.
  intros Hd. unfold total_turnover.
  apply (bind_equiv (Forall2 Qeq)); [now apply turnover_terms_equiv|].
  intros terms terms' Ht. cbn [result_equiv]. now apply sum_equiv.
Qed.

(** C3, counterexample.  A fully invested three-fund portfolio in a Bear
    regime: the cap on TLT and the final renormalisation move the
    weights after the turnover step, and the returned weights are
    [46/215 > 0.2 + 1e-6] away from the current ones. *)
Lemma C3_counterexample :
  exists resp w turnover,
    calculate_dynamic_allocation stalled_backend
      (JsonObject (request_for three_funds "Bear" 0.8)) = Ok resp /\
    success resp = Some true /\
    optimal_weights resp = Some (PyDict w) /\
    total_turnover (Dict.keys three_funds) w three_funds = Ok turnover /\
    turnover == 46 # 215 /\
    ~ turnover <= max_turnover allocation_constraints + 1e-6.
Proof.
  destruct (calculate_on_weights stalled_backend
              (request_for three_funds "Bear" 0.8) three_funds eq_refl
              ltac:(discriminate)) as [m Hm].
  eexists. eexists. eexists. split; [exact Hm|]. cbn [success optimal_weights].
  split; [reflexivity|]. split; [reflexivity|]. split.
  - vm_compute. reflexivity.
  - split.
    + apply Qeq_bool_iff. vm_compute. reflexivity.
    + intros H. apply Qle_bool_iff in H. vm_compute in H. discriminate.
Qed.

(** C3, amended.  For every non-empty [current_weights] map without
    negative weights, the weights that leave the turnover step (d)
    satisfy the cap: the sum over all symbols of
    [|w[s] - current_weights.get(s, 0)|] is at most [max_turnover].  The
    returned [optimal_weights] are those weights divided by their total;
    they satisfy the cap whenever that total is 1. *)
Theorem C3_turnover_cap_before_renormalisation (B : Backend) (r : request)
    (cw : dict Q) :
  current_weights r = Some (PyDict cw) -> cw <> [] ->
  distinct (Dict.keys cw) = true -> nonnegative cw = true ->
  exists resp w t turnover,
    calculate_dynamic_allocation B (JsonObject r) = Ok resp /\
    success resp = Some true /\
    optimal_weights resp = Some (PyDict w) /\
    turnover_limited_weights
      (regime_adjusted_weights B cw
         (or_default (market_regime r) "Stable")
         (or_default (regime_confidence r) 0.7)
         (or_default (ml_predictions r) []))
      cw (Dict.keys cw) = Ok t /\
    w = renormalize t /\
    total_turnover (Dict.keys cw) t cw = Ok turnover /\
    turnover <= max_turnover allocation_constraints /\
    (sum (Dict.values t) == 1 ->
     exists final_turnover,
       total_turnover (Dict.keys cw) w cw = Ok final_turnover /\
       final_turnover <= max_turnover allocation_constraints).
Proof.
  intros Hr Hne Hd Hn.
  destruct (calculate_on_weights B r cw Hr Hne) as [m Hm].
  destruct (final_weights_spec B cw
              (or_default (market_regime r) "Stable")
              (or_default (regime_confidence r) 0.7)
              (or_default (ml_predictions r) []) Hd Hn)
    as (b & t & _ & Ht & Hfinal & _ & _ & _ & _ & _ & _ & Hturn & Hcap).
  exists {| success := Some true;
            optimal_weights := Some (PyDict (renormalize t));
            error := None;
            optimization_method := Some m;
            fallback_mode := None |}.
  exists (renormalize t), t, (sum (map (turnover_term cw) t)).
  split; [now rewrite <- Hfinal|]. cbn [success optimal_weights].
  split; [reflexivity|]. split; [reflexivity|]. split; [exact Ht|].
  split; [reflexivity|]. split; [exact Hturn|]. split; [exact Hcap|].
  intros Hunit.
  pose proof (total_turnover_equiv (Dict.keys cw) _ _ cw (renormalize_unit t Hunit))
    as Heq.
  rewrite Hturn in Heq.
  destruct (total_turnover (Dict.keys cw) (renormalize t) cw) as [ft|e];
    cbn [result_equiv] in Heq; [|contradiction].
  exists ft. split; [reflexivity|]. now rewrite Heq.
Qed.

Lemma C3_witness :
  exists resp w t turnover,
    calculate_dynamic_allocation stalled_backend
      (JsonObject (request_for three_funds "Bear" 0.8)) = Ok resp /\
    success resp = Some true /\
    optimal_weights resp = Some (PyDict w) /\
    turnover_limited_weights
      (regime_adjusted_weights stalled_backend three_funds "Bear" 0.8 [])
      three_funds (Dict.keys three_funds) = Ok t /\
    w = renormalize t /\
    total_turnover (Dict.keys three_funds) t three_funds = Ok turnover /\
    turnover <= max_turnover allocation_constraints /\
    (sum (Dict.values t) == 1 ->
     exists final_turnover,
       total_turnover (Dict.keys three_funds) w three_funds = Ok final_turnover /\
       final_turnover <= max_turnover allocation_constraints).
Proof.
  apply (C3_turnover_cap_before_renormalisation stalled_backend
           (request_for three_funds "Bear" 0.8) three_funds).
  - reflexivity.
  - discriminate.
  - reflexivity.
  - reflexivity.
Defined.

(** ** C4: the per-asset bounds *)

Lemma elements_le_sum (l : list Q) :
  Forall (fun x => 0 <= x) l -> Forall (fun x => x <= sum l) l.
Proof.
  induction 1 as [|x l Hx Hl IH].
  - constructor.
  - pose proof (sum_nonneg l Hl) as Hs. constructor.
    + rewrite sum_cons. lra.
    + eapply Forall_impl; [|exact IH]. intros y Hy.
      cbv beta in Hy. rewrite sum_cons. lra.
Qed.

(** C4, counterexample.  Three funds, 80% in SPY, Stable regime: the
    scaled deltas keep SPY near its current weight and the result gives
    it [101/144], above [max_weight = 0.4]. *)
Lemma C4_counterexample :
  exists resp w,
    calculate_dynamic_allocation stalled_backend
      (JsonObject (request_for equity_heavy "Stable" 0.7)) = Ok resp /\
    success resp = Some true /\
    optimal_weights resp = Some (PyDict w) /\
    Dict.get w "SPY" 0 == 101 # 144 /\
    ~ Dict.get w "SPY" 0 <= max_weight allocation_constraints.
Proof.
  destruct (calculate_on_weights stalled_backend
              (request_for equity_heavy "Stable" 0.7) equity_heavy eq_refl
              ltac:(discriminate)) as [m Hm].
  eexists. eexists. split; [exact Hm|]. cbn [success optimal_weights].
  split; [reflexivity|]. split; [reflexivity|]. split.
  - apply Qeq_bool_iff. vm_compute. reflexivity.
  - intros H. apply Qle_bool_iff in H. vm_compute in H. discriminate.
Qed.

(** C4, amended.  For every non-empty [current_weights] map without
    negative weights, the weights that leave the bound and
    diversification steps (a)-(c) lie in [[min_weight, max_weight]], and
    every returned weight lies in [[0, 1]]. *)
Theorem C4_bounds_before_turnover (B : Backend) (r : request) (cw : dict Q) :
  current_weights r = Some (PyDict cw) -> cw <> [] ->
  distinct (Dict.keys cw) = true -> nonnegative cw = true ->
  exists resp w b,
    calculate_dynamic_allocation B (JsonObject r) = Ok resp /\
    success resp = Some true /\
    optimal_weights resp = Some (PyDict w) /\
    bounded_weights
      (regime_adjusted_weights B cw
         (or_default (market_regime r) "Stable")
         (or_default (regime_confidence r) 0.7)
         (or_default (ml_predictions r) []))
      (Dict.keys cw) = Ok b /\
    all_values
      (fun v => min_weight allocation_constraints <= v
                /\ v <= max_weight allocation_constraints) b /\
    all_values (fun v => 0 <= v /\ v <= 1) w.
Proof.
  intros Hr Hne Hd Hn.
  destruct (calculate_on_weights B r cw Hr Hne) as [m Hm].
  destruct (final_weights_spec B cw
              (or_default (market_regime r) "Stable")
              (or_default (regime_confidence r) 0.7)
              (or_default (ml_predictions r) []) Hd Hn)
    as (b & t & Hb & _ & Hfinal & _ & _ & Hbb & _ & Ht0 & Hpos & _).
  assert (Hkeys : Dict.keys cw <> []).
  { destruct cw; [congruence|discriminate]. }
  destruct (renormalize_spec t Ht0 (Hpos Hkeys)) as [Hsum Hnonneg].
  eexists. eexists. exists b. split; [exact Hm|]. cbn [success optimal_weights].
  split; [reflexivity|]. split; [reflexivity|]. split; [exact Hb|].
  split; [exact Hbb|].
  rewrite Hfinal. unfold all_values in *.
  pose proof (elements_le_sum _ Hnonneg) as Hle.
  rewrite Forall_forall in *. intros v Hin. split.
  - now apply Hnonneg.
  - rewrite <- Hsum. now apply Hle.
Qed.

Lemma C4_witness :
  exists resp w b,
    calculate_dynamic_allocation stalled_backend
      (JsonObject (request_for equity_heavy "Stable" 0.7)) = Ok resp /\
    success resp = Some true /\
    optimal_weights resp = Some (PyDict w) /\
    bounded_weights
      (regime_adjusted_weights stalled_backend equity_heavy "Stable" 0.7 [])
      (Dict.keys equity_heavy) = Ok b /\
    all_values
      (fun v => min_weight allocation_constraints <= v
                /\ v <= max_weight allocation_constraints) b /\
    all_values (fun v => 0 <= v /\ v <= 1) w.
Proof.
  apply (C4_bounds_before_turnover stalled_backend
           (request_for equity_heavy "Stable" 0.7) equity_heavy).
  - reflexivity.
  - discriminate.
  - reflexivity.
  - reflexivity.
Defined.

(** ** C8: the diversification floor *)

Lemma concentrated_tilted_correct :
  dict_equiv
    (regime_adjusted_weights stalled_backend concentrated "Stable" 0.7 [])
    concentrated_tilted.
Proof.
  apply dict_equivb_sound. vm_compute. reflexivity.
Qed.

(** C8, counterexample.  Twelve symbols, everything held in the first:
    the turnover scaling leaves [0.9] in it and [1/110 < 1%] in each of
    the other eleven, so one symbol exceeds 1%, not three. *)
Lemma C8_counterexample :
  exists resp w,
    calculate_dynamic_allocation stalled_backend
      (JsonObject (request_for concentrated "Stable" 0.7)) = Ok resp /\
    success resp = Some true /\
    optimal_weights resp = Some (PyDict w) /\
    non_zero_positions w = 1%nat /\
    (non_zero_positions w
     < Nat.min (min_diversification allocation_constraints)
         (List.length (Dict.keys concentrated)))%nat.
Proof.
  destruct (calculate_on_weights stalled_backend
              (request_for concentrated "Stable" 0.7) concentrated eq_refl
              ltac:(discriminate)) as [m Hm].
  eexists. eexists. split; [exact Hm|]. cbn [success optimal_weights or_default
    market_regime regime_confidence ml_predictions request_for].
  split; [reflexivity|]. split; [reflexivity|].
  assert (E : non_zero_positions
                (final_weights stalled_backend concentrated "Stable" 0.7 [])
              = 1%nat).
  { unfold final_weights.
    rewrite (non_zero_positions_equiv _ _
               (apply_allocation_constraints_equiv _ _ concentrated
                  (Dict.keys concentrated) concentrated_tilted_correct)).
    vm_compute. reflexivity. }
  split; [exact E|]. rewrite E. vm_compute. lia.
Qed.

(** C8, amended.  For every non-empty [current_weights] map with N
    symbols and without negative weights, the weights that leave the
    diversification step (c) have at least [min(min_diversification, N)]
    symbols above 1%. *)
Theorem C8_diversification_before_turnover (B : Backend) (r : request)
    (cw : dict Q) :
  current_weights r = Some (PyDict cw) -> cw <> [] ->
  distinct (Dict.keys cw) = true -> nonnegative cw = true ->
  exists resp w b,
    calculate_dynamic_allocation B (JsonObject r) = Ok resp /\
    success resp = Some true /\
    optimal_weights resp = Some (PyDict w) /\
    bounded_weights
      (regime_adjusted_weights B cw
         (or_default (market_regime r) "Stable")
         (or_default (regime_confidence r) 0.7)
         (or_default (ml_predictions r) []))
      (Dict.keys cw) = Ok b /\
    (Nat.min (min_diversification allocation_constraints)
       (List.length (Dict.keys cw)) <= non_zero_positions b)%nat.
Proof.
  intros Hr Hne Hd Hn.
  destruct (calculate_on_weights B r cw Hr Hne) as [m Hm].
  destruct (final_weights_spec B cw
              (or_default (market_regime r) "Stable")
              (or_default (regime_confidence r) 0.7)
              (or_default (ml_predictions r) []) Hd Hn)
    as (b & t & Hb & _ & _ & _ & _ & _ & Hcount & _).
  eexists. eexists. exists b. split; [exact Hm|]. cbn [success optimal_weights].
  split; [reflexivity|]. split; [reflexivity|]. split; [exact Hb|exact Hcount].
Qed.

Lemma C8_witness :
  exists resp w b,
    calculate_dynamic_allocation stalled_backend
      (JsonObject (request_for concentrated "Stable" 0.7)) = Ok resp /\
    success resp = Some true /\
    optimal_weights resp = Some (PyDict w) /\
    bounded_weights
      (regime_adjusted_weights stalled_backend concentrated "Stable" 0.7 [])
      (Dict.keys concentrated) = Ok b /\
    (Nat.min (min_diversification allocation_constraints)
       (List.length (Dict.keys concentrated)) <= non_zero_positions b)%nat.
Proof.
  apply (C8_diversification_before_turnover stalled_backend
           (request_for concentrated "Stable" 0.7) concentrated).
  - reflexivity.
  - discriminate.
  - reflexivity.
  - reflexivity.
Defined.

(** ** C2: exceptions reaching the caller *)

Lemma calculate_never_raises_on_dict (B : Backend) (r : request) :
  exists resp, calculate_dynamic_allocation B (JsonObject r) = Ok resp.
Proof.
  unfold calculate_dynamic_allocation, allocation_body.
  destruct (negb (truthy (or_default (current_weights r) (PyDict [])))).
  - eexists. reflexivity.
  - destruct (keys_of (or_default (current_weights r) (PyDict []))) as [l|e];
      cbn [bind]; eexists; reflexivity.
Qed.

(** C2.  The code at a JSON array and at JSON [null]: [input_data.get]
    raises inside the [try] block before [current_weights] and
    [market_regime] are assigned, the handler reads them, and the
    [UnboundLocalError] leaves [calculate_dynamic_allocation]. *)
Theorem C2_non_dict_input_raises (B : Backend) :
  calculate_dynamic_allocation B (JsonArray 0) = Raise UnboundLocalError /\
  calculate_dynamic_allocation B JsonNull = Raise UnboundLocalError.
Proof. split; reflexivity. Qed.

(** ** C5: the regime tilts *)

Lemma bear_adjustment (s : string) (c : Q) :
  regime_adjustment "Bear" s c ==
  (if any_in defensive_tickers (upper s) then 0.15 * c else 0) +
  (if any_in bond_tickers (upper s) then 0.1 * c else 0).
Proof.
  unfold regime_adjustment, tilt_adjustment.
  change (Dict.get regime_tilts "Bear" [])
    with [("defensive_bias", 0.15); ("reduce_growth", -0.1);
          ("increase_bonds", 0.1); ("add_gold", 0.05)].
  change (Dict.contains _ "growth_bias") with false.
  change (Dict.contains _ "defensive_bias") with true.
  change (Dict.contains _ "reduce_bonds") with false.
  change (Dict.contains _ "increase_bonds") with true.
  change (Dict.get _ "defensive_bias" 0) with 0.15.
  change (Dict.get _ "increase_bonds" 0) with 0.1.
  cbn [andb].
  destruct (any_in defensive_tickers (upper s)),
           (any_in bond_tickers (upper s)); lra.
Qed.

Lemma bull_adjustment (s : string) (c : Q) :
  regime_adjustment "Bull" s c ==
  (if any_in growth_tickers (upper s) then 0.1 * c else 0) +
  (if any_in bond_tickers (upper s) then -0.05 * c else 0).
Proof.
  unfold regime_adjustment, tilt_adjustment.
  change (Dict.get regime_tilts "Bull" [])
    with [("growth_bias", 0.1); ("reduce_bonds", -0.05);
          ("increase_momentum", 0.05)].
  change (Dict.contains _ "growth_bias") with true.
  change (Dict.contains _ "defensive_bias") with false.
  change (Dict.contains _ "reduce_bonds") with true.
  change (Dict.contains _ "increase_bonds") with false.
  change (Dict.get _ "growth_bias" 0) with 0.1.
  change (Dict.get _ "reduce_bonds" 0) with (-0.05).
  cbn [andb].
  destruct (any_in growth_tickers (upper s)),
           (any_in bond_tickers (upper s)); lra.
Qed.

Lemma volatile_and_stable_adjustment (s : string) (c : Q) :
  regime_adjustment "Volatile" s c = 0 /\ regime_adjustment "Stable" s c = 0.
Proof. split; reflexivity. Qed.

(** C5.  The code at a growth-tagged symbol under a Bear regime: QQQ
    receives the adjustment [0], not [-0.10 * confidence], and its weight
    goes unchanged into the renormalisation.  ([reduce_growth] is in the
    table of tilts and no line of the loop reads it.) *)
Theorem C5_bear_leaves_growth_unadjusted :
  any_in growth_tickers (upper "QQQ") = true /\
  regime_adjustment "Bear" "QQQ" 0.8 == 0 /\
  ~ regime_adjustment "Bear" "QQQ" 0.8 == - (0.1 * 0.8) /\
  dict_equiv
    (tilted_before_renormalize [("QQQ", Fin 0.5); ("SPY", Fin 0.5)] "Bear" 0.8)
    [("QQQ", 0.5); ("SPY", 0.5)].
Proof.
  split; [reflexivity|]. split; [|split].
  - apply Qeq_bool_iff. vm_compute. reflexivity.
  - intros H. apply Qeq_bool_iff in H. vm_compute in H. discriminate.
  - apply dict_equivb_sound. vm_compute. reflexivity.
Qed.

(** ** C6: what an optimizer returns when its solve fails *)

(** C6, counterexample.  A covariance of zeros is singular:
    [np.linalg.inv(tau * sigma)] raises [LinAlgError] at line 455, and on
    a portfolio held 60/40 the optimizer returns [[0.6, 0.4]], which is
    not the equal-weight vector [[0.5, 0.5]]. *)
Lemma C6_counterexample :
  black_litterman_weights stationary_backend
    [Fin 0.08; Fin 0.03] [[Fin 0; Fin 0]; [Fin 0; Fin 0]]
    [Fin 0.6; Fin 0.4] = Raise LinAlgError /\
  black_litterman_optimization stationary_backend
    [Fin 0.08; Fin 0.03] [[Fin 0; Fin 0]; [Fin 0; Fin 0]]
    [Fin 0.6; Fin 0.4] = [Fin 0.6; Fin 0.4] /\
  equal_weights 2 = [Fin (1 / 2); Fin (1 / 2)] /\
  ~ 0.6 == 1 / 2.
Proof.
  split; [reflexivity|]. split; [reflexivity|]. split; [reflexivity|].
  intros H. apply Qeq_bool_iff in H. vm_compute in H. discriminate.
Qed.

(** C6, amended.  Mean-variance, risk-parity and minimum-variance
    return the equal-weight vector (1/N for each of the N assets)
    whenever [minimize] raises or does not converge.  Black-Litterman has
    no convergence test; when its linear algebra raises it returns the
    current-weight vector it was given. *)
Theorem C6_fallback_vectors (B : Backend) (mu : ndarray) (sigma : matrix)
    (risk_target : Q) (current_w : ndarray) :
  (solve_failed (minimize B (mean_variance_problem mu sigma risk_target)) = true ->
   mean_variance_optimization B mu sigma risk_target
   = repeat (Fin (1 / inject_Z (Z.of_nat (List.length mu)))) (List.length mu)) /\
  (solve_failed (minimize B (risk_parity_problem sigma)) = true ->
   risk_parity_optimization B sigma
   = repeat (Fin (1 / inject_Z (Z.of_nat (List.length sigma)))) (List.length sigma)) /\
  (solve_failed (minimize B (minimum_variance_problem sigma)) = true ->
   minimum_variance_optimization B sigma
   = repeat (Fin (1 / inject_Z (Z.of_nat (List.length sigma)))) (List.length sigma)) /\
  (forall e, black_litterman_weights B mu sigma current_w = Raise e ->
   black_litterman_optimization B mu sigma current_w = current_w).
Proof.
  split; [|split; [|split]].
  - unfold mean_variance_optimization.
    destruct (minimize B _) as [res|e]; cbn [solve_failed bind try_except].
    + intros H. apply negb_true_iff in H. now rewrite H.
    + reflexivity.
  - unfold risk_parity_optimization.
    destruct (minimize B _) as [res|e]; cbn [solve_failed bind try_except].
    + intros H. apply negb_true_iff in H. now rewrite H.
    + reflexivity.
  - unfold minimum_variance_optimization.
    destruct (minimize B _) as [res|e]; cbn [solve_failed bind try_except].
    + intros H. apply negb_true_iff in H. now rewrite H.
    + reflexivity.
  - intros e H. unfold black_litterman_optimization. now rewrite H.
Qed.

Lemma C6_witness :
  mean_variance_optimization stalled_backend [Fin 0.08; Fin 0.03]
    (diagonal_covariance ["SPY"; "TLT"] []) 0.15
  = repeat (Fin (1 / inject_Z (Z.of_nat 2))) 2 /\
  risk_parity_optimization stalled_backend (diagonal_covariance ["SPY"; "TLT"] [])
  = repeat (Fin (1 / inject_Z (Z.of_nat 2))) 2 /\
  minimum_variance_optimization stalled_backend
    (diagonal_covariance ["SPY"; "TLT"] [])
  = repeat (Fin (1 / inject_Z (Z.of_nat 2))) 2 /\
  black_litterman_optimization stationary_backend [Fin 0.08; Fin 0.03]
    [[Fin 0; Fin 0]; [Fin 0; Fin 0]] [Fin 0.6; Fin 0.4]
  = [Fin 0.6; Fin 0.4].
Proof.
  destruct (C6_fallback_vectors stalled_backend [Fin 0.08; Fin 0.03]
              (diagonal_covariance ["SPY"; "TLT"] []) 0.15 [Fin 0.6; Fin 0.4])
    as (Hmv & Hrp & Hmin & _).
  destruct (C6_fallback_vectors stationary_backend [Fin 0.08; Fin 0.03]
              [[Fin 0; Fin 0]; [Fin 0; Fin 0]] 0.15 [Fin 0.6; Fin 0.4])
    as (_ & _ & _ & Hbl).
  split; [apply Hmv; reflexivity|].
  split; [apply Hrp; reflexivity|].
  split; [apply Hmin; reflexivity|].
  apply (Hbl LinAlgError). reflexivity.
Defined.

(** ** C7: the empty weight map *)

(** C7, counterexample.  On [current_weights = {}] the response has no
    [success] key at all: it is not [success = False]. *)
Lemma C7_counterexample :
  exists resp,
    calculate_dynamic_allocation stalled_backend
      (JsonObject {| current_weights := Some (PyDict []);
                     market_regime := Some "Bull";
                     regime_confidence := Some 0.7;
                     ml_predictions := None;
                     risk_adjustment := None |}) = Ok resp /\
    success resp = None /\
    success resp <> Some false.
Proof.
  eexists. split; [reflexivity|]. split; [reflexivity|discriminate].
Qed.

(** C7, amended.  When [current_weights] is the empty map (or absent, or
    any other falsy value), [calculate_dynamic_allocation] returns,
    without raising and without consulting any optimizer, the response
    [{"error": "No current weights provided"}]: it has an [error] field
    and no [success] field. *)
Theorem C7_empty_weights_error_only (B : Backend) (r : request) :
  truthy (or_default (current_weights r) (PyDict [])) = false ->
  calculate_dynamic_allocation B (JsonObject r)
  = Ok {| success := None;
          optimal_weights := None;
          error := Some "No current weights provided";
          optimization_method := None;
          fallback_mode := None |}.
Proof.
  intros H. unfold calculate_dynamic_allocation, allocation_body.
  now rewrite H.
Qed.

Lemma C7_witness :
  calculate_dynamic_allocation stationary_backend
    (JsonObject {| current_weights := Some (PyDict []);
                   market_regime := Some "Bear";
                   regime_confidence := Some 0.8;
                   ml_predictions := None;
                   risk_adjustment := None |})
  = Ok {| success := None;
          optimal_weights := None;
          error := Some "No current weights provided";
          optimization_method := None;
          fallback_mode := None |}.
Proof.
  apply (C7_empty_weights_error_only stationary_backend). reflexivity.
Defined.

(** ** C10: the bounds of the risk-parity solve *)

Lemma all_within_lower (lo hi : Q) (n : nat) (v : ndarray) :
  all_within (repeat (lo, hi) n) v = true -> Forall (finite_at_least lo) v.
Proof.
  revert v. induction n as [|n IH]; intros [|q v] H; simpl in H;
    try discriminate.
  - constructor.
  - apply andb_true_iff in H. destruct H as [Hq Hv].
    constructor; [|now apply IH].
    destruct q as [q|]; [|discriminate]. cbn [within fst snd] in Hq.
    apply andb_true_iff in Hq. destruct Hq as [Hlo _].
    exists q. split; [reflexivity|now apply Qle_bool_iff].
Qed.

Lemma fmaximum0_nonneg (v : npfloat) :
  fmaximum0 v = NaN \/ finite_at_least 0 (fmaximum0 v).
Proof.
  destruct v as [q|]; [right|now left].
  exists (max0 q). split; [reflexivity|]. unfold max0.
  destruct (Qgtb q 0) eqn:E; [apply Qgtb_true in E|]; lra.
Qed.

Lemma np_sum_acc (a : ndarray) (acc : Q) :
  0 <= acc ->
  Forall (fun v => v = NaN \/ finite_at_least 0 v) a ->
  fold_left fadd a (Fin acc) = NaN \/
  finite_at_least 0 (fold_left fadd a (Fin acc)).
Proof.
  revert acc. induction a as [|v a IH]; intros acc Hacc Ha; cbn [fold_left].
  - right. exists acc. now split.
  - inversion Ha as [|? ? Hv Hrest]; subst.
    destruct Hv as [->|[q [-> Hq]]].
    + left. cbn [fadd]. clear. induction a as [|w a IH]; [reflexivity|exact IH].
    + cbn [fadd]. apply IH; [lra|assumption].
Qed.

Lemma fdiv_nonneg (v s : npfloat) :
  (v = NaN \/ finite_at_least 0 v) -> (s = NaN \/ finite_at_least 0 s) ->
  fdiv v s = NaN \/ finite_at_least 0 (fdiv v s).
Proof.
  intros [->|[p [-> Hp]]] [->|[q [-> Hq]]]; try (now left).
  cbn [fdiv]. destruct (Qeq_bool q 0) eqn:E; [now left|right].
  apply Qeq_bool_neq in E. exists (p / q). split; [reflexivity|].
  apply Qle_shift_div_l; lra.
Qed.

(** C10.  For every covariance input the risk-parity optimizer hands
    [minimize] the bounds [(0.01, max_weight)] for every asset, whereas
    mean-variance and minimum-variance hand it [(min_weight, max_weight)]
    with [min_weight = 0], and Black-Litterman clips at 0.  With a solver
    that keeps a converged [result.x] within its bounds, every converged
    risk-parity candidate gives every asset at least 1%. *)
Theorem C10_risk_parity_lower_bound (B : Backend) (mu : ndarray) (sigma : matrix)
    (risk_target : Q) (current_w : ndarray) :
  respects_bounds B ->
  bounds (risk_parity_problem sigma)
  = repeat (0.01, max_weight allocation_constraints) (List.length sigma) /\
  bounds (mean_variance_problem mu sigma risk_target)
  = repeat (min_weight allocation_constraints, max_weight allocation_constraints)
      (List.length mu) /\
  bounds (minimum_variance_problem sigma)
  = repeat (min_weight allocation_constraints, max_weight allocation_constraints)
      (List.length sigma) /\
  min_weight allocation_constraints == 0 /\
  max_weight allocation_constraints == 0.4 /\
  (forall res,
     minimize B (risk_parity_problem sigma) = Ok res ->
     OptimizeResult.success res = true ->
     risk_parity_optimization B sigma = OptimizeResult.x res /\
     Forall (finite_at_least 0.01) (risk_parity_optimization B sigma)) /\
  (forall w,
     black_litterman_weights B mu sigma current_w = Ok w ->
     Forall (fun v => v = NaN \/ finite_at_least 0 v)
       (black_litterman_optimization B mu sigma current_w)).
Proof.
  intros Hbounds.
  split; [reflexivity|]. split; [reflexivity|]. split; [reflexivity|].
  split; [reflexivity|]. split; [reflexivity|]. split.
  - intros res Hres Hok.
    assert (E : risk_parity_optimization B sigma = OptimizeResult.x res).
    { unfold risk_parity_optimization. rewrite Hres. cbn [bind try_except].
      now rewrite Hok. }
    split; [exact E|]. rewrite E.
    apply (all_within_lower 0.01 (max_weight allocation_constraints)
             (List.length sigma)).
    exact (Hbounds _ _ Hres Hok).
  - intros w Hw. unfold black_litterman_optimization. rewrite Hw.
    cbn [bind try_except]. unfold np_div.
    assert (Hclip : Forall (fun v => v = NaN \/ finite_at_least 0 v)
                      (np_maximum0 w)).
    { unfold np_maximum0. apply Forall_forall. intros v Hin.
      apply in_map_iff in Hin. destruct Hin as [u [<- _]].
      apply fmaximum0_nonneg. }
    pose proof (np_sum_acc (np_maximum0 w) 0 ltac:(lra) Hclip) as Hsum.
    fold (np_sum (np_maximum0 w)) in Hsum.
    apply Forall_forall. intros v Hin. apply in_map_iff in Hin.
    destruct Hin as [u [<- Hu]]. apply fdiv_nonneg; [|exact Hsum].
    rewrite Forall_forall in Hclip. now apply Hclip.
Qed.

Lemma C10_witness :
  bounds (risk_parity_problem (diagonal_covariance ["SPY"; "TLT"; "GLD"] []))
  = repeat (0.01, max_weight allocation_constraints) 3 /\
  Forall (finite_at_least 0.01)
    (risk_parity_optimization stationary_backend
       (diagonal_covariance ["SPY"; "TLT"; "GLD"] [])).
Proof.
  assert (Hb : respects_bounds stationary_backend).
  { intros p res H Hok. injection H as <-. exact Hok. }
  destruct (C10_risk_parity_lower_bound stationary_backend
              [Fin 0.08; Fin 0.03; Fin 0.05]
              (diagonal_covariance ["SPY"; "TLT"; "GLD"] []) 0.15
              [Fin 0.5; Fin 0.3; Fin 0.2] Hb)
    as (Hrp & _ & _ & _ & _ & Hconv & _).
  split; [exact Hrp|].
  apply (Hconv {| OptimizeResult.success := true;
                  OptimizeResult.x := equal_weights 3 |}); reflexivity.
Defined.

(** * Further properties *)

(** ** The projector: symbols, error path, fixed points *)

Lemma getitem_missing {V : Type} (d : dict V) k :
  ~ In k (Dict.keys d) -> Dict.getitem d k = Raise KeyError.
Proof.
  induction d as [|[k' v'] d IH]; intros H; simpl in *.
  - reflexivity.
  - destruct (String.eqb_spec k k') as [->|Hne].
    + exfalso. apply H. now left.
    + apply IH. intros Hin. apply H. now right.
Qed.

Lemma keys_setitem_present {V : Type} (d : dict V) k v :
  In k (Dict.keys d) -> Dict.keys (Dict.setitem d k v) = Dict.keys d.
Proof.
  induction d as [|[k' v'] d IH]; intros H; simpl in *.
  - contradiction.
  - destruct (String.eqb_spec k k') as [->|Hne]; simpl.
    + reflexivity.
    + f_equal. apply IH. destruct H as [H|H]; [congruence|assumption].
Qed.

Lemma for_symbols_Ok_keys body l d d' :
  for_symbols body l d = Ok d' -> Dict.keys d' = Dict.keys d.
Proof.
  revert d. induction l as [|s rest IH]; intros d H; simpl in H.
  - now injection H as <-.
  - destruct (Dict.getitem d s) as [w|e] eqn:E; cbn [bind] in H; [|discriminate].
    apply IH in H. rewrite H.
    destruct (body s w); [|reflexivity].
    apply keys_setitem_present.
    apply getitem_Ok_In in E. exact (In_keys d s w E).
Qed.

Lemma for_symbols_missing body l d s :
  In s l -> ~ In s (Dict.keys d) -> exists e, for_symbols body l d = Raise e.
Proof.
  revert d. induction l as [|s' rest IH]; intros d Hin Hmiss; simpl.
  - contradiction.
  - destruct (Dict.getitem d s') as [w|e] eqn:E; cbn [bind].
    + destruct Hin as [->|Hin].
      * rewrite (getitem_missing d s Hmiss) in E. discriminate.
      * apply IH; [assumption|].
        destruct (body s' w); [|assumption].
        rewrite keys_setitem_present; [assumption|].
        apply getitem_Ok_In in E. exact (In_keys d s' w E).
    + now exists e.
Qed.

Lemma ensure_min_diversification_Ok_keys symbols d d' :
  ensure_min_diversification symbols d = Ok d' -> Dict.keys d' = Dict.keys d.
Proof.
  unfold ensure_min_diversification.
  destruct (Nat.ltb _ _).
  - destruct (sorted_by_weight_desc symbols d) as [top|e]; cbn [bind];
      [|discriminate].
    apply for_symbols_Ok_keys.
  - intros H. now injection H as <-.
Qed.

Lemma limit_turnover_Ok_keys symbols d current_weights d' :
  limit_turnover symbols d current_weights = Ok d' -> Dict.keys d' = Dict.keys d.
Proof.
  unfold limit_turnover.
  destruct (total_turnover symbols d current_weights) as [t|e]; cbn [bind];
    [|discriminate].
  destruct (Qgtb t _).
  - apply for_symbols_Ok_keys.
  - intros H. now injection H as <-.
Qed.

Lemma turnover_limited_weights_Ok_keys w current_weights symbols t :
  turnover_limited_weights w current_weights symbols = Ok t ->
  Dict.keys t = Dict.keys w.
Proof.
  unfold turnover_limited_weights, bounded_weights, cap_max_weight,
    floor_min_weight.
  destruct (for_symbols _ symbols w) as [c|e] eqn:Ec; cbn [bind]; [|discriminate].
  destruct (for_symbols _ symbols c) as [f|e] eqn:Ef; cbn [bind]; [|discriminate].
  destruct (ensure_min_diversification symbols f) as [b|e] eqn:Eb; cbn [bind];
    [|discriminate].
  intros Ht. apply limit_turnover_Ok_keys in Ht.
  apply ensure_min_diversification_Ok_keys in Eb.
  apply for_symbols_Ok_keys in Ef. apply for_symbols_Ok_keys in Ec.
  congruence.
Qed.

(** X1.  The projector never adds, drops or reorders a symbol: whatever the
    weights, the current weights and the symbol list are, and on the
    exception path too, the result has the keys of [weights]. *)
Theorem apply_allocation_constraints_keeps_symbols
    (w current_weights : dict Q) (symbols : list string) :
  Dict.keys (apply_allocation_constraints w current_weights symbols)
  = Dict.keys w.
Proof.
  unfold apply_allocation_constraints.
  destruct (turnover_limited_weights w current_weights symbols) as [t|e] eqn:E;
    cbn [bind try_except].
  - rewrite keys_renormalize. now apply turnover_limited_weights_Ok_keys in E.
  - reflexivity.
Qed.

(** X2.  A symbol of the request that the weight map lacks makes the first
    loop raise [KeyError]; the handler returns the weights as they came:
    not capped, not limited, not renormalised. *)
Theorem apply_allocation_constraints_missing_symbol
    (w current_weights : dict Q) (symbols : list string) (s : string) :
  In s symbols -> ~ In s (Dict.keys w) ->
  apply_allocation_constraints w current_weights symbols = w.
Proof.
  intros Hin Hmiss. unfold apply_allocation_constraints,
    turnover_limited_weights, bounded_weights, cap_max_weight.
  destruct (for_symbols_missing
              (fun _ w0 => if Qgtb w0 (max_weight allocation_constraints)
                           then Some (max_weight allocation_constraints)
                           else None) symbols w s Hin Hmiss) as [e He].
  rewrite He. reflexivity.
Qed.

Lemma apply_allocation_constraints_missing_symbol_witness :
  apply_allocation_constraints [("SPY", 0.9)] [("SPY", 0.5); ("TLT", 0.5)]
    ["SPY"; "TLT"] = [("SPY", 0.9)].
Proof.
  apply (apply_allocation_constraints_missing_symbol _ _ _ "TLT").
  - right. left. reflexivity.
  - intros [H|[]]. discriminate H.
Defined.

Lemma map_items_unchanged (f : string -> Q -> Q) (d : dict Q) :
  (forall k v, In (k, v) d -> f k v = v) -> Dict.map_items f d = d.
Proof.
  unfold Dict.map_items. induction d as [|[k v] d IH]; intros H; cbn [map].
  - reflexivity.
  - cbn [fst snd]. rewrite (H k v (or_introl eq_refl)). f_equal.
    apply IH. intros k' v' Hin. apply H. now right.
Qed.

Lemma In_values (d : dict Q) k v : In (k, v) d -> In v (Dict.values d).
Proof.
  intros H. unfold Dict.values. change v with (snd (k, v)). now apply in_map.
Qed.

(** X3.  A target that already meets every constraint is returned as it is
    (as rationals): within the bounds, at least [min_diversification]
    positions above 1%, within the turnover cap of the current weights,
    and summing to 1. *)
Theorem apply_allocation_constraints_feasible_target
    (w current_weights : dict Q) (symbols : list string) :
  distinct symbols = true -> Dict.keys w = symbols ->
  all_values within_bounds w ->
  (min_diversification allocation_constraints <= non_zero_positions w)%nat ->
  sum (map (turnover_term current_weights) w)
  <= max_turnover allocation_constraints ->
  sum (Dict.values w) == 1 ->
  dict_equiv (apply_allocation_constraints w current_weights symbols) w.
Proof.
  intros Hd Hk Hb Hcount Hturn Hsum. apply distinct_NoDup in Hd.
  assert (Hnd : NoDup (Dict.keys w)) by now rewrite Hk.
  unfold all_values in Hb. rewrite Forall_forall in Hb.
  assert (Hcap : cap_max_weight symbols w = Ok w).
  { unfold cap_max_weight. rewrite for_symbols_all by (assumption || now symmetry).
    apply f_equal. apply map_items_unchanged. intros k v Hin.
    destruct (Hb v (In_values w k v Hin)) as [_ Hv].
    unfold apply_body.
    assert (E : Qgtb v (max_weight allocation_constraints) = false)
      by now apply Qgtb_false.
    now rewrite E. }
  assert (Hfloor : floor_min_weight symbols w = Ok w).
  { unfold floor_min_weight. rewrite for_symbols_all by (assumption || now symmetry).
    apply f_equal. apply map_items_unchanged. intros k v Hin.
    destruct (Hb v (In_values w k v Hin)) as [Hv _].
    unfold apply_body.
    assert (E : Qltb v (min_weight allocation_constraints) = false)
      by now apply Qltb_false.
    now rewrite E. }
  assert (Hdiv : ensure_min_diversification symbols w = Ok w).
  { unfold ensure_min_diversification.
    destruct (Nat.ltb_spec (non_zero_positions w)
                (min_diversification allocation_constraints)); [lia|reflexivity]. }
  assert (Hlim : limit_turnover symbols w current_weights = Ok w).
  { unfold limit_turnover. rewrite <- Hk, total_turnover_keys by assumption.
    cbn [bind].
    assert (E : Qgtb (sum (map (turnover_term current_weights) w))
                  (max_turnover allocation_constraints) = false)
      by now apply Qgtb_false.
    now rewrite E. }
  unfold apply_allocation_constraints, turnover_limited_weights, bounded_weights.
  rewrite Hcap. cbn [bind]. rewrite Hfloor. cbn [bind]. rewrite Hdiv. cbn [bind].
  rewrite Hlim. cbn [bind try_except].
  now apply renormalize_unit.
Qed.

Lemma apply_allocation_constraints_feasible_target_witness :
  dict_equiv
    (apply_allocation_constraints
       [("SPY", 0.4); ("TLT", 0.35); ("GLD", 0.25)]
       [("SPY", 0.5); ("TLT", 0.3); ("GLD", 0.2)]
       ["SPY"; "TLT"; "GLD"])
    [("SPY", 0.4); ("TLT", 0.35); ("GLD", 0.25)].
Proof.
  apply apply_allocation_constraints_feasible_target.
  - reflexivity.
  - reflexivity.
  - unfold all_values. cbn [Dict.values map snd].
    repeat (apply Forall_cons;
            [unfold within_bounds;
             cbn [min_weight max_weight allocation_constraints]; lra|]).
    apply Forall_nil.
  - vm_compute. lia.
  - apply Qle_bool_iff. vm_compute. reflexivity.
  - apply Qeq_bool_iff. vm_compute. reflexivity.
Defined.

(** X4.  The turnover step: within the cap the weights are left alone;
    above it, the scaled weights sit exactly on the cap. *)
Theorem limit_turnover_lands_on_cap (b current_weights : dict Q)
    (symbols : list string) :
  distinct symbols = true -> Dict.keys b = symbols ->
  exists t,
    limit_turnover symbols b current_weights = Ok t /\
    (sum (map (turnover_term current_weights) b)
     <= max_turnover allocation_constraints -> t = b) /\
    (max_turnover allocation_constraints
     < sum (map (turnover_term current_weights) b) ->
     sum (map (turnover_term current_weights) t)
     == max_turnover allocation_constraints).
Proof.
  intros Hd Hk. apply distinct_NoDup in Hd. subst symbols.
  unfold limit_turnover. rewrite total_turnover_keys by assumption. cbn [bind].
  set (turnover := sum (map (turnover_term current_weights) b)).
  destruct (Qgtb turnover (max_turnover allocation_constraints)) eqn:E.
  - apply Qgtb_true in E.
    destruct (scale_in_unit turnover E) as [Hs0 Hs1].
    set (turnover_scale := max_turnover allocation_constraints / turnover) in *.
    rewrite (for_symbols_all (scaled_change current_weights turnover_scale))
      by (assumption || reflexivity).
    eexists. split; [reflexivity|]. split.
    + intros Hle. exfalso. apply (Qlt_not_le _ _ E Hle).
    + intros _. unfold Dict.map_items. rewrite map_map.
      rewrite (sum_map_ext _
                 (fun kv => Qabs ((snd kv - Dict.get current_weights (fst kv) 0)
                                  * turnover_scale))).
      2:{ intros [k v] _. unfold turnover_term, apply_body, scaled_change.
          cbn [fst snd]. apply Qabs_wd. ring. }
      rewrite (sum_map_abs_scale
                 (fun kv => snd kv - Dict.get current_weights (fst kv) 0))
        by lra.
      fold (turnover_term current_weights). fold turnover.
      unfold turnover_scale. field.
      cbn [max_turnover allocation_constraints] in E. lra.
  - apply Qgtb_false in E.
    eexists. split; [reflexivity|]. split; [reflexivity|].
    intros Hlt. exfalso. apply (Qlt_not_le _ _ Hlt E).
Qed.

Lemma limit_turnover_lands_on_cap_witness :
  exists t,
    limit_turnover ["SPY"; "TLT"] [("SPY", 0.4); ("TLT", 0.4)]
      [("SPY", 0.9); ("TLT", 0.1)] = Ok t /\
    (sum (map (turnover_term [("SPY", 0.9); ("TLT", 0.1)])
            [("SPY", 0.4); ("TLT", 0.4)])
     <= max_turnover allocation_constraints -> t = [("SPY", 0.4); ("TLT", 0.4)]) /\
    (max_turnover allocation_constraints
     < sum (map (turnover_term [("SPY", 0.9); ("TLT", 0.1)])
              [("SPY", 0.4); ("TLT", 0.4)]) ->
     sum (map (turnover_term [("SPY", 0.9); ("TLT", 0.1)]) t)
     == max_turnover allocation_constraints).
Proof.
  apply (limit_turnover_lands_on_cap [("SPY", 0.4); ("TLT", 0.4)]
           [("SPY", 0.9); ("TLT", 0.1)] ["SPY"; "TLT"]); reflexivity.
Defined.

(** ** The regime tilts and the risk target *)

Lemma max0_nonneg q : 0 <= max0 q.
Proof.
  unfold max0. destruct (Qgtb q 0) eqn:E; [apply Qgtb_true in E|]; lra.
Qed.

Lemma py_max0_nonneg v : 0 <= py_max0 v.
Proof. destruct v as [q|]; [apply max0_nonneg|cbn; lra]. Qed.

Lemma sum_zero_all_zero (l : list Q) :
  Forall (fun x => 0 <= x) l -> sum l <= 0 -> Forall (fun x => x == 0) l.
Proof.
  induction 1 as [|x l Hx Hl IH]; intros Hs.
  - constructor.
  - rewrite sum_cons in Hs. pose proof (sum_nonneg l Hl) as Hnn.
    constructor; [lra|]. apply IH. lra.
Qed.

Lemma tilted_before_renormalize_nonneg optimal_weights market_regime confidence :
  all_values (fun v => 0 <= v)
    (tilted_before_renormalize optimal_weights market_regime confidence).
Proof.
  unfold all_values, tilted_before_renormalize, Dict.values, Dict.map_items.
  rewrite map_map. apply Forall_forall. intros v Hin.
  apply in_map_iff in Hin. destruct Hin as [kv [<- _]]. cbn [snd].
  apply py_max0_nonneg.
Qed.

(** X5.  Whatever the weights (finite or [nan]), the regime and the
    confidence are, the tilted weights are not negative, and they sum to
    1 unless every one of them is 0. *)
Theorem apply_regime_tilts_normalised
    (optimal_weights : dict npfloat) (market_regime : string) (confidence : Q) :
  all_values (fun v => 0 <= v)
    (apply_regime_tilts optimal_weights market_regime confidence) /\
  (sum (Dict.values (apply_regime_tilts optimal_weights market_regime confidence))
   == 1 \/
   all_values (fun v => v == 0)
     (apply_regime_tilts optimal_weights market_regime confidence)).
Proof.
  unfold apply_regime_tilts.
  pose proof (tilted_before_renormalize_nonneg optimal_weights market_regime
                confidence) as Hnn.
  set (t := tilted_before_renormalize optimal_weights market_regime confidence)
    in *.
  destruct (Qlt_le_dec 0 (sum (Dict.values t))) as [Hpos|Hzero].
  - destruct (renormalize_spec t Hnn Hpos) as [Hsum Hall]. split; [assumption|].
    now left.
  - assert (E : renormalize t = t).
    { unfold renormalize.
      assert (Eb : Qgtb (sum (Dict.values t)) 0 = false) by now apply Qgtb_false.
      now rewrite Eb. }
    rewrite E. split; [assumption|]. right.
    now apply sum_zero_all_zero.
Qed.

Lemma neutral_regime_adjustment (market_regime symbol_upper : string) (c : Q) :
  market_regime <> "Bull" -> market_regime <> "Bear" ->
  tilt_adjustment (Dict.get regime_tilts market_regime []) symbol_upper c = 0.
Proof.
  intros Hbull Hbear. unfold Dict.get, regime_tilts. cbn [Dict.getitem].
  destruct (String.eqb_spec market_regime "Bull"); [contradiction|].
  destruct (String.eqb_spec market_regime "Bear"); [contradiction|].
  destruct (String.eqb_spec market_regime "Volatile"); [reflexivity|].
  destruct (String.eqb_spec market_regime "Stable"); reflexivity.
Qed.

Lemma dict_equiv_trans d1 d2 d3 :
  dict_equiv d1 d2 -> dict_equiv d2 d3 -> dict_equiv d1 d3.
Proof.
  intros H12. revert d3. induction H12 as [|a b d1 d2 [Hk Hv] _ IH];
    intros d3 H23; inversion H23 as [|? c ? d3' [Hk' Hv'] Hrest]; subst.
  - constructor.
  - constructor; [|now apply IH].
    split; [congruence|]. now rewrite Hv.
Qed.

(** X6.  Outside Bull and Bear -- Volatile, Stable, or a regime the table
    does not know -- the tilt step is the identity on a normalised
    weight map: finite weights that are not negative and sum to 1 come
    back unchanged (as rationals). *)
Theorem apply_regime_tilts_neutral
    (optimal_weights : dict npfloat) (market_regime : string) (confidence : Q) :
  market_regime <> "Bull" -> market_regime <> "Bear" ->
  Forall finite_nonneg (Dict.values optimal_weights) ->
  sum (map float_value (Dict.values optimal_weights)) == 1 ->
  dict_equiv (apply_regime_tilts optimal_weights market_regime confidence)
             (Dict.map_items (fun _ v => float_value v) optimal_weights).
Proof.
  intros Hbull Hbear Hfin Hsum.
  assert (Ht : dict_equiv
                 (tilted_before_renormalize optimal_weights market_regime
                    confidence)
                 (Dict.map_items (fun _ v => float_value v) optimal_weights)).
  { clear Hsum.
    unfold tilted_before_renormalize, Dict.map_items, Dict.values in *.
    induction optimal_weights as [|[k v] d IH]; cbn [map]; constructor.
    - apply Forall_inv in Hfin. destruct Hfin as [q [Hq Hq0]].
      cbn [snd] in Hq. subst v.
      split; cbn [fst snd]; [reflexivity|].
      rewrite (neutral_regime_adjustment _ _ _ Hbull Hbear).
      cbn [fadd py_max0 float_value]. unfold max0.
      destruct (Qgtb (q + 0) 0) eqn:E; [lra|]. apply Qgtb_false in E. lra.
    - apply IH. now apply Forall_inv_tail in Hfin. }
  assert (Hs : sum (Dict.values
                      (tilted_before_renormalize optimal_weights market_regime
                         confidence)) == 1).
  { rewrite (sum_equiv _ _ (dict_equiv_values _ _ Ht)).
    unfold Dict.values, Dict.map_items in *. rewrite map_map. cbn [snd].
    rewrite map_map in Hsum. exact Hsum. }
  unfold apply_regime_tilts.
  exact (dict_equiv_trans _ _ _ (renormalize_unit _ Hs) Ht).
Qed.

Lemma apply_regime_tilts_neutral_witness :
  dict_equiv
    (apply_regime_tilts [("QQQ", Fin 0.7); ("TLT", Fin 0.3)] "Volatile" 0.9)
    (Dict.map_items (fun _ v => float_value v)
       [("QQQ", Fin 0.7); ("TLT", Fin 0.3)]).
Proof.
  apply apply_regime_tilts_neutral.
  - discriminate.
  - discriminate.
  - repeat (apply Forall_cons; [eexists; split; [reflexivity|lra]|]).
    apply Forall_nil.
  - apply Qeq_bool_iff. vm_compute. reflexivity.
Defined.

Lemma regime_factor_cases (market_regime : string) :
  Dict.get regime_risk_adjustments market_regime 1.0 = 1.1 \/
  Dict.get regime_risk_adjustments market_regime 1.0 = 0.6 \/
  Dict.get regime_risk_adjustments market_regime 1.0 = 0.7 \/
  Dict.get regime_risk_adjustments market_regime 1.0 = 1.0.
Proof.
  unfold Dict.get, regime_risk_adjustments. cbn [Dict.getitem].
  destruct (String.eqb market_regime "Bull"); [now left|].
  destruct (String.eqb market_regime "Bear"); [right; now left|].
  destruct (String.eqb market_regime "Volatile"); [right; right; now left|].
  destruct (String.eqb market_regime "Stable"); right; right; right; reflexivity.
Qed.

(** X7.  The adjusted risk target stays between half and one and a half
    times the 15% base, for every regime string and every confidence,
    inside [[0, 1]] or not. *)
Theorem calculate_adjusted_risk_target_bounds (market_regime : string) (c : Q) :
  0.075 <= calculate_adjusted_risk_target market_regime c <= 0.225.
Proof.
  unfold calculate_adjusted_risk_target, target_volatility.
  generalize (0.15 * Dict.get regime_risk_adjustments market_regime 1.0
              * (1.0 + (c - 0.5) * 0.4)).
  intros adjusted. unfold py_max, py_min.
  destruct (Qltb adjusted (0.15 * 1.5)) eqn:E1;
    [apply Qltb_true in E1|apply Qltb_false in E1].
  - destruct (Qgtb adjusted (0.15 * 0.5)) eqn:E2;
      [apply Qgtb_true in E2|apply Qgtb_false in E2]; lra.
  - destruct (Qgtb (0.15 * 1.5) (0.15 * 0.5)) eqn:E2;
      [apply Qgtb_true in E2|apply Qgtb_false in E2]; lra.
Qed.

(** X8.  For a fixed regime the risk target never decreases when the
    confidence grows. *)
Theorem calculate_adjusted_risk_target_monotone (market_regime : string)
    (c1 c2 : Q) :
  c1 <= c2 ->
  calculate_adjusted_risk_target market_regime c1
  <= calculate_adjusted_risk_target market_regime c2.
Proof.
  intros Hc. unfold calculate_adjusted_risk_target, target_volatility.
  assert (Hmono : 0.15 * Dict.get regime_risk_adjustments market_regime 1.0
                  * (1.0 + (c1 - 0.5) * 0.4)
                  <= 0.15 * Dict.get regime_risk_adjustments market_regime 1.0
                     * (1.0 + (c2 - 0.5) * 0.4)).
  { destruct (regime_factor_cases market_regime) as [E|[E|[E|E]]];
      rewrite E; lra. }
  revert Hmono.
  generalize (0.15 * Dict.get regime_risk_adjustments market_regime 1.0
              * (1.0 + (c1 - 0.5) * 0.4)).
  generalize (0.15 * Dict.get regime_risk_adjustments market_regime 1.0
              * (1.0 + (c2 - 0.5) * 0.4)).
  intros a2 a1 Hle. unfold py_max, py_min.
  destruct (Qltb a1 (0.15 * 1.5)) eqn:E1;
    [apply Qltb_true in E1|apply Qltb_false in E1];
  destruct (Qltb a2 (0.15 * 1.5)) eqn:E2;
    [apply Qltb_true in E2|apply Qltb_false in E2| |];
  repeat match goal with
         | |- context [Qgtb ?x ?y] =>
             let E := fresh "E" in
             destruct (Qgtb x y) eqn:E;
             [apply Qgtb_true in E|apply Qgtb_false in E]
         end; lra.
Qed.

Lemma calculate_adjusted_risk_target_monotone_witness :
  calculate_adjusted_risk_target "Bear" 0.3
  <= calculate_adjusted_risk_target "Bear" 0.9.
Proof.
  apply calculate_adjusted_risk_target_monotone. lra.
Defined.

(** ** The estimator *)

(** X9.  The estimated correlation does not depend on the order of the two
    symbols, and it is a correlation the table allows: between -0.2 and
    0.85. *)
Theorem estimate_asset_correlation_symmetric_bounded (symbol1 symbol2 : string) :
  estimate_asset_correlation symbol1 symbol2
  = estimate_asset_correlation symbol2 symbol1 /\
  -0.2 <= estimate_asset_correlation symbol1 symbol2 <= 0.85.
Proof.
  unfold estimate_asset_correlation.
  destruct (any_in equity_symbols (upper symbol1)),
           (any_in equity_symbols (upper symbol2)),
           (any_in bond_symbols (upper symbol1)),
           (any_in bond_symbols (upper symbol2)),
           (any_in commodity_symbols (upper symbol1)),
           (any_in commodity_symbols (upper symbol2)),
           (any_in international_symbols (upper symbol1)),
           (any_in international_symbols (upper symbol2));
    cbn [andb orb]; (split; [reflexivity|lra]).
Qed.

(** X10.  Two symbols that both match the bond list get the correlation 0.8,
    provided they do not both match the equity list as well (the equity
    rule is tested first). *)
Theorem estimate_asset_correlation_bond_pair (symbol1 symbol2 : string) :
  any_in bond_symbols (upper symbol1) = true ->
  any_in bond_symbols (upper symbol2) = true ->
  any_in equity_symbols (upper symbol1)
  && any_in equity_symbols (upper symbol2) = false ->
  estimate_asset_correlation symbol1 symbol2 = 0.8.
Proof.
  intros H1 H2 He. unfold estimate_asset_correlation.
  now rewrite He, H1, H2.
Qed.

Lemma estimate_asset_correlation_bond_pair_witness :
  estimate_asset_correlation "TLT" "bnd" = 0.8.
Proof.
  apply estimate_asset_correlation_bond_pair; reflexivity.
Defined.

(** X11.  The US-international value 0.7 is returned exactly when both symbols
    match the equity list and one of them also matches the international
    list: a symbol that matches the international list alone is not
    treated as an equity. *)
Theorem estimate_asset_correlation_international (symbol1 symbol2 : string) :
  estimate_asset_correlation symbol1 symbol2 == 0.7 <->
  any_in equity_symbols (upper symbol1)
  && any_in equity_symbols (upper symbol2)
  && (any_in international_symbols (upper symbol1)
      || any_in international_symbols (upper symbol2)) = true.
Proof.
  unfold estimate_asset_correlation.
  destruct (any_in equity_symbols (upper symbol1)),
           (any_in equity_symbols (upper symbol2)),
           (any_in bond_symbols (upper symbol1)),
           (any_in bond_symbols (upper symbol2)),
           (any_in commodity_symbols (upper symbol1)),
           (any_in commodity_symbols (upper symbol2)),
           (any_in international_symbols (upper symbol1)),
           (any_in international_symbols (upper symbol2));
    cbn [andb orb];
    (split; [intros H; try reflexivity; exfalso; revert H; lra
            |intros H; try discriminate H; lra]).
Qed.

Lemma nth_map_seq {A : Type} (f : nat -> A) (n i : nat) (default : A) :
  (i < n)%nat -> nth i (map f (seq 0 n)) default = f i.
Proof.
  intros Hi.
  rewrite (nth_indep _ default (f 0%nat)) by now rewrite length_map, length_seq.
  rewrite map_nth, seq_nth by assumption. reflexivity.
Qed.

Lemma correlation_entry_symmetric symbols i j :
  correlation_entry symbols i j = correlation_entry symbols j i.
Proof.
  unfold correlation_entry.
  destruct (Nat.eqb_spec i j) as [->|Hne].
  - now rewrite Nat.eqb_refl.
  - assert (Hji : Nat.eqb j i = false) by (apply Nat.eqb_neq; congruence).
    rewrite Hji.
    destruct (Nat.ltb_spec i j), (Nat.ltb_spec j i); try reflexivity; lia.
Qed.

(** X12.  The matrix that lines 216-229 hand to [np.linalg.eigh] is N x N and
    symmetric, and its diagonal holds the squared volatility of each
    symbol. *)
Theorem covariance_before_flooring_symmetric (symbols : list string) :
  List.length (covariance_before_flooring symbols) = List.length symbols /\
  Forall (fun row => List.length row = List.length symbols)
    (covariance_before_flooring symbols) /\
  forall i j, (i < List.length symbols)%nat -> (j < List.length symbols)%nat ->
    nth j (nth i (covariance_before_flooring symbols) []) 0
    == nth i (nth j (covariance_before_flooring symbols) []) 0 /\
    nth i (nth i (covariance_before_flooring symbols) []) 0
    == default_volatility (nth i symbols EmptyString)
       * default_volatility (nth i symbols EmptyString).
Proof.
  unfold covariance_before_flooring. split; [|split].
  - now rewrite length_map, length_seq.
  - apply Forall_forall. intros row Hin. apply in_map_iff in Hin.
    destruct Hin as [i [<- _]]. now rewrite length_map, length_seq.
  - intros i j Hi Hj.
    rewrite !(nth_map_seq _ _ _ [] Hi), !(nth_map_seq _ _ _ [] Hj).
    rewrite (nth_map_seq _ _ _ 0 Hj), !(nth_map_seq _ _ _ 0 Hi).
    unfold covariance_entry. split.
    + rewrite (correlation_entry_symmetric symbols i j). ring.
    + unfold correlation_entry. rewrite Nat.eqb_refl. ring.
Qed.

Lemma covariance_before_flooring_symmetric_witness :
  nth 1 (nth 0 (covariance_before_flooring ["SPY"; "TLT"; "GLD"]) []) 0
  == nth 0 (nth 1 (covariance_before_flooring ["SPY"; "TLT"; "GLD"]) []) 0 /\
  nth 0 (nth 0 (covariance_before_flooring ["SPY"; "TLT"; "GLD"]) []) 0
  == default_volatility "SPY" * default_volatility "SPY".
Proof.
  destruct (covariance_before_flooring_symmetric ["SPY"; "TLT"; "GLD"])
    as (_ & _ & H).
  apply (H 0%nat 1%nat); cbn [List.length]; lia.
Defined.

Lemma combine_map_same {V : Type} (f : string -> V) (l : list string) :
  combine l (map f l) = map (fun s => (s, f s)) l.
Proof.
  induction l as [|s l IH]; cbn [map combine]; [reflexivity|now rewrite IH].
Qed.

Lemma of_zip_map {V : Type} (f : string -> V) (l : list string) :
  NoDup l -> Dict.of_zip l (map f l) = map (fun s => (s, f s)) l.
Proof.
  intros Hnd. unfold Dict.of_zip.
  rewrite of_zip_fold; [|assumption|intros k _ []].
  cbn [app]. apply combine_map_same.
Qed.

Lemma fill_expected_returns_keys py_int predictions symbols acc d :
  NoDup symbols -> (forall k, In k symbols -> ~ In k (Dict.keys acc)) ->
  Estimator.fill_expected_returns py_int predictions symbols acc = Some d ->
  Dict.keys d = (Dict.keys acc ++ symbols)%list.
Proof.
  revert acc. induction symbols as [|s rest IH]; intros acc Hnd Hfresh H;
    cbn [Estimator.fill_expected_returns] in H.
  - injection H as <-. now rewrite app_nil_r.
  - inversion Hnd as [|? ? Hnotin Hnd']; subst.
    assert (Hstep : forall v,
              Estimator.fill_expected_returns py_int predictions rest
                (Dict.setitem acc s v) = Some d ->
              Dict.keys d = (Dict.keys acc ++ s :: rest)%list).
    { intros v Hv. apply IH in Hv; [|assumption|].
      - rewrite Hv, setitem_fresh by (apply Hfresh; now left).
        unfold Dict.keys. rewrite map_app. cbn [map fst].
        now rewrite <- app_assoc.
      - intros k Hk Hin. rewrite setitem_fresh in Hin by (apply Hfresh; now left).
        unfold Dict.keys in Hin. rewrite map_app in Hin.
        apply in_app_or in Hin. destruct Hin as [Hin|[Heq|[]]].
        + apply (Hfresh k); [now right|exact Hin].
        + cbn [fst] in Heq. subst. contradiction. }
    destruct (Estimator.symbol_returns py_int predictions s) as [[|r returns]|];
      [eapply Hstep; exact H|eapply Hstep; exact H|discriminate].
Qed.

(** X13.  [extract_expected_returns] returns one entry per requested symbol,
    in the order of the request, on its normal path and on its exception
    path alike -- for every prediction payload and every behaviour of
    [int] on the horizon names. *)
Theorem extract_expected_returns_one_entry_per_symbol
    (py_int : string -> option Z) (predictions : ml_predictions_t)
    (symbols : list string) :
  distinct symbols = true ->
  Dict.keys (Estimator.extract_expected_returns py_int predictions symbols)
  = symbols.
Proof.
  intros Hd. apply distinct_NoDup in Hd.
  unfold Estimator.extract_expected_returns.
  destruct (Estimator.fill_expected_returns py_int predictions symbols [])
    as [d|] eqn:E.
  - apply fill_expected_returns_keys in E; [|assumption|intros k _ []].
    exact E.
  - apply keys_of_zip; [assumption|now rewrite length_map].
Qed.

Lemma extract_expected_returns_one_entry_per_symbol_witness :
  Dict.keys
    (Estimator.extract_expected_returns int_of_digits
       [("5d", [("SPY", Some 0.01)]); ("1m", [("TLT", None)])]
       ["SPY"; "TLT"; "GLD"])
  = ["SPY"; "TLT"; "GLD"].
Proof.
  apply extract_expected_returns_one_entry_per_symbol. reflexivity.
Defined.

Lemma fill_expected_returns_no_predictions py_int symbols acc :
  NoDup symbols -> (forall k, In k symbols -> ~ In k (Dict.keys acc)) ->
  Estimator.fill_expected_returns py_int [] symbols acc
  = Some (acc ++ map (fun s => (s, get_default_expected_return s)) symbols)%list.
Proof.
  revert acc. induction symbols as [|s rest IH]; intros acc Hnd Hfresh;
    cbn [Estimator.fill_expected_returns Estimator.symbol_returns map].
  - now rewrite app_nil_r.
  - inversion Hnd as [|? ? Hnotin Hnd']; subst.
    rewrite setitem_fresh by (apply Hfresh; now left).
    rewrite IH.
    + now rewrite <- app_assoc.
    + assumption.
    + intros k Hk Hin. unfold Dict.keys in Hin. rewrite map_app in Hin.
      apply in_app_or in Hin. destruct Hin as [Hin|[Heq|[]]].
      * apply (Hfresh k); [now right|exact Hin].
      * cbn [fst] in Heq. subst. contradiction.
Qed.

(** X14.  Without predictions every symbol receives the default return of its
    asset class. *)
Theorem extract_expected_returns_defaults
    (py_int : string -> option Z) (symbols : list string) :
  distinct symbols = true ->
  Estimator.extract_expected_returns py_int [] symbols
  = map (fun s => (s, get_default_expected_return s)) symbols.
Proof.
  intros Hd. apply distinct_NoDup in Hd.
  unfold Estimator.extract_expected_returns.
  rewrite fill_expected_returns_no_predictions; [reflexivity|assumption|].
  intros k _ [].
Qed.

Lemma extract_expected_returns_defaults_witness :
  Estimator.extract_expected_returns int_of_digits [] ["TLT"; "QQQ"; "XOM"]
  = map (fun s => (s, get_default_expected_return s)) ["TLT"; "QQQ"; "XOM"].
Proof.
  apply extract_expected_returns_defaults. reflexivity.
Defined.

Lemma symbol_returns_fails py_int predictions horizon horizon_predictions symbol :
  In (horizon, horizon_predictions) predictions ->
  Dict.contains horizon_predictions symbol = true ->
  Estimator.annual_return py_int horizon
    (Dict.get horizon_predictions symbol None) = None ->
  Estimator.symbol_returns py_int predictions symbol = None.
Proof.
  intros Hin Hc Hfail.
  induction predictions as [|[h hp] rest IH]; [contradiction|].
  cbn [Estimator.symbol_returns].
  destruct Hin as [Heq|Hin].
  - injection Heq as -> ->. now rewrite Hc, Hfail.
  - specialize (IH Hin). rewrite IH.
    destruct (Dict.contains hp symbol); [|reflexivity].
    destruct (Estimator.annual_return py_int h (Dict.get hp symbol None));
      reflexivity.
Qed.

Lemma fill_expected_returns_fails py_int predictions symbols acc symbol :
  In symbol symbols ->
  Estimator.symbol_returns py_int predictions symbol = None ->
  Estimator.fill_expected_returns py_int predictions symbols acc = None.
Proof.
  intros Hin Hfail. revert acc.
  induction symbols as [|s rest IH]; intros acc; [contradiction|].
  cbn [Estimator.fill_expected_returns].
  destruct (String.eqb_spec s symbol) as [->|Hne].
  - now rewrite Hfail.
  - destruct Hin as [Heq|Hin]; [congruence|].
    destruct (Estimator.symbol_returns py_int predictions s) as [[|r returns]|];
      [now apply IH|now apply IH|reflexivity].
Qed.

(** X15.  One bad horizon discards every prediction: when the horizon of a
    prediction for a requested symbol makes the annualisation raise
    ([int] fails on the name, or the horizon is zero days), every symbol
    of the request gets 0.08, the symbols with usable predictions too. *)
Theorem extract_expected_returns_bad_horizon
    (py_int : string -> option Z) (predictions : ml_predictions_t)
    (symbols : list string) (horizon : string)
    (horizon_predictions : dict (option Q)) (symbol : string) :
  distinct symbols = true ->
  In symbol symbols ->
  In (horizon, horizon_predictions) predictions ->
  Dict.contains horizon_predictions symbol = true ->
  Estimator.annual_return py_int horizon
    (Dict.get horizon_predictions symbol None) = None ->
  Estimator.extract_expected_returns py_int predictions symbols
  = map (fun s => (s, 0.08)) symbols.
Proof.
  intros Hd Hs Hin Hc Hfail. apply distinct_NoDup in Hd.
  unfold Estimator.extract_expected_returns.
  rewrite (fill_expected_returns_fails py_int predictions symbols [] symbol Hs
             (symbol_returns_fails _ _ _ _ _ Hin Hc Hfail)).
  now apply of_zip_map.
Qed.

Lemma extract_expected_returns_bad_horizon_witness :
  Estimator.extract_expected_returns int_of_digits
    [("21d", [("SPY", Some 0.02)]); ("0d", [("TLT", Some 0.01)])]
    ["SPY"; "TLT"]
  = map (fun s => (s, 0.08)) ["SPY"; "TLT"].
Proof.
  apply (extract_expected_returns_bad_horizon int_of_digits _ _ "0d"
           [("TLT", Some 0.01)] "TLT").
  - reflexivity.
  - right. left. reflexivity.
  - right. left. reflexivity.
  - reflexivity.
  - reflexivity.
Defined.

(** ** Reporting: changes, drift, concentration *)

Lemma In_dedup (l : list string) (k : string) : In k (dedup l) <-> In k l.
Proof.
  induction l as [|x l IH]; cbn [dedup]; [reflexivity|].
  destruct (existsb (String.eqb x) l) eqn:E.
  - apply existsb_eqb_In in E. rewrite IH. split; [now right|].
    intros [<-|H]; assumption.
  - cbn [In]. now rewrite IH.
Qed.

Lemma dedup_NoDup_id (l : list string) : NoDup l -> dedup l = l.
Proof.
  induction 1 as [|x l Hx Hl IH]; cbn [dedup]; [reflexivity|].
  apply existsb_eqb_not_In in Hx. now rewrite Hx, IH.
Qed.

Lemma dedup_app_incl (l1 l2 : list string) :
  incl l1 l2 -> dedup (l1 ++ l2) = dedup l2.
Proof.
  induction l1 as [|x l1 IH]; intros Hincl; cbn [app dedup]; [reflexivity|].
  assert (E : existsb (String.eqb x) (l1 ++ l2) = true).
  { apply existsb_eqb_In. apply in_or_app. right. apply Hincl. now left. }
  rewrite E. apply IH. intros y Hy. apply Hincl. now right.
Qed.

Lemma getitem_map_pairs {V : Type} (f : string -> V) (l : list string) (k : string) :
  In k l -> Dict.getitem (map (fun s => (s, f s)) l) k = Ok (f k).
Proof.
  induction l as [|s l IH]; intros Hin; cbn [map Dict.getitem].
  - contradiction.
  - destruct (String.eqb_spec k s) as [->|Hne]; [reflexivity|].
    apply IH. destruct Hin as [Heq|Hin]; [congruence|assumption].
Qed.

(** X16.  Every symbol of either map has an entry in the change report, with
    the weights read with the default 0, and its action follows the 1%
    deadband: BUY above +1%, SELL below -1%, HOLD in between, the edges
    included.  The relative change of a position that is not held is 0,
    not a division by zero. *)
Theorem calculate_allocation_changes_entry
    (current_weights new_weights : dict Q) (s : string) :
  In s (Dict.keys current_weights) \/ In s (Dict.keys new_weights) ->
  exists ch,
    Dict.getitem (calculate_allocation_changes current_weights new_weights) s
    = Ok ch /\
    current_weight ch = Dict.get current_weights s 0 /\
    new_weight ch = Dict.get new_weights s 0 /\
    (action_of ch = BUY <-> 0.01 < new_weight ch - current_weight ch) /\
    (action_of ch = SELL <-> new_weight ch - current_weight ch < -0.01) /\
    (action_of ch = HOLD <->
     -0.01 <= new_weight ch - current_weight ch <= 0.01) /\
    (current_weight ch <= 0 -> relative_change ch = 0).
Proof.
  intros Hin.
  assert (Hs : In s (all_symbols current_weights new_weights)).
  { unfold all_symbols. apply In_dedup. apply in_or_app. exact Hin. }
  unfold calculate_allocation_changes.
  rewrite (getitem_map_pairs
             (fun symbol => change_of (Dict.get current_weights symbol 0)
                                      (Dict.get new_weights symbol 0)) _ s Hs).
  eexists. split; [reflexivity|].
  generalize (Dict.get current_weights s 0) (Dict.get new_weights s 0).
  intros c n. unfold change_of.
  cbn [current_weight new_weight action_of relative_change].
  split; [reflexivity|]. split; [reflexivity|].
  assert (Hrel : c <= 0 -> (if Qgtb c 0 then (n - c) / c else 0) = 0).
  { intros Hc. assert (E : Qgtb c 0 = false) by now apply Qgtb_false.
    now rewrite E. }
  destruct (Qgtb (n - c) 0.01) eqn:Eb;
    [apply Qgtb_true in Eb|apply Qgtb_false in Eb];
    [|destruct (Qltb (n - c) (-0.01)) eqn:Es;
      [apply Qltb_true in Es|apply Qltb_false in Es]];
    (split; [|split; [|split; [|exact Hrel]]]);
    (split; intros H0;
     first [discriminate H0 | reflexivity | lra
           | (destruct H0; lra) | (split; lra)]).
Qed.

Lemma calculate_allocation_changes_entry_witness :
  exists ch,
    Dict.getitem
      (calculate_allocation_changes [("SPY", 0.6); ("TLT", 0.4)]
         [("SPY", 0.5); ("TLT", 0.45); ("GLD", 0.05)]) "GLD" = Ok ch /\
    current_weight ch = Dict.get [("SPY", 0.6); ("TLT", 0.4)] "GLD" 0 /\
    new_weight ch = Dict.get [("SPY", 0.5); ("TLT", 0.45); ("GLD", 0.05)] "GLD" 0 /\
    (action_of ch = BUY <-> 0.01 < new_weight ch - current_weight ch) /\
    (action_of ch = SELL <-> new_weight ch - current_weight ch < -0.01) /\
    (action_of ch = HOLD <->
     -0.01 <= new_weight ch - current_weight ch <= 0.01) /\
    (current_weight ch <= 0 -> relative_change ch = 0).
Proof.
  apply calculate_allocation_changes_entry.
  right. right. right. left. reflexivity.
Defined.

Lemma map_keys_turnover (current_weights new_weights : dict Q) :
  NoDup (Dict.keys new_weights) ->
  map (fun symbol =>
         Qabs (Dict.get new_weights symbol 0 - Dict.get current_weights symbol 0))
      (Dict.keys new_weights)
  = map (turnover_term current_weights) new_weights.
Proof.
  intros Hnd. unfold Dict.keys. rewrite map_map.
  apply map_ext_in. intros [k v] Hin. cbn [fst]. unfold turnover_term.
  cbn [fst snd]. now rewrite (get_In new_weights k v 0 Hnd Hin).
Qed.

(** X17.  When the new weights are over the symbols of the current ones -- as
    the [optimal_weights] of the service are -- the drift that
    [check_rebalancing_needed] reports is the very sum the projector's
    turnover step limits, and rebalancing is flagged exactly when it
    exceeds 5%. *)
Theorem check_rebalancing_needed_is_turnover
    (current_weights new_weights : dict Q) :
  distinct (Dict.keys current_weights) = true ->
  Dict.keys new_weights = Dict.keys current_weights ->
  total_drift (check_rebalancing_needed current_weights new_weights)
  == sum (map (turnover_term current_weights) new_weights) /\
  (rebalancing_needed (check_rebalancing_needed current_weights new_weights)
   = true <->
   0.05 < sum (map (turnover_term current_weights) new_weights)).
Proof.
  intros Hd Hk. apply distinct_NoDup in Hd.
  assert (E : total_drift (check_rebalancing_needed current_weights new_weights)
              = sum (map (turnover_term current_weights) new_weights)).
  { unfold check_rebalancing_needed. cbn [total_drift]. unfold all_symbols.
    rewrite Hk, dedup_app_incl by apply incl_refl.
    rewrite dedup_NoDup_id by assumption.
    rewrite <- Hk. rewrite map_keys_turnover; [reflexivity|now rewrite Hk]. }
  split; [rewrite E; reflexivity|].
  unfold check_rebalancing_needed in *. cbn [rebalancing_needed total_drift] in *.
  rewrite E. unfold rebalancing_threshold. apply Qgtb_true.
Qed.

Lemma check_rebalancing_needed_is_turnover_witness :
  total_drift
    (check_rebalancing_needed [("SPY", 0.6); ("TLT", 0.4)]
       [("SPY", 0.5); ("TLT", 0.5)])
  == sum (map (turnover_term [("SPY", 0.6); ("TLT", 0.4)])
           [("SPY", 0.5); ("TLT", 0.5)]) /\
  (rebalancing_needed
     (check_rebalancing_needed [("SPY", 0.6); ("TLT", 0.4)]
        [("SPY", 0.5); ("TLT", 0.5)]) = true <->
   0.05 < sum (map (turnover_term [("SPY", 0.6); ("TLT", 0.4)])
             [("SPY", 0.5); ("TLT", 0.5)])).
Proof.
  apply check_rebalancing_needed_is_turnover; reflexivity.
Defined.

Lemma sum_all_zero (l : list Q) : Forall (fun x => x == 0) l -> sum l == 0.
Proof.
  induction 1 as [|x l Hx _ IH]; [reflexivity|].
  rewrite sum_cons, Hx, IH. lra.
Qed.

(** X18.  Unchanged weights are never flagged: the drift of a map against
    itself is 0, whatever its keys and values. *)
Theorem check_rebalancing_needed_unchanged (weights : dict Q) :
  total_drift (check_rebalancing_needed weights weights) == 0 /\
  rebalancing_needed (check_rebalancing_needed weights weights) = false.
Proof.
  assert (E : total_drift (check_rebalancing_needed weights weights) == 0).
  { unfold check_rebalancing_needed. cbn [total_drift].
    apply sum_all_zero. apply Forall_forall. intros x Hin.
    apply in_map_iff in Hin. destruct Hin as [s [<- _]].
    assert (Hz : Dict.get weights s 0 - Dict.get weights s 0 == 0) by ring.
    rewrite Hz. reflexivity. }
  split; [rewrite E; reflexivity|].
  unfold check_rebalancing_needed in *. cbn [rebalancing_needed total_drift] in *.
  apply Qgtb_false. rewrite E. unfold rebalancing_threshold. lra.
Qed.

Lemma inject_Z_succ (n : nat) :
  inject_Z (Z.of_nat (S n)) == inject_Z (Z.of_nat n) + 1.
Proof.
  assert (E : Z.of_nat (S n) = (Z.of_nat n + 1)%Z) by lia.
  rewrite E, inject_Z_plus. reflexivity.
Qed.

Lemma inject_Z_nat_nonneg (n : nat) : 0 <= inject_Z (Z.of_nat n).
Proof.
  change 0 with (inject_Z 0). rewrite <- Zle_Qle. lia.
Qed.

Lemma inject_Z_nat_pos (n : nat) : (0 < n)%nat -> 1 <= inject_Z (Z.of_nat n).
Proof.
  intros H. change 1 with (inject_Z 1). rewrite <- Zle_Qle. lia.
Qed.

(** The square of a sum is at most the length times the sum of squares. *)
Lemma sum_squared_le (l : list Q) :
  sum l * sum l
  <= inject_Z (Z.of_nat (List.length l)) * sum (map (fun w => w * w) l).
Proof.
  induction l as [|x l IH]; cbn [map List.length].
  - rewrite !sum_nil. lra.
  - rewrite inject_Z_succ, !sum_cons.
    set (S := sum l) in *. set (Qs := sum (map (fun w => w * w) l)) in *.
    set (m := inject_Z (Z.of_nat (List.length l))) in *.
    destruct l as [|y l'].
    + subst S Qs m. cbn [map List.length]. rewrite !sum_nil.
      change (inject_Z (Z.of_nat 0)) with 0.
      assert (E : (x + 0) * (x + 0) == (0 + 1) * (x * x + 0)) by ring.
      rewrite E. apply Qle_refl.
    + assert (Hm : 1 <= m).
      { subst m. apply inject_Z_nat_pos. cbn [List.length]. lia. }
      assert (Hsq : 0 <= (m * x - S) * (m * x - S)).
      { destruct (Qlt_le_dec (m * x - S) 0) as [Hneg|Hpos].
        - assert (E : (m * x - S) * (m * x - S)
                      == (- (m * x - S)) * (- (m * x - S))) by ring.
          rewrite E. apply Qmult_le_0_compat; lra.
        - apply Qmult_le_0_compat; lra. }
      assert (Hprod : 0 <= (m + 1) * (m * Qs - S * S)).
      { apply Qmult_le_0_compat; lra. }
      assert (Hid : m * ((m + 1) * (x * x + Qs) - (x + S) * (x + S))
                    == (m * x - S) * (m * x - S)
                       + (m + 1) * (m * Qs - S * S)) by ring.
      assert (Hpos : 0 <= m * ((m + 1) * (x * x + Qs) - (x + S) * (x + S))).
      { rewrite Hid. lra. }
      assert (Hgoal : 0 <= (m + 1) * (x * x + Qs) - (x + S) * (x + S)).
      { destruct (Qlt_le_dec ((m + 1) * (x * x + Qs) - (x + S) * (x + S)) 0)
          as [Hneg|Hok]; [|exact Hok].
        exfalso.
        assert (Hlt : m * ((m + 1) * (x * x + Qs) - (x + S) * (x + S)) < 0).
        { assert (E : m * ((m + 1) * (x * x + Qs) - (x + S) * (x + S))
                      == - (m * - ((m + 1) * (x * x + Qs) - (x + S) * (x + S))))
            by ring.
          rewrite E.
          pose proof (Qmult_lt_0_compat m
                        (- ((m + 1) * (x * x + Qs) - (x + S) * (x + S)))
                        ltac:(lra) ltac:(lra)).
          lra. }
        lra. }
      lra.
Qed.

Lemma sum_squares_le_sum (l : list Q) :
  Forall (fun x => 0 <= x /\ x <= 1) l -> sum (map (fun w => w * w) l) <= sum l.
Proof.
  induction 1 as [|x l [Hx0 Hx1] _ IH]; cbn [map].
  - rewrite !sum_nil. lra.
  - rewrite !sum_cons.
    assert (Hsq : x * x <= x).
    { assert (E : x - x * x == x * (1 - x)) by ring.
      pose proof (Qmult_le_0_compat x (1 - x) Hx0 ltac:(lra)). lra. }
    lra.
Qed.

(** X19.  For a weight map like the one the service returns -- N >= 1 weights
    that are not negative and sum to 1 -- the concentration index lies
    between 1/N and 1, and the effective number of assets between 1 and
    N. *)
Theorem herfindahl_index_bounds (weights : dict Q) :
  weights <> [] ->
  all_values (fun v => 0 <= v) weights ->
  sum (Dict.values weights) == 1 ->
  1 / inject_Z (Z.of_nat (List.length (Dict.keys weights)))
  <= herfindahl_index weights /\
  herfindahl_index weights <= 1 /\
  1 <= effective_assets weights /\
  effective_assets weights <= inject_Z (Z.of_nat (List.length (Dict.keys weights))).
Proof.
  intros Hne Hnn Hsum. unfold effective_assets, herfindahl_index.
  pose proof (sum_squared_le (Dict.values weights)) as Hcs.
  rewrite Hsum in Hcs.
  assert (Hlen : List.length (Dict.values weights)
                 = List.length (Dict.keys weights)).
  { unfold Dict.values, Dict.keys. now rewrite !length_map. }
  rewrite Hlen in Hcs.
  set (n := inject_Z (Z.of_nat (List.length (Dict.keys weights)))) in *.
  set (h := sum (map (fun w => w * w) (Dict.values weights))) in *.
  assert (Hn : 1 <= n).
  { subst n. apply inject_Z_nat_pos. destruct weights; [congruence|].
    cbn [Dict.keys map List.length]. lia. }
  assert (Hh1 : h <= 1).
  { subst h. rewrite <- Hsum. apply sum_squares_le_sum.
    unfold all_values in Hnn. pose proof (elements_le_sum _ Hnn) as Hle.
    rewrite Forall_forall in *. intros x Hin. split; [now apply Hnn|].
    rewrite <- Hsum. now apply Hle. }
  assert (Hlow : 1 / n <= h).
  { apply Qle_shift_div_r; [lra|]. lra. }
  assert (Hhpos : 0 < h).
  { assert (0 < 1 / n) by (apply Qlt_shift_div_l; lra). lra. }
  assert (E : Qgtb h 0 = true) by now apply Qgtb_true.
  rewrite E. split; [exact Hlow|]. split; [exact Hh1|]. split.
  - apply Qle_shift_div_l; lra.
  - apply Qle_shift_div_r; [lra|]. lra.
Qed.

Lemma herfindahl_index_bounds_witness :
  1 / inject_Z (Z.of_nat (List.length (Dict.keys stocks_and_bonds)))
  <= herfindahl_index stocks_and_bonds /\
  herfindahl_index stocks_and_bonds <= 1 /\
  1 <= effective_assets stocks_and_bonds /\
  effective_assets stocks_and_bonds
  <= inject_Z (Z.of_nat (List.length (Dict.keys stocks_and_bonds))).
Proof.
  apply herfindahl_index_bounds.
  - discriminate.
  - unfold all_values. cbn [Dict.values map snd stocks_and_bonds].
    repeat (apply Forall_cons; [lra|]). apply Forall_nil.
  - apply Qeq_bool_iff. vm_compute. reflexivity.
Defined.
(** ** The optimizer suite: normalisation and dispatch *)

Lemma sum_repeat (c : Q) (n : nat) :
  sum (repeat c n) == inject_Z (Z.of_nat n) * c.
Proof.
  induction n as [|n IH].
  - cbn [repeat]. rewrite sum_nil. cbn [Z.of_nat]. unfold inject_Z. lra.
  - cbn [repeat]. rewrite sum_cons, IH, inject_Z_succ. lra.
Qed.

Lemma equal_weights_normalised (n : nat) : normalised_or_nan (equal_weights n).
Proof.
  destruct n as [|n]; [left; constructor|right].
  pose proof (inject_Z_nat_pos (S n) ltac:(lia)) as Hpos.
  unfold equal_weights. split.
  - apply Forall_forall. intros v Hin. apply repeat_spec in Hin. subst v.
    eexists. split; [reflexivity|]. apply Qle_shift_div_l; lra.
  - rewrite map_repeat. cbn [float_value]. rewrite sum_repeat.
    field. lra.
Qed.

Lemma finite_or_nan (a : ndarray) : (exists qs, a = map Fin qs) \/ In NaN a.
Proof.
  induction a as [|v a IH].
  - left. now exists [].
  - destruct v as [q|]; [|right; now left].
    destruct IH as [[qs ->]|Hin]; [left|right; now right].
    now exists (q :: qs).
Qed.

Lemma fold_fadd_nan (a : ndarray) : fold_left fadd a NaN = NaN.
Proof. induction a as [|v a IH]; [reflexivity|exact IH]. Qed.

Lemma np_sum_nan (a : ndarray) (acc : npfloat) :
  In NaN a -> fold_left fadd a acc = NaN.
Proof.
  revert acc. induction a as [|v a IH]; intros acc Hin; [contradiction|].
  cbn [fold_left]. destruct Hin as [->|Hin].
  - destruct acc; cbn [fadd]; apply fold_fadd_nan.
  - now apply IH.
Qed.

Lemma np_sum_finite (qs : list Q) (acc : Q) :
  fold_left fadd (map Fin qs) (Fin acc) = Fin (fold_left Qplus qs acc).
Proof.
  revert acc. induction qs as [|q qs IH]; intros acc; [reflexivity|].
  cbn [map fold_left fadd]. apply IH.
Qed.

Lemma fdiv_nan (v : npfloat) : fdiv v NaN = NaN.
Proof. now destruct v. Qed.

(** Clipping at 0 and dividing by the sum gives weights or nothing. *)
Lemma normalise_clipped (a : ndarray) :
  normalised_or_nan (np_div (np_maximum0 a) (np_sum (np_maximum0 a))).
Proof.
  unfold np_div, np_sum. destruct (finite_or_nan a) as [[qs ->]|Hnan].
  - assert (E : np_maximum0 (map Fin qs) = map Fin (map max0 qs)).
    { unfold np_maximum0. rewrite !map_map. reflexivity. }
    rewrite E, np_sum_finite. fold (sum (map max0 qs)).
    set (s := sum (map max0 qs)).
    assert (Hs : 0 <= s).
    { apply sum_nonneg. apply Forall_forall. intros x Hin.
      apply in_map_iff in Hin. destruct Hin as [q [<- _]]. apply max0_nonneg. }
    rewrite map_map. cbn [fdiv].
    destruct (Qeq_bool s 0) eqn:Ez.
    + left. apply Forall_forall. intros v Hin. apply in_map_iff in Hin.
      now destruct Hin as [x [<- _]].
    + right. apply Qeq_bool_neq in Ez.
      assert (Hpos : 0 < s) by lra. split.
      * apply Forall_forall. intros v Hin. apply in_map_iff in Hin.
        destruct Hin as [x [<- Hx]]. eexists. split; [reflexivity|].
        apply in_map_iff in Hx. destruct Hx as [q [<- _]].
        apply Qle_shift_div_l; [assumption|].
        pose proof (max0_nonneg q). lra.
      * rewrite map_map. cbn [float_value].
        rewrite (sum_map_div (map max0 qs) s). fold s. field. lra.
  - left. assert (Hin : In NaN (np_maximum0 a)).
    { unfold np_maximum0. apply in_map_iff. now exists NaN. }
    rewrite (np_sum_nan _ _ Hin).
    apply Forall_forall. intros v Hv. apply in_map_iff in Hv.
    destruct Hv as [x [<- _]]. apply fdiv_nan.
Qed.

(** X20.  Whatever the four candidates are -- of equal lengths, with an
    array of length one broadcast over the others, or of lengths that
    cannot be added at all; with negative entries or [nan] -- the
    ensemble is a weight vector (finite, not negative, summing to 1) or
    consists of [nan] only: never a mix, never a negative weight. *)
Theorem ensemble_optimization_methods_normalised
    (mv_weights rp_weights bl_weights min_var_weights : ndarray)
    (symbols : list string) :
  normalised_or_nan
    (ensemble_optimization_methods mv_weights rp_weights bl_weights
       min_var_weights symbols).
Proof.
  unfold ensemble_optimization_methods.
  destruct (np_add _ _) as [e1|x]; cbn [bind try_except];
    [|apply equal_weights_normalised].
  destruct (np_add e1 _) as [e2|x]; cbn [bind try_except];
    [|apply equal_weights_normalised].
  destruct (np_add e2 _) as [e3|x]; cbn [bind try_except];
    [|apply equal_weights_normalised].
  apply normalise_clipped.
Qed.

Lemma np_add_incompatible (a b : ndarray) :
  List.length a <> List.length b ->
  List.length a <> 1%nat -> List.length b <> 1%nat ->
  np_add a b = Raise ValueError.
Proof.
  intros Hab Ha Hb. unfold np_add.
  apply Nat.eqb_neq in Hab. rewrite Hab.
  destruct a as [|v [|v' a]]; destruct b as [|w [|w' b]];
    try reflexivity; simpl in Ha, Hb; congruence.
Qed.

(** X21.  Candidates whose shapes cannot be broadcast together are not
    blended: when the mean-variance and the risk-parity arrays have
    different lengths and neither has length one, the addition raises
    and the equal weights over the symbols are returned, whatever the
    candidates hold. *)
Theorem ensemble_optimization_methods_shape_mismatch
    (mv_weights rp_weights bl_weights min_var_weights : ndarray)
    (symbols : list string) :
  List.length mv_weights <> List.length rp_weights ->
  List.length mv_weights <> 1%nat -> List.length rp_weights <> 1%nat ->
  ensemble_optimization_methods mv_weights rp_weights bl_weights
    min_var_weights symbols
  = equal_weights (List.length symbols).
Proof.
  intros Hlen Hmv Hrp. unfold ensemble_optimization_methods.
  rewrite np_add_incompatible; [reflexivity| | |];
    unfold np_scale; rewrite ?length_map; assumption.
Qed.

Lemma ensemble_optimization_methods_shape_mismatch_witness :
  ensemble_optimization_methods [Fin 1; Fin 0] [Fin 1; Fin 0; Fin 0]
    [Fin 1; Fin 0] [Fin 1; Fin 0] ["SPY"; "TLT"]
  = equal_weights 2.
Proof.
  apply (ensemble_optimization_methods_shape_mismatch
           [Fin 1; Fin 0] [Fin 1; Fin 0; Fin 0] [Fin 1; Fin 0] [Fin 1; Fin 0]
           ["SPY"; "TLT"]); simpl; lia.
Defined.

(** X22.  When the linear algebra of Black-Litterman goes through, its
    candidate is a weight vector or [nan] throughout, of the length of
    the current weights. *)
Theorem black_litterman_optimization_normalised (B : Backend)
    (mu : ndarray) (sigma : matrix) (current_w w : ndarray) :
  black_litterman_weights B mu sigma current_w = Ok w ->
  normalised_or_nan (black_litterman_optimization B mu sigma current_w) /\
  List.length (black_litterman_optimization B mu sigma current_w)
  = List.length current_w.
Proof.
  intros Hw. unfold black_litterman_optimization. rewrite Hw.
  cbn [bind try_except]. split; [apply normalise_clipped|].
  unfold np_div, np_maximum0. rewrite !length_map.
  exact (black_litterman_weights_shape B _ _ _ _ Hw).
Qed.

Lemma black_litterman_optimization_normalised_witness :
  normalised_or_nan
    (black_litterman_optimization stationary_backend
       [Fin 0.08; Fin 0.03] (diagonal_covariance ["SPY"; "TLT"] [])
       [Fin 0.6; Fin 0.4]) /\
  List.length
    (black_litterman_optimization stationary_backend
       [Fin 0.08; Fin 0.03] (diagonal_covariance ["SPY"; "TLT"] [])
       [Fin 0.6; Fin 0.4]) = 2%nat.
Proof.
  apply (black_litterman_optimization_normalised stationary_backend
           [Fin 0.08; Fin 0.03] (diagonal_covariance ["SPY"; "TLT"] [])
           [Fin 0.6; Fin 0.4]
           (diagonal_black_litterman_weights [Fin 0.08; Fin 0.03]
              [Fin 0.6; Fin 0.4])).
  reflexivity.
Defined.

Lemma lookup_all_Ok {V : Type} (d : dict V) (symbols : list string) :
  incl symbols (Dict.keys d) -> exists l, lookup_all d symbols = Ok l.
Proof.
  induction symbols as [|s rest IH]; intros Hincl; simpl.
  - now exists [].
  - destruct (getitem_keys d s (Hincl s (or_introl eq_refl))) as [v ->].
    destruct IH as [tl ->].
    { intros k Hk. apply Hincl. now right. }
    cbn [bind]. now eexists.
Qed.

Lemma lookup_all_Ok_incl {V : Type} (d : dict V) (symbols : list string) l :
  lookup_all d symbols = Ok l -> incl symbols (Dict.keys d).
Proof.
  revert l. induction symbols as [|s rest IH]; intros l H k Hk; simpl in *.
  - contradiction.
  - destruct (Dict.getitem d s) as [v|e] eqn:E; cbn [bind] in H; [|discriminate].
    destruct (lookup_all d rest) as [tl|e] eqn:Er; cbn [bind] in H;
      [|discriminate].
    destruct Hk as [<-|Hk].
    + apply getitem_Ok_In in E. exact (In_keys d s v E).
    + exact (IH tl eq_refl k Hk).
Qed.

(** X23.  The dispatcher falls back to equal weights exactly when a requested
    symbol has no expected return.  Nothing the four optimizers do --
    a solver that raises or does not converge, a singular covariance,
    candidates full of [nan] -- changes the reported method. *)
Theorem optimize_portfolio_allocation_method (B : Backend)
    (symbols : list string) (expected_returns : dict npfloat)
    (covariance_matrix : matrix) (current_weights : dict Q) (risk_target : Q) :
  (incl symbols (Dict.keys expected_returns) /\
   method (optimize_portfolio_allocation B symbols expected_returns
             covariance_matrix current_weights risk_target) = "ensemble") \/
  (~ incl symbols (Dict.keys expected_returns) /\
   optimize_portfolio_allocation B symbols expected_returns
     covariance_matrix current_weights risk_target
   = {| ensemble_weights :=
          Dict.of_zip symbols (equal_weights (List.length symbols));
        method := "equal_weight_fallback" |}).
Proof.
  unfold optimize_portfolio_allocation.
  destruct (lookup_all expected_returns symbols) as [mu|e] eqn:E;
    cbn [bind try_except method].
  - left. split; [|reflexivity]. exact (lookup_all_Ok_incl _ _ _ E).
  - right. split; [|reflexivity]. intros Hincl.
    destruct (lookup_all_Ok expected_returns symbols Hincl) as [l Hl].
    congruence.
Qed.

Lemma values_of_zip {V : Type} (ks : list string) (vs : list V) :
  NoDup ks -> List.length vs = List.length ks ->
  Dict.values (Dict.of_zip ks vs) = vs.
Proof.
  intros Hnd Hlen. unfold Dict.of_zip.
  rewrite of_zip_fold; [|assumption|intros k _ []].
  cbn [app]. clear Hnd. revert vs Hlen.
  induction ks as [|k ks IH]; intros [|v vs] H; simpl in *;
    try reflexivity; try discriminate.
  f_equal. apply IH. now injection H.
Qed.

(** X24.  On a covariance with one row per symbol, the weights that leave
    the optimizer stage, on its normal path and on its fallback alike,
    are one per symbol and form a weight vector or are all [nan] -- for
    every backend, that is whatever [minimize] and the matrix inversions
    return or raise. *)
Theorem optimize_portfolio_allocation_normalised (B : Backend)
    (symbols : list string) (expected_returns : dict npfloat)
    (covariance_matrix : matrix) (current_weights : dict Q) (risk_target : Q) :
  distinct symbols = true ->
  List.length covariance_matrix = List.length symbols ->
  Dict.keys (ensemble_weights
               (optimize_portfolio_allocation B symbols expected_returns
                  covariance_matrix current_weights risk_target)) = symbols /\
  normalised_or_nan
    (Dict.values
       (ensemble_weights
          (optimize_portfolio_allocation B symbols expected_returns
             covariance_matrix current_weights risk_target))).
Proof.
  intros Hd Hshape. apply distinct_NoDup in Hd.
  split; [now apply keys_optimize_portfolio_allocation|].
  unfold optimize_portfolio_allocation.
  destruct (lookup_all expected_returns symbols) as [mu|e] eqn:E;
    cbn [bind try_except ensemble_weights].
  - rewrite values_of_zip; [|assumption|].
    + unfold ensemble_optimization_methods.
      destruct (np_add _ _) as [e1|x]; cbn [bind try_except];
        [|apply equal_weights_normalised].
      destruct (np_add e1 _) as [e2|x]; cbn [bind try_except];
        [|apply equal_weights_normalised].
      destruct (np_add e2 _) as [e3|x]; cbn [bind try_except];
        [|apply equal_weights_normalised].
      apply normalise_clipped.
    + apply length_ensemble_optimization_methods.
      * rewrite length_mean_variance_optimization.
        now apply length_lookup_all with (d := expected_returns).
      * now rewrite length_risk_parity_optimization.
      * now rewrite length_black_litterman_optimization, length_map.
      * now rewrite length_minimum_variance_optimization.
  - rewrite values_of_zip;
      [apply equal_weights_normalised|assumption|apply length_equal_weights].
Qed.

Lemma optimize_portfolio_allocation_normalised_witness :
  Dict.keys (ensemble_weights
               (optimize_portfolio_allocation stationary_backend
                  ["SPY"; "TLT"; "GLD"]
                  (default_expected_returns [] ["SPY"; "TLT"; "GLD"])
                  (diagonal_covariance ["SPY"; "TLT"; "GLD"] [])
                  equity_heavy 0.15)) = ["SPY"; "TLT"; "GLD"] /\
  normalised_or_nan
    (Dict.values
       (ensemble_weights
          (optimize_portfolio_allocation stationary_backend
             ["SPY"; "TLT"; "GLD"]
             (default_expected_returns [] ["SPY"; "TLT"; "GLD"])
             (diagonal_covariance ["SPY"; "TLT"; "GLD"] [])
             equity_heavy 0.15))).
Proof.
  apply (optimize_portfolio_allocation_normalised stationary_backend).
  - reflexivity.
  - reflexivity.
Defined.
(** ** The orchestrator: what a response holds *)

Lemma method_of_service (B : Backend) (symbols : list string)
    (preds : ml_predictions_t) (covariance_matrix : matrix)
    (cw : dict Q) (risk_target : Q) :
  method (optimize_portfolio_allocation B symbols
            (extract_expected_returns B preds symbols)
            covariance_matrix cw risk_target) = "ensemble".
Proof.
  unfold optimize_portfolio_allocation.
  destruct (lookup_all_Ok (extract_expected_returns B preds symbols) symbols)
    as [mu ->].
  - rewrite extract_expected_returns_keys. apply incl_refl.
  - reflexivity.
Qed.

(** X25.  For a non-empty weight map without negative weights the service
    answers with [success = True], no [error], the method "ensemble" --
    the equal-weight fallback of the dispatcher is out of reach, since
    the extractor gives every symbol an expected return -- and optimal
    weights over exactly the symbols of the request, in their order,
    each between 0 and 1. *)
Theorem calculate_dynamic_allocation_response (B : Backend) (r : request)
    (cw : dict Q) :
  current_weights r = Some (PyDict cw) -> cw <> [] ->
  distinct (Dict.keys cw) = true -> nonnegative cw = true ->
  exists w,
    calculate_dynamic_allocation B (JsonObject r)
    = Ok {| success := Some true;
            optimal_weights := Some (PyDict w);
            error := None;
            optimization_method := Some "ensemble";
            fallback_mode := None |} /\
    Dict.keys w = Dict.keys cw /\
    all_values (fun v => 0 <= v <= 1) w.
Proof.
  intros Hr Hne Hd Hn.
  exists (final_weights B cw (or_default (market_regime r) "Stable")
            (or_default (regime_confidence r) 0.7)
            (or_default (ml_predictions r) [])).
  split; [|].
  - unfold calculate_dynamic_allocation, allocation_body.
    rewrite Hr. cbn [or_default].
    destruct cw as [|kv cw]; [congruence|].
    cbn [truthy negb keys_of bind as_dict].
    now rewrite method_of_service.
  - destruct (final_weights_spec B cw
                (or_default (market_regime r) "Stable")
                (or_default (regime_confidence r) 0.7)
                (or_default (ml_predictions r) []) Hd Hn)
      as (b & t & _ & _ & Hfinal & _ & Hkt & _ & _ & Ht0 & Hpos & _).
    assert (Hkeys : Dict.keys cw <> []).
    { destruct cw; [congruence|discriminate]. }
    destruct (renormalize_spec t Ht0 (Hpos Hkeys)) as [Hsum Hnn].
    rewrite Hfinal. split.
    + now rewrite keys_renormalize.
    + pose proof (elements_le_sum _ Hnn) as Hle.
      unfold all_values in *. rewrite Forall_forall in *.
      intros v Hv. split; [now apply Hnn|].
      rewrite <- Hsum. now apply Hle.
Qed.

Lemma calculate_dynamic_allocation_response_witness :
  exists w,
    calculate_dynamic_allocation stalled_backend
      (JsonObject (request_for three_funds "Bull" 0.9))
    = Ok {| success := Some true;
            optimal_weights := Some (PyDict w);
            error := None;
            optimization_method := Some "ensemble";
            fallback_mode := None |} /\
    Dict.keys w = ["SPY"; "TLT"; "QQQ"] /\
    all_values (fun v => 0 <= v <= 1) w.
Proof.
  apply (calculate_dynamic_allocation_response stalled_backend
           (request_for three_funds "Bull" 0.9) three_funds).
  - reflexivity.
  - discriminate.
  - reflexivity.
  - reflexivity.
Defined.

(** X26.  Weights that are not a map but are truthy -- a non-empty list, a
    non-zero number, a non-empty string -- pass the emptiness test, make
    [current_weights.keys()] raise, and come back unchanged as the
    [optimal_weights] of a fallback response with [success = False]. *)
Theorem calculate_dynamic_allocation_echoes_non_dict_weights (B : Backend)
    (r : request) (v : pyvalue) :
  current_weights r = Some v -> truthy v = true ->
  (forall d, v <> PyDict d) ->
  calculate_dynamic_allocation B (JsonObject r)
  = Ok {| success := Some false;
          optimal_weights := Some v;
          error := Some "Dynamic allocation optimization failed - using current weights";
          optimization_method := None;
          fallback_mode := Some true |}.
Proof.
  intros Hr Ht Hv. unfold calculate_dynamic_allocation, allocation_body.
  rewrite Hr. cbn [or_default]. rewrite Ht. cbn [negb].
  destruct v as [|q|s|len|d]; try reflexivity.
  exfalso. now apply (Hv d).
Qed.

Lemma calculate_dynamic_allocation_echoes_non_dict_weights_witness :
  calculate_dynamic_allocation stationary_backend
    (JsonObject {| current_weights := Some (PyList 2);
                   market_regime := Some "Bull";
                   regime_confidence := Some 0.7;
                   ml_predictions := None;
                   risk_adjustment := None |})
  = Ok {| success := Some false;
          optimal_weights := Some (PyList 2);
          error := Some "Dynamic allocation optimization failed - using current weights";
          optimization_method := None;
          fallback_mode := Some true |}.
Proof.
  apply (calculate_dynamic_allocation_echoes_non_dict_weights
           stationary_backend).
  - reflexivity.
  - reflexivity.
  - intros d H. discriminate H.
Defined.
(** ** The expected return of a portfolio *)

Lemma lookup_all_entries {V : Type} (d : dict V) (sub : list (string * V)) :
  NoDup (Dict.keys d) -> incl sub d ->
  lookup_all d (map fst sub) = Ok (map snd sub).
Proof.
  intros Hnd. induction sub as [|[k v] sub IH]; intros Hincl; cbn [map].
  - reflexivity.
  - cbn [lookup_all fst snd].
    rewrite (getitem_In d k v Hnd (Hincl _ (or_introl eq_refl))).
    cbn [bind]. rewrite IH; [reflexivity|].
    intros kv Hkv. apply Hincl. now right.
Qed.

Lemma lookup_all_within (expected_returns : dict Q) (symbols : list string)
    (lo hi : Q) :
  (forall s, In s symbols ->
     exists m, Dict.getitem expected_returns s = Ok m /\ lo <= m <= hi) ->
  exists mu,
    lookup_all expected_returns symbols = Ok mu /\
    List.length mu = List.length symbols /\
    Forall (fun m => lo <= m <= hi) mu.
Proof.
  induction symbols as [|s rest IH]; intros H.
  - exists []. repeat split. constructor.
  - destruct (H s (or_introl eq_refl)) as [m [Hm Hb]].
    destruct IH as [mu [Hmu [Hlen Hall]]].
    { intros k Hk. apply H. now right. }
    exists (m :: mu). cbn [lookup_all]. rewrite Hm, Hmu. cbn [bind].
    split; [reflexivity|]. split; [simpl; now f_equal|now constructor].
Qed.

Lemma dot_between (w mu : list Q) (lo hi : Q) :
  List.length mu = List.length w ->
  Forall (fun x => 0 <= x) w -> Forall (fun m => lo <= m <= hi) mu ->
  lo * sum w <= dot w mu <= hi * sum w.
Proof.
  revert mu. induction w as [|x w IH]; intros [|m mu] Hlen Hw Hmu;
    try discriminate.
  - cbn [dot]. rewrite sum_nil. lra.
  - cbn [dot]. rewrite sum_cons.
    apply Forall_cons_iff in Hw. destruct Hw as [Hx Hw].
    apply Forall_cons_iff in Hmu. destruct Hmu as [Hm Hmu].
    injection Hlen as Hlen.
    specialize (IH mu Hlen Hw Hmu). nra.
Qed.

(** X27.  The expected return of a weight vector (not negative, summing to 1)
    is an average of the expected returns of its symbols: it lies
    between the smallest and the largest of them. *)
Theorem portfolio_return_between (weights expected_returns : dict Q)
    (lo hi : Q) :
  distinct (Dict.keys weights) = true ->
  all_values (fun v => 0 <= v) weights ->
  sum (Dict.values weights) == 1 ->
  (forall s, In s (Dict.keys weights) ->
     exists m, Dict.getitem expected_returns s = Ok m /\ lo <= m <= hi) ->
  exists r, portfolio_return weights expected_returns = Ok r /\ lo <= r <= hi.
Proof.
  intros Hd Hnn Hsum Her. apply distinct_NoDup in Hd.
  unfold portfolio_return.
  pose proof (lookup_all_entries weights weights Hd (incl_refl _)) as Hw.
  fold (Dict.keys weights) in Hw. fold (Dict.values weights) in Hw.
  rewrite Hw. cbn [bind].
  destruct (lookup_all_within expected_returns (Dict.keys weights) lo hi Her)
    as [mu [Hmu [Hlen Hall]]].
  rewrite Hmu. cbn [bind]. eexists. split; [reflexivity|].
  assert (Hlen' : List.length mu = List.length (Dict.values weights)).
  { rewrite Hlen. unfold Dict.keys, Dict.values. now rewrite !length_map. }
  pose proof (dot_between (Dict.values weights) mu lo hi Hlen' Hnn Hall) as Hb.
  rewrite Hsum in Hb. lra.
Qed.

Lemma portfolio_return_between_witness :
  exists r,
    portfolio_return stocks_and_bonds [("TLT", 0.03); ("SPY", 0.08)] = Ok r /\
    0.03 <= r <= 0.08.
Proof.
  apply portfolio_return_between.
  - reflexivity.
  - repeat (apply Forall_cons; [cbn; lra|]). apply Forall_nil.
  - vm_compute. reflexivity.
  - intros s [<-|[<-|[]]]; eexists; (split; [reflexivity|lra]).
Defined.

Lemma getitem_raises_KeyError {V : Type} (d : dict V) k e :
  Dict.getitem d k = Raise e -> e = KeyError.
Proof.
  induction d as [|[k' v'] d IH]; simpl; intros H.
  - now injection H as <-.
  - destruct (String.eqb k k'); [discriminate|now apply IH].
Qed.

Lemma lookup_all_missing {V : Type} (d : dict V) (symbols : list string) s :
  In s symbols -> ~ In s (Dict.keys d) -> lookup_all d symbols = Raise KeyError.
Proof.
  intros Hin Hmiss. induction symbols as [|k l IH]; [contradiction|].
  cbn [lookup_all]. destruct Hin as [->|Hin].
  - now rewrite (getitem_missing d s Hmiss).
  - destruct (Dict.getitem d k) as [m|e] eqn:E; cbn [bind].
    + now rewrite (IH Hin).
    + now rewrite (getitem_raises_KeyError d k e E).
Qed.

(** X28.  A held symbol without expected return is not read as 0: the product
    is not formed and [KeyError] is raised (to the handler that answers
    with the canned metrics). *)
Theorem portfolio_return_missing_symbol (weights expected_returns : dict Q)
    (s : string) :
  distinct (Dict.keys weights) = true ->
  In s (Dict.keys weights) -> ~ In s (Dict.keys expected_returns) ->
  portfolio_return weights expected_returns = Raise KeyError.
Proof.
  intros Hd Hin Hmiss. apply distinct_NoDup in Hd.
  unfold portfolio_return.
  pose proof (lookup_all_entries weights weights Hd (incl_refl _)) as Hw.
  fold (Dict.keys weights) in Hw. fold (Dict.values weights) in Hw.
  rewrite Hw. cbn [bind].
  now rewrite (lookup_all_missing expected_returns _ s Hin Hmiss).
Qed.

Lemma portfolio_return_missing_symbol_witness :
  portfolio_return stocks_and_bonds [("SPY", 0.08)] = Raise KeyError.
Proof.
  apply (portfolio_return_missing_symbol stocks_and_bonds [("SPY", 0.08)] "TLT").
  - reflexivity.
  - simpl. tauto.
  - simpl. intros [H|[]]. discriminate H.
Defined.
